(** * mysql-golang-mcp: query-safety classifier and connection manager

    A shallow embedding of [db/validator.go], [db/connection.go] and of the
    configuration loader ([package config]), with the properties of the
    specification stated and proved over it.

    Modelling conventions.
    - A Go [string] is a sequence of bytes: Stdlib's [string] (a list of
      8-bit [ascii]).  [strings.HasPrefix], [strings.Contains] and
      [strings.Join] work on bytes and are modelled exactly.
      [strings.ToUpper] and [strings.TrimSpace] are modelled as Go computes
      them on ASCII text: [a-z] is mapped to [A-Z], and the white space is
      tab, LF, VT, FF, CR and space.  Bytes from 0x80 on are carried through
      unchanged, where Go would map the letters and trim the spaces of the
      rest of Unicode.  The results that look inside these two functions
      look only at ASCII white space and ASCII letters (the keyword at the
      head of a statement, a pattern spelled in ASCII), where Go computes
      the same; every other result takes the upper-cased, trimmed text as
      it comes.
    - Go's [int] and [int64] are [Z]; the only arithmetic of the modelled
      code is a row counter, which stays far from the 64-bit bounds.
    - A Go [map] is a stdpp [gmap].  The registry maps a name to a
      connection record, where the code has a pointer to it: a [null] entry
      of the configuration file, on which [LoadConfig] panics, is outside
      the model.
    - [database/sql] is an interface to the outside world: a record of
      functions over an abstract world, and every call that the manager
      makes is written to a trace.  A cursor is the rows that [Next]
      delivers together with the error that [Err] holds once [Next] is
      false.  The manager is modelled sequentially; its lock is not
      represented. *)

From Stdlib Require Import ZArith Ascii String List Bool Lia DecimalString.
From stdpp Require Import base option gmap strings list fin_maps.

Local Open Scope string_scope.
Local Open Scope bool_scope.

(** ** Go's [strings] package *)

Module GoStrings.

(** [s1 + s2] on Go strings. *)
Fixpoint cat (s1 s2 : string) : string :=
  match s1 with
  | EmptyString => s2
  | String c s1' => String c (cat s1' s2)
  end.

(** ['a' <= c && c <= 'z'] *)
Definition isLower (c : ascii) : bool :=
  let n := nat_of_ascii c in (97 <=? n)%nat && (n <=? 122)%nat.

(** [c -= 'a' - 'A'] for a lower-case letter, any other byte unchanged. *)
Definition upperByte (c : ascii) : ascii :=
  if isLower c then ascii_of_nat (nat_of_ascii c - 32) else c.

(** [strings.ToUpper] *)
Fixpoint ToUpper (s : string) : string :=
  match s with
  | EmptyString => EmptyString
  | String c s' => String (upperByte c) (ToUpper s')
  end.

(** The table [asciiSpace]: ['\t', '\n', '\v', '\f', '\r', ' ']. *)
Definition isSpace (c : ascii) : bool :=
  let n := nat_of_ascii c in
  ((9 <=? n)%nat && (n <=? 13)%nat) || (n =? 32)%nat.

Fixpoint TrimLeft (s : string) : string :=
  match s with
  | EmptyString => EmptyString
  | String c s' => if isSpace c then TrimLeft s' else s
  end.

Definition isEmpty (s : string) : bool :=
  match s with EmptyString => true | String _ _ => false end.

Fixpoint TrimRight (s : string) : string :=
  match s with
  | EmptyString => EmptyString
  | String c s' =>
      let r := TrimRight s' in
      if isSpace c && isEmpty r then EmptyString else String c r
  end.

(** [strings.TrimSpace]: leading and trailing white space removed. *)
Definition TrimSpace (s : string) : string := TrimRight (TrimLeft s).

(** [strings.HasPrefix(s, prefix)] *)
Fixpoint HasPrefix (s prefix : string) {struct prefix} : bool :=
  match prefix with
  | EmptyString => true
  | String p prefix' =>
      match s with
      | EmptyString => false
      | String c s' => Ascii.eqb c p && HasPrefix s' prefix'
      end
  end.

(** [strings.Contains(s, substr)] *)
Fixpoint Contains (s substr : string) : bool :=
  HasPrefix s substr ||
  match s with
  | EmptyString => false
  | String _ s' => Contains s' substr
  end.

(** [strings.Join(elems, sep)] *)
Fixpoint Join (elems : list string) (sep : string) : string :=
  match elems with
  | [] => EmptyString
  | [e] => e
  | e :: rest => cat e (cat sep (Join rest sep))
  end.

(** Every byte of [s] satisfies [p]. *)
Fixpoint allBytes (p : ascii -> bool) (s : string) : bool :=
  match s with
  | EmptyString => true
  | String c s' => p c && allBytes p s'
  end.

End GoStrings.

Import GoStrings.

(** ** [db/validator.go] *)

(** [type QueryType int] with its sixteen constants. *)
Inductive QueryType : Type :=
| QueryTypeUnknown
| QueryTypeSelect
| QueryTypeInsert
| QueryTypeUpdate
| QueryTypeDelete
| QueryTypeAlter
| QueryTypeShow
| QueryTypeDescribe
| QueryTypeExplain
| QueryTypeDrop
| QueryTypeTruncate
| QueryTypeCreate
| QueryTypeGrant
| QueryTypeRevoke
| QueryTypeSet
| QueryTypeUse.

Definition QueryType_eqb (a b : QueryType) : bool :=
  match a, b with
  | QueryTypeUnknown, QueryTypeUnknown
  | QueryTypeSelect, QueryTypeSelect
  | QueryTypeInsert, QueryTypeInsert
  | QueryTypeUpdate, QueryTypeUpdate
  | QueryTypeDelete, QueryTypeDelete
  | QueryTypeAlter, QueryTypeAlter
  | QueryTypeShow, QueryTypeShow
  | QueryTypeDescribe, QueryTypeDescribe
  | QueryTypeExplain, QueryTypeExplain
  | QueryTypeDrop, QueryTypeDrop
  | QueryTypeTruncate, QueryTypeTruncate
  | QueryTypeCreate, QueryTypeCreate
  | QueryTypeGrant, QueryTypeGrant
  | QueryTypeRevoke, QueryTypeRevoke
  | QueryTypeSet, QueryTypeSet
  | QueryTypeUse, QueryTypeUse => true
  | _, _ => false
  end.

(** The table [prefixMap] of [DetectQueryType], in the order of the source. *)
Definition prefixMap : list (string * QueryType) :=
  [ ("SELECT", QueryTypeSelect);
    ("INSERT", QueryTypeInsert);
    ("UPDATE", QueryTypeUpdate);
    ("DELETE", QueryTypeDelete);
    ("ALTER", QueryTypeAlter);
    ("SHOW", QueryTypeShow);
    ("DESCRIBE", QueryTypeDescribe);
    ("DESC ", QueryTypeDescribe);
    ("EXPLAIN", QueryTypeExplain);
    ("DROP", QueryTypeDrop);
    ("TRUNCATE", QueryTypeTruncate);
    ("CREATE", QueryTypeCreate);
    ("GRANT", QueryTypeGrant);
    ("REVOKE", QueryTypeRevoke);
    ("SET", QueryTypeSet);
    ("USE", QueryTypeUse) ].

(** The loop [for _, pm := range prefixMap] with its early [return]. *)
Fixpoint firstPrefix (q : string) (pm : list (string * QueryType)) : QueryType :=
  match pm with
  | [] => QueryTypeUnknown
  | (prefix, queryType) :: pm' =>
      if HasPrefix q prefix then queryType else firstPrefix q pm'
  end.

Definition DetectQueryType (query : string) : QueryType :=
  let q := TrimSpace (ToUpper query) in
  firstPrefix q prefixMap.

(** The map [labels] of [GetQueryTypeLabel]; every constant has an entry, so
    the fall-through ["UNKNOWN"] is never taken. *)
Definition GetQueryTypeLabel (qt : QueryType) : string :=
  match qt with
  | QueryTypeUnknown => "UNKNOWN"
  | QueryTypeSelect => "SELECT"
  | QueryTypeInsert => "INSERT"
  | QueryTypeUpdate => "UPDATE"
  | QueryTypeDelete => "DELETE"
  | QueryTypeAlter => "ALTER"
  | QueryTypeShow => "SHOW"
  | QueryTypeDescribe => "DESCRIBE"
  | QueryTypeExplain => "EXPLAIN"
  | QueryTypeDrop => "DROP"
  | QueryTypeTruncate => "TRUNCATE"
  | QueryTypeCreate => "CREATE"
  | QueryTypeGrant => "GRANT"
  | QueryTypeRevoke => "REVOKE"
  | QueryTypeSet => "SET"
  | QueryTypeUse => "USE"
  end.

Definition IsReadOnlyQueryType (qt : QueryType) : bool :=
  match qt with
  | QueryTypeSelect | QueryTypeShow | QueryTypeDescribe | QueryTypeExplain => true
  | _ => false
  end.

Definition IsDangerousQueryType (qt : QueryType) : bool :=
  match qt with
  | QueryTypeDrop | QueryTypeTruncate | QueryTypeCreate
  | QueryTypeGrant | QueryTypeRevoke => true
  | _ => false
  end.

(** ** Errors

    The source builds its errors with [fmt.Errorf]; each format string of
    the three packages is one constructor, and [Error] renders the message.
    A [cause] is the message of the wrapped driver error ([%w]). *)

Inductive error : Type :=
| ErrUnknownConnection (name : string)
| ErrOpenFailed (name cause : string)
| ErrConnectFailed (name cause : string)
| ErrReadOnly (name : string)
| ErrReadOnlyAlter (name : string)
| ErrReadOnlyUnsafe (name : string)
| ErrDangerousQuery
| ErrDangerousWrite
| ErrBlockedPattern (pattern : string)
| ErrSensitive
| ErrTypeMismatch (expected got : string)
| ErrExecution (cause : string)
| ErrColumns (cause : string)
| ErrScan (cause : string)
| ErrHostRequired (name : string)
| ErrUserRequired (name : string)
| ErrDatabaseRequired (name : string)
| ErrNoConnections.

Definition cats (parts : list string) : string := fold_right cat "" parts.

(** [err.Error()] *)
Definition Error (e : error) : string :=
  match e with
  | ErrUnknownConnection name => cats ["unknown connection: "; name]
  | ErrOpenFailed name cause =>
      cats ["failed to open connection '"; name; "': "; cause]
  | ErrConnectFailed name cause =>
      cats ["failed to connect to '"; name; "': "; cause]
  | ErrReadOnly name =>
      cats ["connection '"; name;
            "' is read-only, write operations are not allowed"]
  | ErrReadOnlyAlter name =>
      cats ["connection '"; name;
            "' is read-only, ALTER operations are not allowed"]
  | ErrReadOnlyUnsafe name =>
      cats ["connection '"; name;
            "' is read-only, write operations are not allowed (even with unsafe mode)"]
  | ErrDangerousQuery =>
      "dangerous operations (DROP, ALTER, TRUNCATE, CREATE, GRANT, REVOKE) are not allowed"
  | ErrDangerousWrite =>
      "dangerous operations (DROP, TRUNCATE, CREATE, GRANT, REVOKE) are not allowed. Use mysql_execute_unsafe if you need to bypass this check"
  | ErrBlockedPattern pattern =>
      cats ["operation '"; pattern;
            "' is not allowed even with mysql_alter. Use mysql_execute_unsafe if absolutely necessary"]
  | ErrSensitive => "access to sensitive MySQL metadata is not allowed"
  | ErrTypeMismatch expected got =>
      cats ["query type mismatch: expected "; expected; ", got "; got;
            ". Use the appropriate tool for this query type"]
  | ErrExecution cause => cats ["query execution failed: "; cause]
  | ErrColumns cause => cats ["failed to get columns: "; cause]
  | ErrScan cause => cats ["failed to scan row: "; cause]
  | ErrHostRequired name => cats ["connection '"; name; "': host is required"]
  | ErrUserRequired name => cats ["connection '"; name; "': user is required"]
  | ErrDatabaseRequired name =>
      cats ["connection '"; name; "': database is required"]
  | ErrNoConnections => "no connections defined in config"
  end.

(** A Go result pair [(value, err)]. *)
Inductive res (E A : Type) : Type :=
| Ok (a : A)
| Err (e : E).
Arguments Ok {E A} a.
Arguments Err {E A} e.

Definition isOk {E A} (r : res E A) : bool :=
  match r with Ok _ => true | Err _ => false end.

(** [ValidateQueryType]: [None] is the [nil] error. *)
Definition ValidateQueryType (query : string) (allowed : list QueryType)
  : option error :=
  let detected := DetectQueryType query in
  if existsb (fun qt => QueryType_eqb detected qt) allowed then None
  else
    let expectedLabels := map GetQueryTypeLabel allowed in
    let expected := Join expectedLabels "/" in
    let got := GetQueryTypeLabel detected in
    Some (ErrTypeMismatch expected got).

(** ** [package config] *)

Module config.

Record ConnectionConfig : Type := {
  Host : string;
  Port : Z;
  User : string;
  Password : string;
  Database : string;
  ReadOnly : bool;
  MaxRows : Z
}.

Record Config : Type := {
  Connections : gmap string ConnectionConfig
}.

(** The process environment, and [os.Getenv]: the empty string when the
    variable is unset. *)
Definition Getenv (env : gmap string string) (key : string) : string :=
  default "" (env !! key).

(** The part [([^}]+)\}$] of the pattern, read from the byte after ["${"]:
    the bytes up to the first ['}'], which has to be the last byte. *)
Fixpoint untilClosingBrace (s : string) : option string :=
  match s with
  | EmptyString => None
  | String c s' =>
      if Ascii.eqb c "}"
      then (if isEmpty s' then Some EmptyString else None)
      else option_map (String c) (untilClosingBrace s')
  end.

(** [re.FindStringSubmatch(value)] for [re = ^\$\{([^}]+)\}$]: the capture
    group when the whole value matches. *)
Definition FindStringSubmatch (value : string) : option string :=
  match value with
  | String "$" (String "{" rest) =>
      match untilClosingBrace rest with
      | Some (String c body) => Some (String c body)
      | _ => None
      end
  | _ => None
  end.

Definition expandEnvVar (env : gmap string string) (value : string) : string :=
  match FindStringSubmatch value with
  | Some var => Getenv env var
  | None => value
  end.

(** [validateAndApplyDefaults] updates [*conn] in place and returns an
    error; the model returns the updated record with the error.  The
    expanded fields are written before the checks, so they are kept on
    failure too. *)
Definition validateAndApplyDefaults (env : gmap string string)
    (name : string) (conn : ConnectionConfig)
  : ConnectionConfig * option error :=
  let conn1 :=
    {| Host := expandEnvVar env (Host conn);
       Port := Port conn;
       User := expandEnvVar env (User conn);
       Password := expandEnvVar env (Password conn);
       Database := expandEnvVar env (Database conn);
       ReadOnly := ReadOnly conn;
       MaxRows := MaxRows conn |} in
  if isEmpty (Host conn1) then (conn1, Some (ErrHostRequired name))
  else if isEmpty (User conn1) then (conn1, Some (ErrUserRequired name))
  else if isEmpty (Database conn1) then (conn1, Some (ErrDatabaseRequired name))
  else
    let port := if (Port conn1 =? 0)%Z then 3306%Z else Port conn1 in
    let maxRows := if (MaxRows conn1 =? 0)%Z then 1000%Z else MaxRows conn1 in
    ({| Host := Host conn1;
        Port := port;
        User := User conn1;
        Password := Password conn1;
        Database := Database conn1;
        ReadOnly := ReadOnly conn1;
        MaxRows := maxRows |}, None).

(** The loop of [LoadConfig] over the parsed connections.  Go visits the
    keys of a map in an unspecified order: [order] is the order of this
    run.  The first error ends the loading. *)
Fixpoint applyAll (env : gmap string string) (order : list string)
    (conns : gmap string ConnectionConfig)
  : res error (gmap string ConnectionConfig) :=
  match order with
  | [] => Ok conns
  | name :: order' =>
      match conns !! name with
      | None => applyAll env order' conns
      | Some conn =>
          match validateAndApplyDefaults env name conn with
          | (_, Some err) => Err err
          | (conn', None) => applyAll env order' (<[name := conn']> conns)
          end
      end
  end.

(** [LoadConfig] after [os.ReadFile] and [json.Unmarshal] have produced
    [cfg]. *)
Definition LoadConfig (env : gmap string string) (order : list string)
    (cfg : Config) : res error Config :=
  match applyAll env order (Connections cfg) with
  | Err err => Err err
  | Ok conns =>
      if decide (size conns = 0%nat) then Err ErrNoConnections
      else Ok {| Connections := conns |}
  end.

(** [strconv.Itoa], as [%d] prints a Go [int]. *)
Definition Itoa (n : Z) : string :=
  DecimalString.NilZero.string_of_int (Z.to_int n).

(** The method [DSN] of [ConnectionConfig]. *)
Definition DSN (c : ConnectionConfig) : string :=
  cats [User c; ":"; Password c; "@tcp("; Host c; ":"; Itoa (Port c); ")/";
        Database c;
        "?parseTime=true&timeout=30s&readTimeout=30s&writeTimeout=30s"].

End config.

Import config.

(** ** [db/connection.go]: the text predicates *)

(** The loop [for _, prefix := range prefixes] with its [return true]. *)
Definition anyPrefix (q : string) (prefixes : list string) : bool :=
  existsb (HasPrefix q) prefixes.

Definition isReadOnlyQuery (query : string) : bool :=
  let q := TrimSpace (ToUpper query) in
  let readOnlyPrefixes := ["SELECT"; "SHOW"; "DESCRIBE"; "DESC"; "EXPLAIN"] in
  anyPrefix q readOnlyPrefixes.

Definition isDangerousQuery (query : string) : bool :=
  let q := TrimSpace (ToUpper query) in
  let dangerousPrefixes :=
    ["DROP"; "ALTER"; "TRUNCATE"; "CREATE"; "GRANT"; "REVOKE"] in
  anyPrefix q dangerousPrefixes.

Definition isSensitiveQuery (query : string) : bool :=
  let q := ToUpper query in
  if Contains q "SHOW GRANTS" then true
  else if Contains q "MYSQL.USER" then true
  else if Contains q "USER_PRIVILEGES" then true
  else if Contains q "SHOW PROCESSLIST" || Contains q "SHOW FULL PROCESSLIST"
       then true
  else false.

(** The list [blockedPatterns] of [ExecuteAlter]. *)
Definition blockedPatterns : list string :=
  ["DROP DATABASE"; "DROP SCHEMA"; "TRUNCATE"; "CREATE DATABASE"; "GRANT";
   "REVOKE"].

(** The loop over [blockedPatterns]: the first pattern that [q] contains. *)
Definition firstBlocked (q : string) : option string :=
  List.find (Contains q) blockedPatterns.

(** ** [database/sql] as seen by the manager *)

(** The identity of a [*sql.DB] handle. *)
Definition DB : Type := nat.

(** A column value as [Scan] stores it in an [interface{}].  A [float64] is
    carried as its bit pattern; the manager never computes with it. *)
Inductive value : Type :=
| VNil
| VInt (n : Z)
| VFloat (bits : Z)
| VBool (b : bool)
| VBytes (b : string)
| VString (s : string)
| VTime (t : Z).

(** A [*sql.Rows] cursor: what [Columns] returns, and for each row that
    [Next] delivers what [Scan] reads from it.  [Next] is true as long as a
    row is delivered.  It is false at the end of the result set, and it is
    false as well when the cursor breaks while the rows stream in (the
    connection is lost, the server ends the statement): [rowsErr] is what
    [Err] returns after the loop, [None] at the end of the result set and
    the error of the cursor when it broke.  [rowsNext] holds the rows
    delivered; after a break these are fewer than the result set has. *)
Record sqlRows : Type := {
  rowsColumns : res string (list string);
  rowsNext : list (res string (list value));
  rowsErr : option string
}.

(** A [sql.Result]: the values of [RowsAffected] and [LastInsertId]; the
    manager drops the errors of both calls. *)
Record sqlResult : Type := {
  resRowsAffected : Z;
  resLastInsertId : Z
}.

(** The calls of the manager into [database/sql]. *)
Inductive call : Type :=
| CallOpen (dsn : string)
| CallSetMaxOpenConns (db : DB) (n : Z)
| CallSetMaxIdleConns (db : DB) (n : Z)
| CallPing (db : DB)
| CallClose (db : DB)
| CallQuery (db : DB) (query : string)
| CallExec (db : DB) (query : string).

(** The driver and the server behind it, over a world [W] of their own. *)
Record Driver (W : Type) : Type := {
  sqlOpen : string -> W -> res string DB * W;
  sqlPing : DB -> W -> option string * W;
  sqlClose : DB -> W -> W;
  sqlQuery : DB -> string -> W -> res string sqlRows * W;
  sqlExec : DB -> string -> W -> res string sqlResult * W
}.
Arguments sqlOpen {W} _ _ _.
Arguments sqlPing {W} _ _ _.
Arguments sqlClose {W} _ _ _.
Arguments sqlQuery {W} _ _ _ _.
Arguments sqlExec {W} _ _ _ _.

(** ** [db/connection.go]: results *)

Record QueryResult : Type := {
  Columns : list string;
  Rows : list (gmap string value);
  Count : Z
}.

Record WriteResult : Type := {
  RowsAffected : Z;
  LastInsertID : Z
}.

(** The two result fields are pointers: [None] is [nil]. *)
Record UnsafeResult : Type := {
  uQueryResult : option QueryResult;
  uWriteResult : option WriteResult;
  Warning : string;
  SkippedCheck : string
}.

Definition unsafeWarning : string :=
  "UNSAFE EXECUTION: This query bypassed safety checks. Ensure you understand the implications.".

(** ** Reading a cursor *)

(** [if b, ok := val.([]byte); ok { row[col] = string(b) } else { row[col] = val }] *)
Definition convertValue (val : value) : value :=
  match val with
  | VBytes b => VString b
  | _ => val
  end.

(** [for i, col := range columns { ... row[col] = ... values[i] }]: a column
    name that occurs twice keeps the value of its last occurrence. *)
Definition buildRow (columns : list string) (values : list value)
  : gmap string value :=
  fold_left (fun row cv => <[fst cv := convertValue (snd cv)]> row)
            (zip columns values) ∅.

(** [rows.Scan(valuePtrs...)] with one destination per column: the scan
    fails when the driver reports an error, or, as [database/sql] checks,
    when the row has another number of values than there are destinations
    (a driver that follows its contract never sends such a row). *)
Definition scanRow (columns : list string) (r : res string (list value))
  : res string (list value) :=
  match r with
  | Err e => Err e
  | Ok values =>
      if (length values =? length columns)%nat then Ok values
      else Err (cats ["sql: expected ";
                      NilZero.string_of_uint (Nat.to_uint (length values));
                      " destination arguments in Scan, not ";
                      NilZero.string_of_uint (Nat.to_uint (length columns))])
  end.

(** The loop [for rows.Next() { ... }] of [ExecuteQuery] and of
    [ExecuteUnsafe] (the same text in both): [rest] is what the cursor
    still delivers, [acc] is [result.Rows].  When [Next] is false the loop
    is left, whatever made it false. *)
Fixpoint scanLoop (maxRows : Z) (columns : list string)
    (rest : list (res string (list value)))
    (acc : list (gmap string value)) (rowCount : Z)
  : res error (list (gmap string value) * Z) :=
  match rest with
  | [] => Ok (acc, rowCount)
  | r :: rest' =>
      if (rowCount >=? maxRows)%Z then Ok (acc, rowCount)
      else
        match scanRow columns r with
        | Err e => Err (ErrScan e)
        | Ok values =>
            scanLoop maxRows columns rest'
                     (acc ++ [buildRow columns values]) (rowCount + 1)%Z
        end
  end.

(** From [rows.Columns()] to [result.Count = rowCount].  The code does not
    call [rows.Err()] after the loop: [rowsErr] is not read. *)
Definition collectRows (maxRows : Z) (rows : sqlRows) : res error QueryResult :=
  match rowsColumns rows with
  | Err e => Err (ErrColumns e)
  | Ok columns =>
      match scanLoop maxRows columns (rowsNext rows) [] 0%Z with
      | Err e => Err e
      | Ok (collected, rowCount) =>
          Ok {| Columns := columns; Rows := collected; Count := rowCount |}
      end
  end.

(** ** The manager *)

(** The mutable part of [Manager] ([connections]) with the world behind the
    driver and the trace of the calls made so far.  The configuration is
    never written after loading and is passed on its own.  The model is
    sequential: [mu] orders the callers and is not represented. *)
Record Manager (W : Type) : Type := {
  world : W;
  connections : gmap string DB;
  trace : list call
}.
Arguments world {W} _.
Arguments connections {W} _.
Arguments trace {W} _.

(** Computations of the manager. *)
Definition M (W A : Type) : Type := Manager W -> A * Manager W.

Definition ret {W A} (a : A) : M W A := fun m => (a, m).

Definition bind {W A B} (c : M W A) (k : A -> M W B) : M W B :=
  fun m => let (a, m') := c m in k a m'.

#[global] Instance M_bind {W} : MBind (M W) := fun A B k c => bind c k.

Section Manager.

Context {W : Type}.
Variable drv : Driver W.
Variable cfg : Config.

(** One call into the driver: the world moves and the call is recorded. *)
Definition perform {A} (c : call) (f : W -> A * W) : M W A :=
  fun m =>
    let (a, w) := f (world m) in
    (a, {| world := w; connections := connections m;
           trace := trace m ++ [c] |}).

Definition Open (dsn : string) : M W (res string DB) :=
  perform (CallOpen dsn) (sqlOpen drv dsn).

Definition Ping (db : DB) : M W (option string) :=
  perform (CallPing db) (sqlPing drv db).

Definition Close (db : DB) : M W unit :=
  perform (CallClose db) (fun w => (tt, sqlClose drv db w)).

Definition SetMaxOpenConns (db : DB) (n : Z) : M W unit :=
  perform (CallSetMaxOpenConns db n) (fun w => (tt, w)).

Definition SetMaxIdleConns (db : DB) (n : Z) : M W unit :=
  perform (CallSetMaxIdleConns db n) (fun w => (tt, w)).

Definition Query (db : DB) (query : string) : M W (res string sqlRows) :=
  perform (CallQuery db query) (sqlQuery drv db query).

Definition Exec (db : DB) (query : string) : M W (res string sqlResult) :=
  perform (CallExec db query) (sqlExec drv db query).

(** [db, exists := m.connections[name]] *)
Definition lookupConnection (name : string) : M W (option DB) :=
  fun m => (connections m !! name, m).

(** [m.connections[name] = db] *)
Definition storeConnection (name : string) (db : DB) : M W unit :=
  fun m => (tt, {| world := world m;
                   connections := <[name := db]> (connections m);
                   trace := trace m |}).

(** [GetConnection] from [sql.Open] to the end. *)
Definition openConnection (name : string) (connConfig : ConnectionConfig)
  : M W (res error (DB * ConnectionConfig)) :=
  r ← Open (DSN connConfig);
  match r with
  | Err err => ret (Err (ErrOpenFailed name err))
  | Ok db =>
      SetMaxOpenConns db 5;;
      SetMaxIdleConns db 2;;
      err ← Ping db;
      match err with
      | Some err => Close db;; ret (Err (ErrConnectFailed name err))
      | None => storeConnection name db;; ret (Ok (db, connConfig))
      end
  end.

(** [GetConnection] from [m.mu.Lock()] on: the second look at the pool,
    then a new handle. *)
Definition reconnect (name : string) (connConfig : ConnectionConfig)
  : M W (res error (DB * ConnectionConfig)) :=
  found ← lookupConnection name;
  match found with
  | Some db =>
      err ← Ping db;
      match err with
      | None => ret (Ok (db, connConfig))
      | Some _ => Close db;; openConnection name connConfig
      end
  | None => openConnection name connConfig
  end.

Definition GetConnection (name : string)
  : M W (res error (DB * ConnectionConfig)) :=
  match Connections cfg !! name with
  | None => ret (Err (ErrUnknownConnection name))
  | Some connConfig =>
      found ← lookupConnection name;
      match found with
      | Some db =>
          err ← Ping db;
          match err with
          | None => ret (Ok (db, connConfig))
          | Some _ => Close db;; reconnect name connConfig
          end
      | None => reconnect name connConfig
      end
  end.

(** [ExecuteQuery] after a successful [GetConnection].  The deferred
    [rows.Close()] releases the cursor and has no part in the result. *)
Definition queryWith (connectionName query : string) (db : DB)
    (connConfig : ConnectionConfig) : M W (res error QueryResult) :=
  if ReadOnly connConfig && negb (isReadOnlyQuery query)
  then ret (Err (ErrReadOnly connectionName))
  else if negb (ReadOnly connConfig) && isDangerousQuery query
  then ret (Err ErrDangerousQuery)
  else if isSensitiveQuery query
  then ret (Err ErrSensitive)
  else
    r ← Query db query;
    match r with
    | Err err => ret (Err (ErrExecution err))
    | Ok rows => ret (collectRows (MaxRows connConfig) rows)
    end.

Definition ExecuteQuery (connectionName query : string)
  : M W (res error QueryResult) :=
  r ← GetConnection connectionName;
  match r with
  | Err err => ret (Err err)
  | Ok (db, connConfig) => queryWith connectionName query db connConfig
  end.

(** [ExecuteWrite] after a successful [GetConnection]. *)
Definition writeWith (connectionName query : string)
    (allowedTypes : list QueryType) (db : DB) (connConfig : ConnectionConfig)
  : M W (res error WriteResult) :=
  match (if (0 <? length allowedTypes)%nat
         then ValidateQueryType query allowedTypes else None) with
  | Some err => ret (Err err)
  | None =>
      if ReadOnly connConfig then ret (Err (ErrReadOnly connectionName))
      else
        let queryType := DetectQueryType query in
        if IsDangerousQueryType queryType then ret (Err ErrDangerousWrite)
        else if isSensitiveQuery query then ret (Err ErrSensitive)
        else
          r ← Exec db query;
          match r with
          | Err err => ret (Err (ErrExecution err))
          | Ok result =>
              ret (Ok {| RowsAffected := resRowsAffected result;
                         LastInsertID := resLastInsertId result |})
          end
  end.

Definition ExecuteWrite (connectionName query : string)
    (allowedTypes : list QueryType) : M W (res error WriteResult) :=
  r ← GetConnection connectionName;
  match r with
  | Err err => ret (Err err)
  | Ok (db, connConfig) =>
      writeWith connectionName query allowedTypes db connConfig
  end.

(** [ExecuteAlter] after a successful [GetConnection]. *)
Definition alterWith (connectionName query : string) (db : DB)
    (connConfig : ConnectionConfig) : M W (res error WriteResult) :=
  match ValidateQueryType query [QueryTypeAlter] with
  | Some err => ret (Err err)
  | None =>
      if ReadOnly connConfig then ret (Err (ErrReadOnlyAlter connectionName))
      else
        let q := ToUpper (TrimSpace query) in
        match firstBlocked q with
        | Some pattern => ret (Err (ErrBlockedPattern pattern))
        | None =>
            if isSensitiveQuery query then ret (Err ErrSensitive)
            else
              r ← Exec db query;
              match r with
              | Err err => ret (Err (ErrExecution err))
              | Ok result =>
                  ret (Ok {| RowsAffected := resRowsAffected result;
                             LastInsertID := 0 |})
              end
        end
  end.

Definition ExecuteAlter (connectionName query : string)
  : M W (res error WriteResult) :=
  r ← GetConnection connectionName;
  match r with
  | Err err => ret (Err err)
  | Ok (db, connConfig) => alterWith connectionName query db connConfig
  end.

(** The list [skippedChecks] and the message made of it. *)
Definition skippedChecks (query : string) : list string :=
  (if isDangerousQuery query then ["dangerous query blocking"] else []) ++
  (if isSensitiveQuery query then ["sensitive query blocking"] else []).

Definition skippedCheckMsg (query : string) : string :=
  if (0 <? length (skippedChecks query))%nat
  then Join (skippedChecks query) ", "
  else "none".

(** [ExecuteUnsafe] after a successful [GetConnection]. *)
Definition unsafeWith (connectionName query : string) (db : DB)
    (connConfig : ConnectionConfig) : M W (res error UnsafeResult) :=
  let queryType := DetectQueryType query in
  if ReadOnly connConfig && negb (IsReadOnlyQueryType queryType)
  then ret (Err (ErrReadOnlyUnsafe connectionName))
  else
    if IsReadOnlyQueryType queryType then
      r ← Query db query;
      match r with
      | Err err => ret (Err (ErrExecution err))
      | Ok rows =>
          match collectRows (MaxRows connConfig) rows with
          | Err err => ret (Err err)
          | Ok queryResult =>
              ret (Ok {| uQueryResult := Some queryResult;
                         uWriteResult := None;
                         Warning := unsafeWarning;
                         SkippedCheck := skippedCheckMsg query |})
          end
      end
    else
      r ← Exec db query;
      match r with
      | Err err => ret (Err (ErrExecution err))
      | Ok execResult =>
          ret (Ok {| uQueryResult := None;
                     uWriteResult :=
                       Some {| RowsAffected := resRowsAffected execResult;
                               LastInsertID := resLastInsertId execResult |};
                     Warning := unsafeWarning;
                     SkippedCheck := skippedCheckMsg query |})
      end.

Definition ExecuteUnsafe (connectionName query : string)
  : M W (res error UnsafeResult) :=
  r ← GetConnection connectionName;
  match r with
  | Err err => ret (Err err)
  | Ok (db, connConfig) => unsafeWith connectionName query db connConfig
  end.

End Manager.

(** [NewManager]: an empty pool. *)
Definition NewManager {W} (w : W) : Manager W :=
  {| world := w; connections := ∅; trace := [] |}.

(** ** A scripted driver

    A driver whose answers are fixed in advance, to run the manager on
    concrete inputs.  Its world is a clock that every call advances, so that
    a server can be up at first and down later. *)

Record Script : Type := {
  onOpen : nat -> res string DB;
  onPing : nat -> DB -> option string;
  onQuery : string -> res string sqlRows;
  onExec : string -> res string sqlResult
}.

Definition scripted (s : Script) : Driver nat :=
  {| sqlOpen := fun _ t => (onOpen s t, S t);
     sqlPing := fun db t => (onPing s t db, S t);
     sqlClose := fun _ t => S t;
     sqlQuery := fun _ query t => (onQuery s query, S t);
     sqlExec := fun _ query t => (onExec s query, S t) |}.

(** A server that is up: the handle opened at time [t] is [t], every probe
    succeeds, every query returns [rows] and every statement changes one
    row. *)
Definition upServer (rows : sqlRows) : Script :=
  {| onOpen := fun t => Ok t;
     onPing := fun _ _ => None;
     onQuery := fun _ => Ok rows;
     onExec := fun _ => Ok {| resRowsAffected := 1; resLastInsertId := 0 |} |}.


(** A registry with a read-only connection [replica] and a writable
    connection [primary]. *)
Definition exampleConnection (readOnly : bool) (maxRows : Z)
  : ConnectionConfig :=
  {| Host := "db.local"; Port := 3306; User := "app"; Password := "secret";
     Database := "shop"; ReadOnly := readOnly; MaxRows := maxRows |}.

Definition exampleConfig : Config :=
  {| Connections :=
       <["replica" := exampleConnection true 1000]>
         (<["primary" := exampleConnection false 2]> ∅) |}.

(** A result set of one column [id] with the rows [1 .. n]; the values
    arrive as bytes, as the MySQL text protocol sends them. *)
Definition idRows (n : nat) : sqlRows :=
  {| rowsColumns := Ok ["id"];
     rowsNext :=
       map (fun i => Ok [VBytes (NilZero.string_of_uint (Nat.to_uint i))])
           (seq 1 n);
     rowsErr := None |}.

(** The cursor over the result set of [rows] when the connection breaks
    after [k] rows have arrived: [Next] delivers these rows and is false
    from then on, and [Err] returns [cause]. *)
Definition brokenAfter (k : nat) (cause : string) (rows : sqlRows) : sqlRows :=
  {| rowsColumns := rowsColumns rows;
     rowsNext := firstn k (rowsNext rows);
     rowsErr := Some cause |}.

(** The statements of a trace that reached the server. *)
Definition isStatement (c : call) : bool :=
  match c with
  | CallQuery _ _ | CallExec _ _ => true
  | _ => false
  end.

Definition statements (t : list call) : list call := filter isStatement t.

(** The leading keywords of the closed set of the specification, each with
    its tag: [prefixMap] without the short form ["DESC "]. *)
Definition keywordTypes : list (string * QueryType) :=
  [ ("SELECT", QueryTypeSelect);
    ("INSERT", QueryTypeInsert);
    ("UPDATE", QueryTypeUpdate);
    ("DELETE", QueryTypeDelete);
    ("ALTER", QueryTypeAlter);
    ("SHOW", QueryTypeShow);
    ("DESCRIBE", QueryTypeDescribe);
    ("EXPLAIN", QueryTypeExplain);
    ("DROP", QueryTypeDrop);
    ("TRUNCATE", QueryTypeTruncate);
    ("CREATE", QueryTypeCreate);
    ("GRANT", QueryTypeGrant);
    ("REVOKE", QueryTypeRevoke);
    ("SET", QueryTypeSet);
    ("USE", QueryTypeUse) ].

(** The message of [e] starts with [connection '<name>'], as the three
    errors of [validateAndApplyDefaults] do. *)
Definition namesConnection (e : error) (name : string) : Prop :=
  exists rest, Error e = cat "connection '" (cat name (cat "'" rest)).

(** No byte of [s] is a closing brace: [s] is in the class [[^}]*]. *)
Definition noBrace (s : string) : bool :=
  allBytes (fun c => negb (Ascii.eqb c "}")) s.

(** A row of the cursor and the row of the result made of it. *)
Definition scanned (columns : list string) (src : res string (list value))
    (row : gmap string value) : Prop :=
  exists values, scanRow columns src = Ok values /\ row = buildRow columns values.

(** The calls that open a handle, probe it and give it up. *)
Definition failedOpen (c : ConnectionConfig) (db : DB) : list call :=
  [CallOpen (DSN c); CallSetMaxOpenConns db 5; CallSetMaxIdleConns db 2;
   CallPing db; CallClose db].

(** What a failed resolution [r] of [name], started from [m], leaves
    behind: the pool of [m], and after a failed probe of a new handle a
    trace that ends with [failedOpen]. *)
Definition failureKeepsPool {W : Type} (name : string) (c : ConnectionConfig)
    (m : Manager W) (r : res error (DB * ConnectionConfig) * Manager W)
  : Prop :=
  (forall e, fst r = Err e -> connections (snd r) = connections m) /\
  (forall cause, fst r = Err (ErrConnectFailed name cause) ->
     exists db pre, trace (snd r) = (pre ++ failedOpen c db)%list).

(** ** The rest of the manager *)

Section ManagerPool.

Context {W : Type}.
Variable drv : Driver W.
Variable cfg : Config.

(** The loop [for _, db := range m.connections { db.Close() }] of the
    method [Close].  Go visits the keys of a map in an unspecified order:
    [order] is the order of this run. *)
Fixpoint closeEach (order : list string) : M W unit :=
  match order with
  | [] => ret tt
  | name :: order' =>
      found ← lookupConnection name;
      match found with
      | Some db => Close drv db;; closeEach order'
      | None => closeEach order'
      end
  end.

(** [m.connections = make(map[string]*sql.DB)] *)
Definition resetPool : M W unit :=
  fun m => (tt, {| world := world m; connections := ∅; trace := trace m |}).

(** The method [Close] of [Manager] (the name [Close] is the [Close] of a
    handle here): every pooled handle is closed and the pool is replaced by
    an empty map. *)
Definition Manager_Close (order : list string) : M W unit :=
  closeEach order;; resetPool.

(** One element of the result of [ListConnections]. *)
Definition connectionEntry (name : string) (conn : ConnectionConfig)
  : gmap string value :=
  <["read_only" := VBool (ReadOnly conn)]> (<["name" := VString name]> ∅).

(** [ListConnections]; [order] is the order in which this run visits the
    keys of [m.config.Connections]. *)
Fixpoint ListConnections (order : list string) : list (gmap string value) :=
  match order with
  | [] => []
  | name :: order' =>
      match Connections cfg !! name with
      | Some conn => connectionEntry name conn :: ListConnections order'
      | None => ListConnections order'
      end
  end.

End ManagerPool.

(** [order] is a possible order of a [range] over the map [m]: every key
    once. *)
Definition enumerates {A} (order : list string) (m : gmap string A) : Prop :=
  NoDup order /\ forall k, In k order <-> is_Some (m !! k).

(** [config.GetConfigPath]: the flag, then the environment, then the
    default. *)
Definition GetConfigPath (env : gmap string string) (flagValue : string)
  : string :=
  if negb (isEmpty flagValue) then flagValue
  else
    let envPath := Getenv env "MYSQL_MCP_CONFIG" in
    if negb (isEmpty envPath) then envPath
    else "./config.json".

(** ** [package tools]: the handlers *)

(** A value of [request.Params.Arguments]: the handlers only ask whether
    it is a string. *)
Inductive argument : Type :=
| ArgString (s : string)
| ArgOther.

(** What a handler returns: [mcp.NewToolResultError] or
    [mcp.NewToolResultText]. *)
Inductive CallToolResult : Type :=
| ToolResultError (msg : string)
| ToolResultText (text : string).

(** [x, ok := request.Params.Arguments[key].(string)] *)
Definition stringArgument (args : gmap string argument) (key : string)
  : string * bool :=
  match args !! key with
  | Some (ArgString s) => (s, true)
  | _ => ("", false)
  end.

(** [!ok || x == ""] for a required parameter. *)
Definition missing (x : string * bool) : bool :=
  negb (snd x) || isEmpty (fst x).

(** An element of the result of [get_indexes]: the map with the keys
    [name], [unique] and [columns]. *)
Record indexEntry : Type := {
  idxName : string;
  idxUnique : bool;
  idxColumns : list string
}.

(** [json.MarshalIndent(v, "", "  ")] at the types the handlers use it
    with; the encoder is not part of the repository. *)
Record Json : Type := {
  jsonQueryResult : QueryResult -> res string string;
  jsonWriteResult : WriteResult -> res string string;
  jsonUnsafeResult : UnsafeResult -> res string string;
  jsonStrings : list string -> res string string;
  jsonRows : list (gmap string value) -> res string string;
  jsonIndexes : list indexEntry -> res string string
}.

(** The end of every handler: the encoded result, or the error of the
    encoder. *)
Definition formatResult (encoded : res string string) : CallToolResult :=
  match encoded with
  | Err err => ToolResultError (cat "failed to format result: " err)
  | Ok result => ToolResultText result
  end.

(** [s, _ := row[key].(string)] *)
Definition stringField (row : gmap string value) (key : string) : string :=
  match row !! key with
  | Some (VString s) => s
  | _ => ""
  end.

(** The type switch on [row["Non_unique"]] of [get_indexes]. *)
Definition isUniqueIndex (row : gmap string value) : bool :=
  match row !! "Non_unique" with
  | Some (VInt v) => (v =? 0)%Z
  | Some (VString v) => String.eqb v "0"
  | _ => false
  end.

(** The body of the loop over the rows of [SHOW INDEX]. *)
Definition indexStep (indexMap : gmap string indexEntry)
    (row : gmap string value) : gmap string indexEntry :=
  let keyName := stringField row "Key_name" in
  if isEmpty keyName then indexMap
  else
    let indexMap1 :=
      match indexMap !! keyName with
      | Some _ => indexMap
      | None =>
          <[keyName := {| idxName := keyName;
                          idxUnique := isUniqueIndex row;
                          idxColumns := [] |}]> indexMap
      end in
    let colName := stringField row "Column_name" in
    if isEmpty colName then indexMap1
    else
      alter (fun e => {| idxName := idxName e;
                         idxUnique := idxUnique e;
                         idxColumns := (idxColumns e ++ [colName])%list |})
            keyName indexMap1.

Definition groupIndexes (rows : list (gmap string value))
  : gmap string indexEntry :=
  fold_left indexStep rows ∅.

(** [for _, idx := range indexMap { indexes = append(indexes, idx) }], the
    keys visited in [order]. *)
Definition indexList (order : list string) (indexMap : gmap string indexEntry)
  : list indexEntry :=
  omap (fun name => indexMap !! name) order.

(** The statements that the schema handlers build with [fmt.Sprintf]. *)
Definition listTablesQuery (database : string) : string :=
  if negb (isEmpty database)
  then cats ["SHOW TABLES FROM `"; database; "`"]
  else "SHOW TABLES".

Definition describeTableQuery (database table : string) : string :=
  if negb (isEmpty database)
  then cats ["DESCRIBE `"; database; "`.`"; table; "`"]
  else cats ["DESCRIBE `"; table; "`"].

Definition showIndexQuery (database table : string) : string :=
  if negb (isEmpty database)
  then cats ["SHOW INDEX FROM `"; database; "`.`"; table; "`"]
  else cats ["SHOW INDEX FROM `"; table; "`"].

Section Tools.

Context {W : Type}.
Variable drv : Driver W.
Variable cfg : Config.
Variable json : Json.

(** The order in which a [range] visits the entries of a row; Go leaves it
    open. *)
Variable visit : gmap string value -> list (string * value).

(** The loops of [list_databases] and [list_tables] that collect every
    string of every row. *)
Definition stringsOfRow (row : gmap string value) : list string :=
  omap (fun kv => match snd kv with VString s => Some s | _ => None end)
       (visit row).

Definition stringsOfRows (rows : list (gmap string value)) : list string :=
  concat (map stringsOfRow rows).

(** [mysql_select] *)
Definition mysql_select (args : gmap string argument) : M W CallToolResult :=
  let connection := stringArgument args "connection" in
  if missing connection
  then ret (ToolResultError "connection parameter is required")
  else
    let sql := stringArgument args "sql" in
    if missing sql then ret (ToolResultError "sql parameter is required")
    else
      match ValidateQueryType (fst sql) [QueryTypeSelect] with
      | Some err => ret (ToolResultError (Error err))
      | None =>
          r ← ExecuteQuery drv cfg (fst connection) (fst sql);
          match r with
          | Err err => ret (ToolResultError (Error err))
          | Ok queryResult =>
              ret (formatResult (jsonQueryResult json queryResult))
          end
      end.

(** [mysql_query], the deprecated general tool. *)
Definition mysql_query (args : gmap string argument) : M W CallToolResult :=
  let connection := stringArgument args "connection" in
  if missing connection
  then ret (ToolResultError "connection parameter is required")
  else
    let sql := stringArgument args "sql" in
    if missing sql then ret (ToolResultError "sql parameter is required")
    else
      r ← ExecuteQuery drv cfg (fst connection) (fst sql);
      match r with
      | Err err => ret (ToolResultError (Error err))
      | Ok queryResult => ret (formatResult (jsonQueryResult json queryResult))
      end.

(** The handlers of [mysql_insert], [mysql_update], [mysql_delete] and
    [mysql_execute] are one text up to the types passed to
    [ExecuteWrite]. *)
Definition writeTool (allowedTypes : list QueryType)
    (args : gmap string argument) : M W CallToolResult :=
  let connection := stringArgument args "connection" in
  if missing connection
  then ret (ToolResultError "connection parameter is required")
  else
    let sql := stringArgument args "sql" in
    if missing sql then ret (ToolResultError "sql parameter is required")
    else
      r ← ExecuteWrite drv cfg (fst connection) (fst sql) allowedTypes;
      match r with
      | Err err => ret (ToolResultError (Error err))
      | Ok writeResult => ret (formatResult (jsonWriteResult json writeResult))
      end.

Definition mysql_insert := writeTool [QueryTypeInsert].
Definition mysql_update := writeTool [QueryTypeUpdate].
Definition mysql_delete := writeTool [QueryTypeDelete].
Definition mysql_execute :=
  writeTool [QueryTypeInsert; QueryTypeUpdate; QueryTypeDelete].

(** [mysql_alter] *)
Definition mysql_alter (args : gmap string argument) : M W CallToolResult :=
  let connection := stringArgument args "connection" in
  if missing connection
  then ret (ToolResultError "connection parameter is required")
  else
    let sql := stringArgument args "sql" in
    if missing sql then ret (ToolResultError "sql parameter is required")
    else
      r ← ExecuteAlter drv cfg (fst connection) (fst sql);
      match r with
      | Err err => ret (ToolResultError (Error err))
      | Ok writeResult => ret (formatResult (jsonWriteResult json writeResult))
      end.

(** [mysql_execute_unsafe] *)
Definition mysql_execute_unsafe (args : gmap string argument)
  : M W CallToolResult :=
  let connection := stringArgument args "connection" in
  if missing connection
  then ret (ToolResultError "connection parameter is required")
  else
    let sql := stringArgument args "sql" in
    if missing sql then ret (ToolResultError "sql parameter is required")
    else
      r ← ExecuteUnsafe drv cfg (fst connection) (fst sql);
      match r with
      | Err err => ret (ToolResultError (Error err))
      | Ok unsafeResult =>
          ret (formatResult (jsonUnsafeResult json unsafeResult))
      end.

(** [list_connections]; [order] as in [ListConnections]. *)
Definition list_connections (order : list string) : M W CallToolResult :=
  ret (formatResult (jsonRows json (ListConnections cfg order))).

(** [list_databases] *)
Definition list_databases (args : gmap string argument) : M W CallToolResult :=
  let connection := stringArgument args "connection" in
  if missing connection
  then ret (ToolResultError "connection parameter is required")
  else
    r ← ExecuteQuery drv cfg (fst connection) "SHOW DATABASES";
    match r with
    | Err err => ret (ToolResultError (Error err))
    | Ok queryResult =>
        ret (formatResult (jsonStrings json (stringsOfRows (Rows queryResult))))
    end.

(** [list_tables]; the optional [database] is the empty string when it is
    absent or not a string. *)
Definition list_tables (args : gmap string argument) : M W CallToolResult :=
  let connection := stringArgument args "connection" in
  if missing connection
  then ret (ToolResultError "connection parameter is required")
  else
    let database := fst (stringArgument args "database") in
    let query := listTablesQuery database in
    r ← ExecuteQuery drv cfg (fst connection) query;
    match r with
    | Err err => ret (ToolResultError (Error err))
    | Ok queryResult =>
        ret (formatResult (jsonStrings json (stringsOfRows (Rows queryResult))))
    end.

(** [describe_table] *)
Definition describe_table (args : gmap string argument) : M W CallToolResult :=
  let connection := stringArgument args "connection" in
  if missing connection
  then ret (ToolResultError "connection parameter is required")
  else
    let table := stringArgument args "table" in
    if missing table then ret (ToolResultError "table parameter is required")
    else
      let database := fst (stringArgument args "database") in
      let query := describeTableQuery database (fst table) in
      r ← ExecuteQuery drv cfg (fst connection) query;
      match r with
      | Err err => ret (ToolResultError (Error err))
      | Ok queryResult => ret (formatResult (jsonRows json (Rows queryResult)))
      end.

(** [get_indexes]; [order] is the order in which the final loop visits
    [indexMap]. *)
Definition get_indexes (order : list string) (args : gmap string argument)
  : M W CallToolResult :=
  let connection := stringArgument args "connection" in
  if missing connection
  then ret (ToolResultError "connection parameter is required")
  else
    let table := stringArgument args "table" in
    if missing table then ret (ToolResultError "table parameter is required")
    else
      let database := fst (stringArgument args "database") in
      let query := showIndexQuery database (fst table) in
      r ← ExecuteQuery drv cfg (fst connection) query;
      match r with
      | Err err => ret (ToolResultError (Error err))
      | Ok queryResult =>
          let indexMap := groupIndexes (Rows queryResult) in
          ret (formatResult (jsonIndexes json (indexList order indexMap)))
      end.

End Tools.

(** A server on which the handle [0] is dead and every other handle is
    alive; the handle opened at time [t] is [S t]. *)
Definition restartedServer : Script :=
  {| onOpen := fun t => Ok (S t);
     onPing := fun _ db =>
       if (db =? 0)%nat then Some "driver: bad connection" else None;
     onQuery := fun _ => Err "driver: bad connection";
     onExec := fun _ => Ok {| resRowsAffected := 1; resLastInsertId := 7 |} |}.

(** An encoder that always succeeds with the same text. *)
Definition constJson (text : string) : Json :=
  {| jsonQueryResult := fun _ => Ok text;
     jsonWriteResult := fun _ => Ok text;
     jsonUnsafeResult := fun _ => Ok text;
     jsonStrings := fun _ => Ok text;
     jsonRows := fun _ => Ok text;
     jsonIndexes := fun _ => Ok text |}.

(** The calls that open a handle and probe it. *)
Definition goodOpen (c : ConnectionConfig) (db : DB) : list call :=
  [CallOpen (DSN c); CallSetMaxOpenConns db 5; CallSetMaxIdleConns db 2;
   CallPing db].

(** What a successful resolution [r] of [name], started from [m], leaves
    behind: the policy of the registry and a pool that maps [name] to the
    handle returned and is otherwise the pool of [m]. *)
Definition successStores {W : Type} (name : string) (c : ConnectionConfig)
    (m : Manager W) (r : res error (DB * ConnectionConfig) * Manager W)
  : Prop :=
  forall db c',
    fst r = Ok (db, c') ->
    c' = c /\ connections (snd r) = <[name := db]> (connections m).

(** The errors of [GetConnection]. *)
Definition resolutionError (name : string) (e : error) : Prop :=
  e = ErrUnknownConnection name \/
  exists cause, e = ErrOpenFailed name cause \/ e = ErrConnectFailed name cause.

(** The manager [m'] is the manager [m] after calls to the driver that
    are no statements. *)
Definition quietly {W : Type} (m m' : Manager W) : Prop :=
  exists calls,
    trace m' = (trace m ++ calls)%list /\ statements calls = [].

(** The manager [m'] is [m] after at most one statement, [sent]. *)
Definition sends {W : Type} (m m' : Manager W) (sent : list call) : Prop :=
  statements (trace m') = (statements (trace m) ++ sent)%list.

(** The text of a one-column row of the cursor, when it is text. *)
Definition textOfRow (src : res string (list value)) : option string :=
  match src with
  | Ok [VBytes b] => Some b
  | Ok [VString s] => Some s
  | _ => None
  end.

(** The function that the loop of [buildRow] folds. *)
Definition putColumn (row : gmap string value) (cv : string * value)
  : gmap string value :=
  <[fst cv := convertValue (snd cv)]> row.

(** The rows of [SHOW INDEX] that belong to the index [keyName], and the
    names of their columns that are not empty. *)
Definition rowsOfIndex (keyName : string) (rows : list (gmap string value))
  : list (gmap string value) :=
  List.filter (fun row => String.eqb (stringField row "Key_name") keyName) rows.

Definition columnsOfIndex (group : list (gmap string value)) : list string :=
  List.filter (fun colName => negb (isEmpty colName))
              (map (fun row => stringField row "Column_name") group).

(** * Properties *)

(** ** Strings *)

Section StringFacts.

Lemma cat_assoc (a b c : string) : cat (cat a b) c = cat a (cat b c).
Proof.
  induction a as [|x a IH]; simpl; [reflexivity|].
  f_equal. exact IH.
Qed.

Lemma cat_empty_r (a : string) : cat a "" = a.
Proof. induction a as [|x a IH]; simpl; [reflexivity|]. f_equal. exact IH. Qed.

Lemma HasPrefix_cat (p r : string) : HasPrefix (cat p r) p = true.
Proof.
  induction p as [|c p IH]; simpl; [reflexivity|].
  rewrite Ascii.eqb_refl. exact IH.
Qed.

Lemma HasPrefix_split (s p : string) :
  HasPrefix s p = true -> exists r, s = cat p r.
Proof.
  revert s. induction p as [|c p IH]; intros s H.
  - exists s. reflexivity.
  - destruct s as [|d s]; simpl in H; [discriminate|].
    apply andb_true_iff in H as [Hc Hp].
    apply Ascii.eqb_eq in Hc. subst d.
    destruct (IH s Hp) as [r ->]. exists r. reflexivity.
Qed.

Lemma HasPrefix_iff (s p : string) :
  HasPrefix s p = true <-> exists r, s = cat p r.
Proof.
  split; [apply HasPrefix_split|].
  intros [r ->]. apply HasPrefix_cat.
Qed.

Lemma anyPrefix_iff (q : string) (prefixes : list string) :
  anyPrefix q prefixes = true <->
  exists kw rest, In kw prefixes /\ q = cat kw rest.
Proof.
  unfold anyPrefix. rewrite existsb_exists. split.
  - intros [kw [Hin Hp]]. apply HasPrefix_split in Hp as [r Hr]. eauto.
  - intros [kw [r [Hin ->]]]. exists kw. split; [exact Hin|apply HasPrefix_cat].
Qed.

Lemma ToUpper_cat (a b : string) :
  ToUpper (cat a b) = cat (ToUpper a) (ToUpper b).
Proof.
  induction a as [|c a IH]; simpl; [reflexivity|].
  f_equal. exact IH.
Qed.

Lemma isSpace_not_lower (c : ascii) : isSpace c = true -> isLower c = false.
Proof.
  unfold isSpace, isLower. intros H.
  destruct (Nat.leb_spec 97 (nat_of_ascii c)); [|reflexivity].
  apply orb_true_iff in H as [H|H].
  - apply andb_true_iff in H as [_ H]. apply Nat.leb_le in H. lia.
  - apply Nat.eqb_eq in H. lia.
Qed.

Lemma ToUpper_space (ws : string) :
  allBytes isSpace ws = true -> ToUpper ws = ws.
Proof.
  induction ws as [|c ws IH]; simpl; [reflexivity|].
  intros H. apply andb_true_iff in H as [Hc Hws].
  unfold upperByte. rewrite (isSpace_not_lower c Hc). now rewrite IH.
Qed.

Lemma TrimLeft_space (ws s : string) :
  allBytes isSpace ws = true -> TrimLeft (cat ws s) = TrimLeft s.
Proof.
  induction ws as [|c ws IH]; simpl; [reflexivity|].
  intros H. apply andb_true_iff in H as [Hc Hws].
  rewrite Hc. now apply IH.
Qed.

Lemma TrimRight_word (w s : string) :
  allBytes (fun c => negb (isSpace c)) w = true ->
  TrimRight (cat w s) = cat w (TrimRight s).
Proof.
  induction w as [|c w IH]; simpl; [reflexivity|].
  intros H. apply andb_true_iff in H as [Hc Hw].
  apply negb_true_iff in Hc. rewrite Hc. simpl.
  now rewrite <- (IH Hw).
Qed.

(** An upper-case word free of white space survives [TrimSpace] at the head
    of the text, whatever its case in the input and whatever white space
    stands before it. *)
Lemma TrimSpace_ToUpper_keyword (ws k rest : string) (c : ascii) (kw : string) :
  allBytes isSpace ws = true ->
  ToUpper k = String c kw ->
  allBytes (fun c => negb (isSpace c)) (String c kw) = true ->
  TrimSpace (ToUpper (cat ws (cat k rest))) =
  cat (String c kw) (TrimRight (ToUpper rest)).
Proof.
  intros Hws Hk Hkw. unfold TrimSpace.
  rewrite !ToUpper_cat, Hk, (ToUpper_space ws Hws), (TrimLeft_space _ _ Hws).
  assert (TrimLeft (cat (String c kw) (ToUpper rest)) =
          cat (String c kw) (ToUpper rest)) as ->.
  { simpl in Hkw |- *. apply andb_true_iff in Hkw as [Hc _].
    apply negb_true_iff in Hc. now rewrite Hc. }
  now apply TrimRight_word.
Qed.

End StringFacts.

(** ** The classifier *)

Lemma QueryType_eqb_eq (a b : QueryType) : QueryType_eqb a b = true <-> a = b.
Proof. destruct a, b; simpl; split; congruence. Qed.

(** A statement that starts with a keyword of the closed set, in any case
    and after any white space, gets the tag of that keyword. *)
Lemma DetectQueryType_keyword (kw : string) (qt : QueryType)
    (ws k rest : string) :
  In (kw, qt) keywordTypes ->
  allBytes isSpace ws = true ->
  ToUpper k = kw ->
  DetectQueryType (cat ws (cat k rest)) = qt.
Proof.
  intros Hin Hws Hk. unfold DetectQueryType. simpl in Hin.
  repeat (destruct Hin as [Hin|Hin];
          [ injection Hin as <- <-;
            rewrite (TrimSpace_ToUpper_keyword ws k rest _ _ Hws Hk eq_refl);
            reflexivity | ]).
  contradiction.
Qed.

(** C6: a statement that after upper-casing and trimming begins with
    ["DESC "] (with the space) is classified DESCRIBE and never DELETE, and
    so is one that begins with ["DESCRIBE"]. *)
Theorem DetectQueryType_desc (query : string) :
  (exists rest, TrimSpace (ToUpper query) = cat "DESC " rest) \/
  (exists rest, TrimSpace (ToUpper query) = cat "DESCRIBE" rest) ->
  DetectQueryType query = QueryTypeDescribe /\
  DetectQueryType query <> QueryTypeDelete.
Proof.
  intros H.
  assert (DetectQueryType query = QueryTypeDescribe) as Hd.
  { unfold DetectQueryType. destruct H as [[rest ->]|[rest ->]]; reflexivity. }
  split; [exact Hd|]. rewrite Hd. discriminate.
Qed.

Lemma DetectQueryType_desc_witness :
  DetectQueryType "  desc users" = QueryTypeDescribe /\
  DetectQueryType "  desc users" <> QueryTypeDelete.
Proof.
  apply (DetectQueryType_desc "  desc users").
  left. exists "USERS". reflexivity.
Defined.

(** C7: for a statement whose leading keyword, in any case and after any
    leading white space, is one of the fifteen keywords of the closed set,
    the detected type is read-only exactly when the keyword is SELECT, SHOW,
    DESCRIBE or EXPLAIN. *)
Theorem IsReadOnlyQueryType_leading_keyword (kw ws k rest : string) :
  In kw (map fst keywordTypes) ->
  allBytes isSpace ws = true ->
  ToUpper k = kw ->
  IsReadOnlyQueryType (DetectQueryType (cat ws (cat k rest))) = true <->
  In kw ["SELECT"; "SHOW"; "DESCRIBE"; "EXPLAIN"].
Proof.
  intros Hin Hws Hk.
  apply in_map_iff in Hin as [[kw' qt] [Hfst Hin]]. simpl in Hfst. subst kw'.
  rewrite (DetectQueryType_keyword kw qt ws k rest Hin Hws Hk).
  clear Hws Hk. simpl in Hin.
  repeat (destruct Hin as [Hin|Hin];
          [ injection Hin as <- <-; simpl; split;
            [ intros H; first [ discriminate H | tauto ]
            | intros H; first [ reflexivity
                              | exfalso; repeat destruct H as [H|H];
                                first [ discriminate H | contradiction ] ] ]
          | ]).
  contradiction.
Qed.

Lemma IsReadOnlyQueryType_leading_keyword_witness :
  IsReadOnlyQueryType (DetectQueryType "  Explain select 1") = true <->
  In "EXPLAIN" ["SELECT"; "SHOW"; "DESCRIBE"; "EXPLAIN"].
Proof.
  apply (IsReadOnlyQueryType_leading_keyword "EXPLAIN" "  " "Explain" " select 1");
    [ simpl; tauto | reflexivity | reflexivity ].
Defined.

(** C8: the text predicate [isDangerousQuery] holds exactly when the
    upper-cased, trimmed statement begins with DROP, ALTER, TRUNCATE, CREATE,
    GRANT or REVOKE, so it flags ALTER; the type predicate
    [IsDangerousQueryType] of the write path holds exactly for the tags DROP,
    TRUNCATE, CREATE, GRANT and REVOKE, and not for ALTER. *)
Theorem dangerous_text_and_type (query : string) :
  (isDangerousQuery query = true <->
   exists kw rest,
     In kw ["DROP"; "ALTER"; "TRUNCATE"; "CREATE"; "GRANT"; "REVOKE"] /\
     TrimSpace (ToUpper query) = cat kw rest) /\
  (forall qt,
     IsDangerousQueryType qt = true <->
     In qt [QueryTypeDrop; QueryTypeTruncate; QueryTypeCreate; QueryTypeGrant;
            QueryTypeRevoke]) /\
  IsDangerousQueryType QueryTypeAlter = false /\
  (DetectQueryType query = QueryTypeAlter ->
   isDangerousQuery query = true /\
   IsDangerousQueryType (DetectQueryType query) = false).
Proof.
  split; [apply anyPrefix_iff|].
  split.
  { intros qt. destruct qt; simpl; split; intros H;
      first [ discriminate H | reflexivity | tauto
            | exfalso; repeat destruct H as [H|H];
              first [ discriminate H | contradiction ] ]. }
  split; [reflexivity|].
  intros Hd. rewrite Hd. split; [|reflexivity].
  unfold DetectQueryType in Hd. unfold isDangerousQuery, anyPrefix.
  set (q := TrimSpace (ToUpper query)) in *. simpl in Hd |- *.
  repeat match type of Hd with
         | (if ?b then _ else _) = _ =>
             destruct b eqn:?; [try discriminate Hd|]
         end;
    try discriminate Hd.
  now rewrite orb_true_r.
Qed.

Lemma dangerous_text_and_type_witness :
  isDangerousQuery "alter table t add column y int" = true /\
  IsDangerousQueryType
    (DetectQueryType "alter table t add column y int") = false.
Proof.
  apply (dangerous_text_and_type "alter table t add column y int").
  reflexivity.
Defined.

Lemma ValidateQueryType_ok (query : string) (allowed : list QueryType) :
  In (DetectQueryType query) allowed -> ValidateQueryType query allowed = None.
Proof.
  intros Hin. unfold ValidateQueryType.
  assert (existsb (fun qt => QueryType_eqb (DetectQueryType query) qt) allowed
          = true) as ->; [|reflexivity].
  apply existsb_exists. exists (DetectQueryType query).
  split; [exact Hin|]. now apply QueryType_eqb_eq.
Qed.

(** C9: [ValidateQueryType] returns no error exactly when the detected type
    is one of the allowed types; otherwise the error is a type mismatch that
    carries the labels of the allowed types joined by ["/"] and the label of
    the detected type, and its message names both. *)
Theorem ValidateQueryType_spec (query : string) (allowed : list QueryType) :
  (ValidateQueryType query allowed = None <->
   In (DetectQueryType query) allowed) /\
  (~ In (DetectQueryType query) allowed ->
   let expected := Join (map GetQueryTypeLabel allowed) "/" in
   let got := GetQueryTypeLabel (DetectQueryType query) in
   ValidateQueryType query allowed = Some (ErrTypeMismatch expected got) /\
   Error (ErrTypeMismatch expected got) =
   cat "query type mismatch: expected "
       (cat expected
            (cat ", got "
                 (cat got ". Use the appropriate tool for this query type")))) /\
  ValidateQueryType "SELECT 1" [QueryTypeSelect] = None /\
  ValidateQueryType "INSERT INTO t VALUES (1)" [QueryTypeSelect] =
    Some (ErrTypeMismatch "SELECT" "INSERT") /\
  Error (ErrTypeMismatch "SELECT" "INSERT") =
    "query type mismatch: expected SELECT, got INSERT. Use the appropriate tool for this query type".
Proof.
  assert (existsb (fun qt => QueryType_eqb (DetectQueryType query) qt) allowed
          = true <-> In (DetectQueryType query) allowed) as Hex.
  { rewrite existsb_exists. split.
    - intros [qt [Hin Heq]]. apply QueryType_eqb_eq in Heq. now subst qt.
    - intros Hin. exists (DetectQueryType query). split; [exact Hin|].
      now apply QueryType_eqb_eq. }
  unfold ValidateQueryType.
  destruct (existsb _ allowed) eqn:He.
  - split; [split; [intros _; now apply Hex | reflexivity]|].
    split; [intros Hn; exfalso; apply Hn; now apply Hex|].
    repeat split.
  - split.
    { split; [discriminate|]. intros Hin. apply Hex in Hin. discriminate. }
    split.
    { intros _. cbv zeta. split; [reflexivity|].
      unfold Error, cats, fold_right. now rewrite cat_empty_r. }
    repeat split.
Qed.

Lemma ValidateQueryType_spec_witness :
  ValidateQueryType "UPDATE t SET x=1" [QueryTypeInsert; QueryTypeDelete] =
    Some (ErrTypeMismatch "INSERT/DELETE" "UPDATE").
Proof.
  apply (proj1 (proj2 (ValidateQueryType_spec "UPDATE t SET x=1"
                         [QueryTypeInsert; QueryTypeDelete]))).
  simpl. intros [H|[H|H]]; [discriminate H|discriminate H|exact H].
Defined.

(** ** The configuration loader *)

Section ConfigFacts.

Variable env : gmap string string.

Lemma isEmpty_true (s : string) : isEmpty s = true <-> s = "".
Proof. destruct s; simpl; split; congruence. Qed.

Lemma untilClosingBrace_spec (s body : string) :
  untilClosingBrace s = Some body <->
  s = cat body "}" /\ noBrace body = true.
Proof.
  revert body. induction s as [|c s IH]; intros body; simpl.
  - split; [discriminate|]. intros [H _]. destruct body; discriminate H.
  - destruct (Ascii.eqb c "}") eqn:Hc.
    + apply Ascii.eqb_eq in Hc. subst c.
      destruct s as [|d s]; simpl.
      * split.
        -- intros [= <-]. split; reflexivity.
        -- intros [H Hb]. destruct body as [|x body]; [reflexivity|].
           simpl in H. injection H as -> H. destruct body; discriminate H.
      * split; [discriminate|]. intros [H Hb].
        destruct body as [|x body]; [discriminate H|].
        simpl in H, Hb. injection H as <- H. discriminate Hb.
    + destruct (untilClosingBrace s) as [b|] eqn:Hu; simpl.
      * split.
        -- intros [= <-]. destruct (proj1 (IH b) eq_refl) as [-> Hb]. simpl.
           unfold noBrace in *. simpl. rewrite Hc. simpl. auto.
        -- intros [H Hb]. destruct body as [|x body].
           ++ simpl in H. injection H as -> _. discriminate Hc.
           ++ simpl in H. injection H as <- H. unfold noBrace in Hb.
              simpl in Hb. apply andb_true_iff in Hb as [_ Hb].
              assert (Some b = Some body) as [= ->] by (apply IH; auto).
              reflexivity.
      * split; [discriminate|]. intros [H Hb]. destruct body as [|x body].
        -- simpl in H. injection H as -> _. discriminate Hc.
        -- simpl in H. injection H as <- H. unfold noBrace in Hb.
           simpl in Hb. apply andb_true_iff in Hb as [_ Hb].
           assert (None = Some body) as Hs by (apply IH; auto).
           discriminate Hs.
Qed.

(** The pattern matches exactly the values that are one [${VAR}] token. *)
Lemma FindStringSubmatch_spec (value var : string) :
  FindStringSubmatch value = Some var <->
  value = cat "${" (cat var "}") /\ var <> "" /\ noBrace var = true.
Proof.
  unfold FindStringSubmatch. split.
  - intros H.
    destruct value as [|a [|b rest]]; try discriminate H.
    { destruct a as [[] [] [] [] [] [] [] []]; discriminate H. }
    destruct (Ascii.eqb a "$") eqn:Ha;
      [apply Ascii.eqb_eq in Ha; subst a
      |destruct a as [[] [] [] [] [] [] [] []]; try discriminate H;
       discriminate Ha].
    destruct (Ascii.eqb b "{") eqn:Hb;
      [apply Ascii.eqb_eq in Hb; subst b
      |destruct b as [[] [] [] [] [] [] [] []]; try discriminate H;
       discriminate Hb].
    destruct (untilClosingBrace rest) as [[|c body]|] eqn:Hu;
      try discriminate H.
    injection H as <-. apply untilClosingBrace_spec in Hu as [-> Hn].
    split; [reflexivity|]. split; [discriminate|exact Hn].
  - intros [-> [Hne Hn]]. simpl.
    assert (untilClosingBrace (cat var "}") = Some var) as ->
      by (apply untilClosingBrace_spec; auto).
    destruct var; [contradiction|reflexivity].
Qed.

Lemma expandEnvVar_token (var : string) :
  var <> "" -> noBrace var = true ->
  expandEnvVar env (cat "${" (cat var "}")) = Getenv env var.
Proof.
  intros Hne Hn. unfold expandEnvVar.
  assert (FindStringSubmatch (cat "${" (cat var "}")) = Some var) as ->
    by (apply FindStringSubmatch_spec; auto).
  reflexivity.
Qed.

Lemma expandEnvVar_literal (value : string) :
  (forall var, value = cat "${" (cat var "}") ->
               var <> "" -> noBrace var = true -> False) ->
  expandEnvVar env value = value.
Proof.
  intros H. unfold expandEnvVar.
  destruct (FindStringSubmatch value) as [var|] eqn:Hf; [|reflexivity].
  apply FindStringSubmatch_spec in Hf as [Hv [Hne Hn]].
  exfalso. eapply H; eauto.
Qed.

(** An invalid connection that the loop visits ends the loading with an
    error. *)
Lemma applyAll_rejects (order : list string)
    (conns : gmap string ConnectionConfig) (name : string)
    (conn : ConnectionConfig) :
  In name order ->
  conns !! name = Some conn ->
  snd (validateAndApplyDefaults env name conn) <> None ->
  exists err, applyAll env order conns = Err err.
Proof.
  revert conns. induction order as [|n order IH]; intros conns Hin Hl Hbad.
  - destruct Hin.
  - simpl. destruct (decide (n = name)) as [->|Hne].
    + rewrite Hl.
      destruct (validateAndApplyDefaults env name conn) as [c' [e|]];
        [eauto|]. now elim Hbad.
    + destruct Hin as [Hin|Hin]; [contradiction|].
      destruct (conns !! n) as [c|] eqn:Hn; [|now apply IH].
      destruct (validateAndApplyDefaults env n c) as [c' [e|]]; [eauto|].
      apply IH; [exact Hin| |exact Hbad].
      now rewrite lookup_insert_ne.
Qed.

End ConfigFacts.

(** C10: [validateAndApplyDefaults] rejects a connection exactly when its
    host, user or database is empty after the expansion, with an error that
    names the connection, and then the loading as a whole fails; otherwise
    the port is 3306 when it was zero (absent, or written as 0) and is kept
    when it was not, and max_rows likewise with 1000.  The expansion
    replaces a value that as a whole is one [${VAR}] token by the value of
    the variable, the empty string when it is unset, and keeps every other
    value as it is. *)
Theorem validateAndApplyDefaults_spec (env : gmap string string)
    (name : string) (conn : ConnectionConfig) :
  let host := expandEnvVar env (Host conn) in
  let user := expandEnvVar env (User conn) in
  let database := expandEnvVar env (Database conn) in
  let out := validateAndApplyDefaults env name conn in
  (* rejection *)
  ((host = "" \/ user = "" \/ database = "") <->
   exists err, snd out = Some err /\ namesConnection err name) /\
  ((host = "" \/ user = "" \/ database = "") ->
   forall order cfg,
     In name order -> Connections cfg !! name = Some conn ->
     exists err, LoadConfig env order cfg = Err err) /\
  (* defaults *)
  (host <> "" -> user <> "" -> database <> "" ->
   snd out = None /\
   Host (fst out) = host /\ User (fst out) = user /\
   Database (fst out) = database /\
   Password (fst out) = expandEnvVar env (Password conn) /\
   ReadOnly (fst out) = ReadOnly conn /\
   Port (fst out) = (if (Port conn =? 0)%Z then 3306%Z else Port conn) /\
   MaxRows (fst out) =
     (if (MaxRows conn =? 0)%Z then 1000%Z else MaxRows conn)) /\
  (* expansion *)
  (forall var,
     var <> "" -> noBrace var = true ->
     expandEnvVar env (cat "${" (cat var "}")) = default "" (env !! var) /\
     (env !! var = None -> expandEnvVar env (cat "${" (cat var "}")) = "")) /\
  (forall value,
     (forall var, value = cat "${" (cat var "}") ->
                  var <> "" -> noBrace var = true -> False) ->
     expandEnvVar env value = value).
Proof.
  intros host user database out.
  assert (forall s, s = "" \/ s <> "") as Hdec
    by (intros [|]; [left; reflexivity|right; discriminate]).
  assert (Hout : out = validateAndApplyDefaults env name conn) by reflexivity.
  unfold validateAndApplyDefaults in Hout. cbn [Host User Database] in Hout.
  fold host user database in Hout.
  assert (Hrej : (host = "" \/ user = "" \/ database = "") <->
                 exists err, snd out = Some err /\ namesConnection err name).
  { destruct host as [|h0 host']; simpl in Hout.
    { rewrite Hout. split; [|auto]. intros _. eexists. split; [reflexivity|].
      exists ": host is required". unfold Error, cats, fold_right.
      now rewrite cat_empty_r. }
    destruct user as [|u0 user']; simpl in Hout.
    { rewrite Hout. split; [|auto]. intros _. eexists. split; [reflexivity|].
      exists ": user is required". unfold Error, cats, fold_right.
      now rewrite cat_empty_r. }
    destruct database as [|d0 database']; simpl in Hout.
    { rewrite Hout. split; [|auto]. intros _. eexists. split; [reflexivity|].
      exists ": database is required". unfold Error, cats, fold_right.
      now rewrite cat_empty_r. }
    rewrite Hout. simpl. split.
    - intros [H|[H|H]]; discriminate H.
    - intros [err [H _]]. discriminate H. }
  split; [exact Hrej|].
  split.
  { intros Hbad order cfg Hin Hl. apply Hrej in Hbad as [err [Herr _]].
    unfold LoadConfig.
    destruct (applyAll_rejects env order (Connections cfg) name conn Hin Hl)
      as [e ->]; [|eauto].
    fold out. rewrite Herr. discriminate. }
  split.
  { intros Hh Hu Hd.
    destruct host as [|h0 host']; [contradiction|].
    destruct user as [|u0 user']; [contradiction|].
    destruct database as [|d0 database']; [contradiction|].
    simpl in Hout. rewrite Hout. simpl. repeat split. }
  split.
  { intros var Hne Hn. rewrite (expandEnvVar_token env var Hne Hn).
    unfold Getenv. split; [reflexivity|]. now intros ->. }
  apply expandEnvVar_literal.
Qed.

Lemma validateAndApplyDefaults_spec_witness :
  snd (validateAndApplyDefaults ∅ "main"
         {| Host := "${DB_HOST}"; Port := 0; User := "root"; Password := "";
            Database := "shop"; ReadOnly := false; MaxRows := 0 |}) <> None /\
  Port (fst (validateAndApplyDefaults ∅ "main"
         {| Host := "db.local"; Port := 0; User := "root"; Password := "";
            Database := "shop"; ReadOnly := false; MaxRows := 0 |})) = 3306%Z.
Proof.
  split.
  - pose proof (proj1 (proj1 (validateAndApplyDefaults_spec ∅ "main"
         {| Host := "${DB_HOST}"; Port := 0; User := "root"; Password := "";
            Database := "shop"; ReadOnly := false; MaxRows := 0 |}))) as H.
    destruct H as [err [-> _]]; [left; reflexivity|discriminate].
  - apply (proj1 (proj2 (proj2 (validateAndApplyDefaults_spec ∅ "main"
         {| Host := "db.local"; Port := 0; User := "root"; Password := "";
            Database := "shop"; ReadOnly := false; MaxRows := 0 |}))));
      discriminate.
Defined.

(** ** The connection manager *)

Section ManagerFacts.

Context {W : Type}.
Variable drv : Driver W.
Variable cfg : Config.

Lemma bind_run {A B} (c : M W A) (k : A -> M W B) (m : Manager W) :
  (c ≫= k) m = let (a, m') := c m in k a m'.
Proof. reflexivity. Qed.

Lemma perform_run {A} (c : call) (f : W -> A * W) (m : Manager W) :
  perform c f m =
  (fst (f (world m)),
   {| world := snd (f (world m)); connections := connections m;
      trace := trace m ++ [c] |}).
Proof. unfold perform. now destruct (f (world m)). Qed.

(** After a successful [GetConnection] each mode goes on with the handle,
    the policy and the manager that it returned. *)
Lemma ExecuteQuery_resolved name sql m db c m1 :
  GetConnection drv cfg name m = (Ok (db, c), m1) ->
  ExecuteQuery drv cfg name sql m = queryWith drv name sql db c m1.
Proof. intros H. unfold ExecuteQuery. now rewrite bind_run, H. Qed.

Lemma ExecuteAlter_resolved name sql m db c m1 :
  GetConnection drv cfg name m = (Ok (db, c), m1) ->
  ExecuteAlter drv cfg name sql m = alterWith drv name sql db c m1.
Proof. intros H. unfold ExecuteAlter. now rewrite bind_run, H. Qed.

Lemma ExecuteUnsafe_resolved name sql m db c m1 :
  GetConnection drv cfg name m = (Ok (db, c), m1) ->
  ExecuteUnsafe drv cfg name sql m = unsafeWith drv name sql db c m1.
Proof. intros H. unfold ExecuteUnsafe. now rewrite bind_run, H. Qed.

(** What [collectRows] can fail with. *)
Lemma scanLoop_error maxRows columns rest acc rowCount e :
  scanLoop maxRows columns rest acc rowCount = Err e ->
  exists cause, e = ErrScan cause.
Proof.
  revert acc rowCount. induction rest as [|r rest IH]; intros acc k; simpl.
  - discriminate.
  - destruct (k >=? maxRows)%Z; [discriminate|].
    destruct (scanRow columns r) as [values|cause].
    + apply IH.
    + intros [= <-]. eauto.
Qed.

Lemma collectRows_error maxRows rows e :
  collectRows maxRows rows = Err e ->
  exists cause, e = ErrColumns cause \/ e = ErrScan cause.
Proof.
  unfold collectRows. destruct (rowsColumns rows) as [columns|cause].
  - destruct (scanLoop _ _ _ _ _) as [[collected k]|e'] eqn:Hs;
      [discriminate|].
    intros [= <-]. apply scanLoop_error in Hs as [cause ->]. eauto.
  - intros [= <-]. eauto.
Qed.

End ManagerFacts.

Lemma HasPrefix_shorter (q p r : string) :
  HasPrefix q (cat p r) = true -> HasPrefix q p = true.
Proof.
  intros H. apply HasPrefix_split in H as [rest ->].
  rewrite cat_assoc. apply HasPrefix_cat.
Qed.

(** A statement that [DetectQueryType] tags as read-only passes the text
    predicate of [ExecuteQuery] too. *)
Lemma IsReadOnlyQueryType_isReadOnlyQuery (query : string) :
  IsReadOnlyQueryType (DetectQueryType query) = true ->
  isReadOnlyQuery query = true.
Proof.
  unfold DetectQueryType, isReadOnlyQuery, anyPrefix, prefixMap.
  set (q := TrimSpace (ToUpper query)). cbn [firstPrefix existsb].
  pose proof (HasPrefix_shorter q "DESC" " ") as Hdesc.
  change (cat "DESC" " ") with "DESC " in Hdesc.
  destruct (HasPrefix q "SELECT"); [reflexivity|].
  destruct (HasPrefix q "INSERT"); [discriminate|].
  destruct (HasPrefix q "UPDATE"); [discriminate|].
  destruct (HasPrefix q "DELETE"); [discriminate|].
  destruct (HasPrefix q "ALTER"); [discriminate|].
  destruct (HasPrefix q "SHOW"); [reflexivity|].
  destruct (HasPrefix q "DESCRIBE"); [reflexivity|].
  destruct (HasPrefix q "DESC ");
    [intros _; rewrite (Hdesc eq_refl); reflexivity|].
  destruct (HasPrefix q "EXPLAIN");
    [intros _; destruct (HasPrefix q "DESC"); reflexivity|].
  destruct (HasPrefix q "DROP"); [discriminate|].
  destruct (HasPrefix q "TRUNCATE"); [discriminate|].
  destruct (HasPrefix q "CREATE"); [discriminate|].
  destruct (HasPrefix q "GRANT"); [discriminate|].
  destruct (HasPrefix q "REVOKE"); [discriminate|].
  destruct (HasPrefix q "SET"); [discriminate|].
  destruct (HasPrefix q "USE"); discriminate.
Qed.

(** C2, as the code has it: after a successful [GetConnection],
    [ExecuteQuery] fails with the read-only error exactly when the
    connection is read-only and the text predicate [isReadOnlyQuery] rejects
    the statement (the upper-cased, trimmed text begins with none of SELECT,
    SHOW, DESCRIBE, DESC, EXPLAIN); with the dangerous-operation error
    exactly when the connection is writable and [isDangerousQuery] holds;
    with the sensitive-access error exactly when neither of these fired and
    [isSensitiveQuery] holds.  When a gate fires the manager is left as
    [GetConnection] returned it, with no call to the driver; when none
    fires the statement is issued as a query.  The read-only error still
    implies that the detected type is not read-only. *)
Theorem ExecuteQuery_gates {W : Type} (drv : Driver W) (cfg : Config)
    (name sql : string) (m : Manager W) (db : DB) (c : ConnectionConfig)
    (m1 : Manager W) :
  GetConnection drv cfg name m = (Ok (db, c), m1) ->
  let r := ExecuteQuery drv cfg name sql m in
  let readOnlyGate := ReadOnly c = true /\ isReadOnlyQuery sql = false in
  let dangerousGate := ReadOnly c = false /\ isDangerousQuery sql = true in
  let sensitiveGate :=
    ~ readOnlyGate /\ ~ dangerousGate /\ isSensitiveQuery sql = true in
  (fst r = Err (ErrReadOnly name) <-> readOnlyGate) /\
  (fst r = Err ErrDangerousQuery <-> dangerousGate) /\
  (fst r = Err ErrSensitive <-> sensitiveGate) /\
  (readOnlyGate \/ dangerousGate \/ sensitiveGate -> snd r = m1) /\
  (~ (readOnlyGate \/ dangerousGate \/ sensitiveGate) ->
   trace (snd r) = (trace m1 ++ [CallQuery db sql])%list) /\
  (isReadOnlyQuery sql = true <->
   exists kw rest,
     In kw ["SELECT"; "SHOW"; "DESCRIBE"; "DESC"; "EXPLAIN"] /\
     TrimSpace (ToUpper sql) = cat kw rest) /\
  (fst r = Err (ErrReadOnly name) ->
   IsReadOnlyQueryType (DetectQueryType sql) = false).
Proof.
  intros Hget r readOnlyGate dangerousGate sensitiveGate.
  assert (Hr : r = queryWith drv name sql db c m1)
    by (apply ExecuteQuery_resolved; exact Hget).
  assert (Hty : isReadOnlyQuery sql = false ->
                IsReadOnlyQueryType (DetectQueryType sql) = false).
  { intros Hq. destruct (IsReadOnlyQueryType _) eqn:Ht; [|reflexivity].
    apply IsReadOnlyQueryType_isReadOnlyQuery in Ht. congruence. }
  assert (Hpre : isReadOnlyQuery sql = true <->
                 exists kw rest,
                   In kw ["SELECT"; "SHOW"; "DESCRIBE"; "DESC"; "EXPLAIN"] /\
                   TrimSpace (ToUpper sql) = cat kw rest)
    by apply anyPrefix_iff.
  clearbody r. subst r. unfold queryWith.
  subst readOnlyGate dangerousGate sensitiveGate.
  destruct (ReadOnly c) eqn:Hro, (isReadOnlyQuery sql) eqn:Hq,
           (isDangerousQuery sql) eqn:Hd, (isSensitiveQuery sql) eqn:Hs;
    simpl;
    try (rewrite bind_run; unfold Query; rewrite perform_run;
         destruct (fst (sqlQuery drv db sql (world m1))) as [rows|cause];
         [destruct (collectRows (MaxRows c) rows) as [q|e] eqn:Hc;
          [|apply collectRows_error in Hc as [cause [-> | ->]]]|]; simpl);
    (repeat split; try tauto; try discriminate;
     try (intros [? ?]; congruence);
     try (intros H; exfalso; intuition discriminate);
     try (intros H; intuition congruence)).
Qed.

Lemma ExecuteQuery_gates_witness :
  let drv := scripted (upServer (idRows 3)) in
  let r := ExecuteQuery drv exampleConfig "replica" "UPDATE t SET x=1"
             (NewManager 0%nat) in
  fst r = Err (ErrReadOnly "replica") /\
  snd r = snd (GetConnection drv exampleConfig "replica" (NewManager 0%nat)) /\
  statements (trace (snd r)) = [].
Proof.
  intros drv r.
  assert (Hg : GetConnection drv exampleConfig "replica" (NewManager 0%nat) =
               (Ok (0%nat, exampleConnection true 1000),
                snd (GetConnection drv exampleConfig "replica"
                       (NewManager 0%nat))))
    by (vm_compute; reflexivity).
  destruct (ExecuteQuery_gates drv exampleConfig "replica" "UPDATE t SET x=1"
              _ _ _ _ Hg) as [H1 [_ [_ [H4 _]]]].
  split; [apply H1; split; reflexivity|].
  split; [apply H4; left; split; reflexivity|].
  fold r in H4. rewrite H4; [reflexivity|left; split; reflexivity].
Defined.

(** C2, counterexample to the claim as stated: on the read-only connection
    [replica] the statement [DESC`users`] is not of a read-only detected
    type (its type is UNKNOWN), and yet [ExecuteQuery] does not fail with the
    read-only error: the statement reaches the server. *)
Lemma ExecuteQuery_read_only_type_counterexample :
  let drv := scripted (upServer (idRows 3)) in
  let sql := "DESC`users`" in
  let r := ExecuteQuery drv exampleConfig "replica" sql (NewManager 0%nat) in
  fst (GetConnection drv exampleConfig "replica" (NewManager 0%nat)) =
    Ok (0%nat, exampleConnection true 1000) /\
  ReadOnly (exampleConnection true 1000) = true /\
  IsReadOnlyQueryType (DetectQueryType sql) = false /\
  fst r <> Err (ErrReadOnly "replica") /\
  isOk (fst r) = true /\
  statements (trace (snd r)) = [CallQuery 0%nat sql].
Proof.
  cbv zeta. repeat split; try reflexivity.
  intros H. vm_compute in H. discriminate H.
Qed.

Lemma skippedCheckMsg_cases (query : string) :
  skippedCheckMsg query =
  match isDangerousQuery query, isSensitiveQuery query with
  | true, true => "dangerous query blocking, sensitive query blocking"
  | true, false => "dangerous query blocking"
  | false, true => "sensitive query blocking"
  | false, false => "none"
  end.
Proof.
  unfold skippedCheckMsg, skippedChecks.
  destruct (isDangerousQuery query), (isSensitiveQuery query); reflexivity.
Qed.

(** The query branch of [ExecuteUnsafe], by cases on what the driver and
    the cursor return. *)
Ltac unsafe_query_branch :=
  rewrite bind_run; unfold Query; rewrite perform_run;
  match goal with
  | |- context [fst (sqlQuery ?d ?db ?sql ?w)] =>
      destruct (fst (sqlQuery d db sql w)) as [rows|cause]
  end; simpl;
  [ match goal with
    | |- context [collectRows ?k ?rs] =>
        let Hc := fresh "Hc" in
        destruct (collectRows k rs) as [q|e] eqn:Hc; simpl;
        [ split; [reflexivity|]; split; [discriminate|];
          split; [reflexivity|]; intros u [= <-]; simpl;
          split; [reflexivity|]; split; [reflexivity|]; left; eauto
        | split; [reflexivity|];
          split; [intros e' [= <-];
                  apply collectRows_error in Hc as [cause [->| ->]]; eauto|];
          split; [reflexivity|]; discriminate ]
    end
  | split; [reflexivity|]; split; [intros e [= <-]; eauto|];
    split; [reflexivity|]; discriminate ].

(** C1: after a successful [GetConnection], [ExecuteUnsafe] on a read-only
    connection with a statement whose detected type is not read-only fails
    with the read-only error and leaves the manager as [GetConnection]
    returned it: nothing is sent to the server.  In every other case the
    statement is sent (as a query when the detected type is read-only, as an
    exec otherwise); the call fails only when the driver fails (execution,
    columns or scan), never on account of the dangerous or the sensitive
    check, which are reported in [SkippedCheck] (["none"] when neither
    applies); and on success exactly one of the two result fields is set,
    the query result exactly when the detected type is read-only. *)
Theorem ExecuteUnsafe_spec {W : Type} (drv : Driver W) (cfg : Config)
    (name sql : string) (m : Manager W) (db : DB) (c : ConnectionConfig)
    (m1 : Manager W) :
  GetConnection drv cfg name m = (Ok (db, c), m1) ->
  let r := ExecuteUnsafe drv cfg name sql m in
  let readOnlyType := IsReadOnlyQueryType (DetectQueryType sql) in
  (ReadOnly c = true /\ readOnlyType = false ->
   r = (Err (ErrReadOnlyUnsafe name), m1)) /\
  (~ (ReadOnly c = true /\ readOnlyType = false) ->
   trace (snd r) =
     (trace m1 ++ [if readOnlyType then CallQuery db sql
                   else CallExec db sql])%list /\
   (forall e, fst r = Err e ->
      exists cause,
        e = ErrExecution cause \/ e = ErrColumns cause \/ e = ErrScan cause) /\
   isOk (fst r) =
     (if readOnlyType
      then match fst (sqlQuery drv db sql (world m1)) with
           | Ok rows => isOk (collectRows (MaxRows c) rows)
           | Err _ => false
           end
      else isOk (fst (sqlExec drv db sql (world m1)))) /\
   (forall u, fst r = Ok u ->
      SkippedCheck u =
        match isDangerousQuery sql, isSensitiveQuery sql with
        | true, true => "dangerous query blocking, sensitive query blocking"
        | true, false => "dangerous query blocking"
        | false, true => "sensitive query blocking"
        | false, false => "none"
        end /\
      Warning u = unsafeWarning /\
      ((is_Some (uQueryResult u) /\ uWriteResult u = None /\
        readOnlyType = true) \/
       (uQueryResult u = None /\ is_Some (uWriteResult u) /\
        readOnlyType = false)))).
Proof.
  intros Hget r readOnlyType.
  assert (Hr : r = unsafeWith drv name sql db c m1)
    by (apply ExecuteUnsafe_resolved; exact Hget).
  clearbody r. subst r. unfold unsafeWith. fold readOnlyType.
  rewrite <- (skippedCheckMsg_cases sql).
  destruct (ReadOnly c) eqn:Hro, readOnlyType eqn:Ht; simpl.
  - (* read-only connection, read-only statement *)
    split; [intros [_ H]; discriminate H|]. intros _.
    unsafe_query_branch.
  - (* read-only connection, other statement *)
    split; [reflexivity|]. intros H. exfalso. apply H. split; reflexivity.
  - (* writable connection, read-only statement *)
    split; [intros [H _]; discriminate H|]. intros _.
    unsafe_query_branch.
  - (* writable connection, other statement *)
    split; [intros [H _]; discriminate H|]. intros _.
    rewrite bind_run. unfold Exec. rewrite perform_run.
    destruct (fst (sqlExec drv db sql (world m1))) as [x|cause]; simpl.
    + split; [reflexivity|]. split; [discriminate|].
      split; [reflexivity|]. intros u [= <-]. simpl.
      split; [reflexivity|]. split; [reflexivity|]. right. eauto.
    + split; [reflexivity|]. split; [intros e [= <-]; eauto|].
      split; [reflexivity|]. discriminate.
Qed.

Lemma ExecuteUnsafe_spec_witness :
  let drv := scripted (upServer (idRows 3)) in
  ExecuteUnsafe drv exampleConfig "replica" "DELETE FROM t" (NewManager 0%nat) =
    (Err (ErrReadOnlyUnsafe "replica"),
     snd (GetConnection drv exampleConfig "replica" (NewManager 0%nat))) /\
  exists u,
    fst (ExecuteUnsafe drv exampleConfig "primary" "DROP TABLE t"
           (NewManager 0%nat)) = Ok u /\
    SkippedCheck u = "dangerous query blocking" /\
    uQueryResult u = None /\ is_Some (uWriteResult u).
Proof.
  intros drv.
  assert (Hro : GetConnection drv exampleConfig "replica" (NewManager 0%nat) =
                (Ok (0%nat, exampleConnection true 1000),
                 snd (GetConnection drv exampleConfig "replica"
                        (NewManager 0%nat))))
    by (vm_compute; reflexivity).
  assert (Hrw : GetConnection drv exampleConfig "primary" (NewManager 0%nat) =
                (Ok (0%nat, exampleConnection false 2),
                 snd (GetConnection drv exampleConfig "primary"
                        (NewManager 0%nat))))
    by (vm_compute; reflexivity).
  split.
  - apply (ExecuteUnsafe_spec drv exampleConfig "replica" "DELETE FROM t"
             _ _ _ _ Hro).
    split; reflexivity.
  - destruct (ExecuteUnsafe_spec drv exampleConfig "primary" "DROP TABLE t"
                _ _ _ _ Hrw) as [_ H].
    destruct H as [_ [_ [Hok Hu]]];
      [intros [H _]; discriminate H|].
    destruct (fst (ExecuteUnsafe drv exampleConfig "primary" "DROP TABLE t"
                     (NewManager 0%nat))) as [u|e]; [|discriminate Hok].
    exists u. destruct (Hu u eq_refl) as [Hs [_ [[_ [_ H]]|[Hq [Hw _]]]]];
      [discriminate H|].
    split; [reflexivity|]. split; [exact Hs|]. split; assumption.
Defined.

(** ** Reading the rows of a cursor *)

Section RowCap.

Variable maxRows : Z.
Variable columns : list string.

(** A loop that ends normally has read the rows one by one, in order, up to
    the cap and no further. *)
Lemma scanLoop_ok (rest : list (res string (list value)))
    (acc : list (gmap string value)) (rowCount : Z)
    (collected : list (gmap string value)) (count : Z) :
  scanLoop maxRows columns rest acc rowCount = Ok (collected, count) ->
  exists taken,
    collected = (acc ++ taken)%list /\
    count = (rowCount + Z.of_nat (length taken))%Z /\
    length taken = Nat.min (length rest) (Z.to_nat (maxRows - rowCount)) /\
    Forall2 (scanned columns) (firstn (length taken) rest) taken.
Proof.
  revert acc rowCount.
  induction rest as [|r rest IH]; intros acc k; cbn [scanLoop].
  - intros [= <- <-]. exists [].
    split; [now rewrite app_nil_r|]. split; [simpl; lia|].
    split; [reflexivity|constructor].
  - destruct (Z.geb_spec k maxRows) as [Hge|Hlt].
    + intros [= <- <-]. exists [].
      split; [now rewrite app_nil_r|]. split; [simpl; lia|].
      split; [cbn [length]; lia|constructor].
    + destruct (scanRow columns r) as [values|cause] eqn:Hscan;
        [|discriminate].
      intros H. apply IH in H as [taken [-> [-> [Hlen Hall]]]].
      exists (buildRow columns values :: taken).
      split; [now rewrite <- app_assoc|]. split; [cbn [length]; lia|].
      split; [cbn [length]; lia|].
      simpl. constructor; [|exact Hall]. exists values. auto.
Qed.

(** The loop does not look beyond the cap: the rows after it can be
    anything. *)
Lemma scanLoop_firstn (rest : list (res string (list value)))
    (acc : list (gmap string value)) (rowCount : Z) :
  scanLoop maxRows columns rest acc rowCount =
  scanLoop maxRows columns (firstn (Z.to_nat (maxRows - rowCount)) rest)
           acc rowCount.
Proof.
  revert acc rowCount.
  induction rest as [|r rest IH]; intros acc k.
  - now rewrite firstn_nil.
  - simpl. destruct (Z.geb_spec k maxRows) as [Hge|Hlt].
    + replace (Z.to_nat (maxRows - k)) with 0%nat by lia. reflexivity.
    + replace (Z.to_nat (maxRows - k))
        with (S (Z.to_nat (maxRows - (k + 1)))) by lia.
      simpl. destruct (Z.geb_spec k maxRows) as [Hge|_]; [lia|].
      destruct (scanRow columns r); [apply IH|reflexivity].
Qed.

(** The loop ends normally when the rows up to the cap can be scanned. *)
Lemma scanLoop_total (rest : list (res string (list value)))
    (acc : list (gmap string value)) (rowCount : Z) :
  Forall (fun src => isOk (scanRow columns src) = true)
         (firstn (Z.to_nat (maxRows - rowCount)) rest) ->
  isOk (scanLoop maxRows columns rest acc rowCount) = true.
Proof.
  revert acc rowCount.
  induction rest as [|r rest IH]; intros acc k; simpl; [reflexivity|].
  destruct (Z.geb_spec k maxRows) as [Hge|Hlt]; [reflexivity|].
  replace (Z.to_nat (maxRows - k))
    with (S (Z.to_nat (maxRows - (k + 1)))) by lia.
  simpl. intros H. inversion H as [|? ? Hr Hrest]; subst.
  destruct (scanRow columns r); [|discriminate Hr]. now apply IH.
Qed.

End RowCap.

(** [collectRows] reads the columns and at most [maxRows] rows. *)
Lemma collectRows_firstn (maxRows : Z) (rows : sqlRows) :
  collectRows maxRows rows =
  collectRows maxRows
    {| rowsColumns := rowsColumns rows;
       rowsNext := firstn (Z.to_nat maxRows) (rowsNext rows);
       rowsErr := rowsErr rows |}.
Proof.
  unfold collectRows. cbn [rowsColumns rowsNext].
  destruct (rowsColumns rows) as [columns|cause]; [|reflexivity].
  rewrite (scanLoop_firstn maxRows columns (rowsNext rows)).
  now replace (maxRows - 0)%Z with maxRows by lia.
Qed.

Lemma collectRows_ok (maxRows : Z) (rows : sqlRows) (q : QueryResult) :
  collectRows maxRows rows = Ok q ->
  let k := Nat.min (length (rowsNext rows)) (Z.to_nat maxRows) in
  rowsColumns rows = Ok (Columns q) /\
  length (Rows q) = k /\
  Count q = Z.of_nat (length (Rows q)) /\
  Forall2 (scanned (Columns q)) (firstn k (rowsNext rows)) (Rows q).
Proof.
  unfold collectRows.
  destruct (rowsColumns rows) as [columns|cause]; [|discriminate].
  destruct (scanLoop maxRows columns (rowsNext rows) [] 0)
    as [[collected count]|e] eqn:Hloop; [|discriminate].
  intros [= <-]. cbn [Columns Rows Count].
  apply scanLoop_ok in Hloop as [taken [-> [-> [Hlen Hall]]]].
  replace (maxRows - 0)%Z with maxRows in Hlen by lia.
  cbn [app]. rewrite <- Hlen.
  split; [reflexivity|]. split; [reflexivity|]. split; [lia|exact Hall].
Qed.

(** C3: [ExecuteQuery] does not report a cursor that breaks.  On the
    writable connection [primary], whose [max_rows] is 2, and a result set of
    10 rows whose cursor breaks after the first row, the call succeeds with
    one row and [Count = 1], where [min 10 2 = 2] rows are due, and the error
    that [rows.Err()] holds is dropped.  The same result set on a cursor
    whose second row cannot be scanned is answered with the error of the scan:
    the errors of [Query], [Columns] and [Scan] are returned, the error behind
    a false [Next] is the one that the code misses. *)
Theorem ExecuteQuery_drops_cursor_error :
  let rows := brokenAfter 1 "invalid connection" (idRows 10) in
  let unscanned :=
    {| rowsColumns := rowsColumns (idRows 10);
       rowsNext := (firstn 1 (rowsNext (idRows 10)) ++
                    [Err "invalid connection"])%list;
       rowsErr := None |} in
  let run cursor :=
    fst (ExecuteQuery (scripted (upServer cursor)) exampleConfig "primary"
           "SELECT id FROM t" (NewManager 0%nat)) in
  Connections exampleConfig !! "primary" = Some (exampleConnection false 2) /\
  MaxRows (exampleConnection false 2) = 2%Z /\
  length (rowsNext (idRows 10)) = 10%nat /\
  rowsErr rows = Some "invalid connection" /\
  (exists q,
     run rows = Ok q /\
     Rows q = [{["id" := VString "1"]}] /\ Count q = 1%Z /\
     length (Rows q) <> Nat.min 10 2) /\
  run unscanned = Err (ErrScan "invalid connection").
Proof.
  cbv zeta.
  split; [vm_compute; reflexivity|].
  split; [reflexivity|].
  split; [reflexivity|].
  split; [reflexivity|].
  split; [|vm_compute; reflexivity].
  eexists. split; [vm_compute; reflexivity|].
  split; [vm_compute; reflexivity|].
  split; [reflexivity|].
  cbn [Rows length]. discriminate.
Qed.

(** ** Resolving a connection *)

Section Resolve.

Context {W : Type}.
Variable drv : Driver W.
Variable cfg : Config.
Variable name : string.

Lemma openConnection_failed (c : ConnectionConfig) (m : Manager W)
    (db : DB) (w1 w2 : W) (cause : string) :
  sqlOpen drv (DSN c) (world m) = (Ok db, w1) ->
  sqlPing drv db w1 = (Some cause, w2) ->
  openConnection drv name c m =
  (Err (ErrConnectFailed name cause),
   {| world := sqlClose drv db w2; connections := connections m;
      trace := (trace m ++ failedOpen c db)%list |}).
Proof.
  intros Hopen Hping. unfold openConnection.
  rewrite bind_run. unfold Open. rewrite perform_run, Hopen.
  cbn [fst snd]. rewrite !bind_run.
  unfold SetMaxOpenConns, SetMaxIdleConns, Ping, Close.
  rewrite !perform_run. cbn [fst snd world connections trace].
  rewrite bind_run, perform_run. cbn [fst snd world connections trace].
  rewrite bind_run, perform_run. cbn [fst snd world connections trace].
  rewrite Hping. cbn [fst snd]. rewrite bind_run, perform_run.
  cbn [fst snd world connections trace].
  unfold failedOpen. now rewrite <- !app_assoc.
Qed.

Lemma openConnection_error (c : ConnectionConfig) (m : Manager W) :
  failureKeepsPool name c m (openConnection drv name c m).
Proof.
  destruct (sqlOpen drv (DSN c) (world m)) as [[db|e] w1] eqn:Hopen.
  - destruct (sqlPing drv db w1) as [[cause|] w2] eqn:Hping.
    + rewrite (openConnection_failed c m db w1 w2 cause Hopen Hping).
      split; [reflexivity|]. intros cause' _. exists db, (trace m).
      reflexivity.
    + unfold openConnection.
      rewrite bind_run. unfold Open. rewrite perform_run, Hopen.
      cbn [fst snd]. rewrite !bind_run.
      unfold SetMaxOpenConns, SetMaxIdleConns, Ping.
      rewrite !perform_run. cbn [fst snd world connections trace].
      rewrite bind_run, perform_run. cbn [fst snd world connections trace].
      rewrite bind_run, perform_run. cbn [fst snd world connections trace].
      rewrite Hping. cbn [fst snd]. split; discriminate.
  - unfold openConnection.
    rewrite bind_run. unfold Open. rewrite perform_run, Hopen.
    cbn [fst snd]. split; [reflexivity|discriminate].
Qed.

(** A dead handle is closed and a new one is opened from a manager with
    the same pool. *)
Lemma failureKeepsPool_after (c : ConnectionConfig) (m m' : Manager W)
    (r : res error (DB * ConnectionConfig) * Manager W) :
  connections m' = connections m ->
  failureKeepsPool name c m' r -> failureKeepsPool name c m r.
Proof. intros Hm [H1 H2]. split; [now rewrite <- Hm|exact H2]. Qed.

Lemma reconnect_error (c : ConnectionConfig) (m : Manager W) :
  failureKeepsPool name c m (reconnect drv name c m).
Proof.
  unfold reconnect, lookupConnection. rewrite bind_run.
  destruct (connections m !! name) as [db|];
    [|apply openConnection_error].
  rewrite bind_run. unfold Ping. rewrite perform_run.
  destruct (fst (sqlPing drv db (world m))) as [cause|].
  - rewrite bind_run. unfold Close. rewrite perform_run. cbn [fst snd].
    eapply failureKeepsPool_after; [|apply openConnection_error].
    reflexivity.
  - split; discriminate.
Qed.

Lemma GetConnection_error (c : ConnectionConfig) (m : Manager W) :
  Connections cfg !! name = Some c ->
  failureKeepsPool name c m (GetConnection drv cfg name m).
Proof.
  intros Hc. unfold GetConnection, lookupConnection. rewrite Hc, bind_run.
  destruct (connections m !! name) as [db|];
    [|apply reconnect_error].
  rewrite bind_run. unfold Ping. rewrite perform_run.
  destruct (fst (sqlPing drv db (world m))) as [cause|].
  - rewrite bind_run. unfold Close. rewrite perform_run. cbn [fst snd].
    eapply failureKeepsPool_after; [|apply reconnect_error].
    reflexivity.
  - split; discriminate.
Qed.

Lemma GetConnection_fresh (c : ConnectionConfig) (m : Manager W) :
  Connections cfg !! name = Some c ->
  connections m !! name = None ->
  GetConnection drv cfg name m = openConnection drv name c m.
Proof.
  intros Hc Hm. unfold GetConnection, lookupConnection.
  rewrite Hc, bind_run. cbv beta. rewrite Hm.
  unfold reconnect, lookupConnection. rewrite bind_run. cbv beta.
  now rewrite Hm.
Qed.

End Resolve.




(** ** The ALTER mode *)

Lemma Contains_unfold (s substr : string) :
  Contains s substr =
  HasPrefix s substr ||
  match s with
  | EmptyString => false
  | String _ s' => Contains s' substr
  end.
Proof. destruct s; reflexivity. Qed.

(** [strings.Contains] finds exactly the substrings. *)
Lemma Contains_iff (s substr : string) :
  Contains s substr = true <-> exists a b, s = cat a (cat substr b).
Proof.
  split.
  - induction s as [|c s IH]; rewrite Contains_unfold; intros H;
      apply orb_true_iff in H as [H|H].
    + apply HasPrefix_split in H as [b ->]. now exists "", b.
    + discriminate H.
    + apply HasPrefix_split in H as [b ->]. now exists "", b.
    + destruct (IH H) as [a [b ->]]. now exists (String c a), b.
  - intros [a [b ->]]. induction a as [|c a IH]; rewrite Contains_unfold.
    + simpl. now rewrite HasPrefix_cat.
    + simpl. rewrite IH. apply orb_true_r.
Qed.

Lemma firstBlocked_Some (q pattern : string) :
  firstBlocked q = Some pattern ->
  In pattern blockedPatterns /\ Contains q pattern = true.
Proof. unfold firstBlocked. apply find_some. Qed.

Lemma firstBlocked_None (q pattern : string) :
  firstBlocked q = None ->
  In pattern blockedPatterns -> Contains q pattern = false.
Proof. unfold firstBlocked. intros H. now apply find_none. Qed.

(** C4: after a successful [GetConnection] of a writable connection,
    [ExecuteAlter] fails with the type-mismatch error (expected ALTER)
    unless the detected type is ALTER; and a statement of type ALTER whose
    trimmed, upper-cased text contains DROP DATABASE, DROP SCHEMA, TRUNCATE,
    CREATE DATABASE, GRANT or REVOKE anywhere fails with the
    dangerous-operation error that names such a pattern.  Both failures leave
    the manager as [GetConnection] returned it.  A statement of type ALTER
    that contains no listed pattern and is not sensitive is passed to the
    driver. *)
Theorem ExecuteAlter_gates {W : Type} (drv : Driver W) (cfg : Config)
    (name sql : string) (m : Manager W) (db : DB) (c : ConnectionConfig)
    (m1 : Manager W) :
  GetConnection drv cfg name m = (Ok (db, c), m1) ->
  ReadOnly c = false ->
  let r := ExecuteAlter drv cfg name sql m in
  let q := ToUpper (TrimSpace sql) in
  (DetectQueryType sql <> QueryTypeAlter ->
   r = (Err (ErrTypeMismatch "ALTER"
               (GetQueryTypeLabel (DetectQueryType sql))), m1)) /\
  (DetectQueryType sql = QueryTypeAlter ->
   (forall expected got, fst r <> Err (ErrTypeMismatch expected got)) /\
   (forall pattern a b,
      In pattern ["DROP DATABASE"; "DROP SCHEMA"; "TRUNCATE";
                  "CREATE DATABASE"; "GRANT"; "REVOKE"] ->
      q = cat a (cat pattern b) ->
      exists blocked,
        In blocked blockedPatterns /\ Contains q blocked = true /\
        r = (Err (ErrBlockedPattern blocked), m1)) /\
   ((forall pattern, In pattern blockedPatterns ->
                     Contains q pattern = false) ->
    isSensitiveQuery sql = false ->
    trace (snd r) = (trace m1 ++ [CallExec db sql])%list /\
    isOk (fst r) = isOk (fst (sqlExec drv db sql (world m1))))).
Proof.
  intros Hget Hrw r q.
  assert (Hr : r = alterWith drv name sql db c m1)
    by (apply ExecuteAlter_resolved; exact Hget).
  clearbody r. subst r. unfold alterWith, ValidateQueryType.
  cbn [existsb map Join]. rewrite orb_false_r, Hrw. fold q.
  destruct (QueryType_eqb (DetectQueryType sql) QueryTypeAlter) eqn:Heq.
  - apply QueryType_eqb_eq in Heq. split; [intros H; now elim H|].
    intros _.
    destruct (firstBlocked q) as [blocked|] eqn:Hb.
    + apply firstBlocked_Some in Hb as [Hin Hc].
      split; [discriminate|]. split; [eauto|].
      intros Hnone. rewrite (Hnone blocked Hin) in Hc. discriminate Hc.
    + split.
      { destruct (isSensitiveQuery sql); [discriminate|].
        rewrite bind_run. unfold Exec. rewrite perform_run.
        destruct (fst (sqlExec drv db sql (world m1))); discriminate. }
      split.
      { intros pattern a b Hin Hq. exfalso.
        assert (Contains q pattern = true) as Hc
          by (apply Contains_iff; eauto).
        rewrite (firstBlocked_None q pattern Hb Hin) in Hc. discriminate Hc. }
      intros _ ->. rewrite bind_run. unfold Exec. rewrite perform_run.
      destruct (fst (sqlExec drv db sql (world m1))); split; reflexivity.
  - split; [reflexivity|]. intros Hd. rewrite Hd in Heq. discriminate Heq.
Qed.

Lemma ExecuteAlter_gates_witness :
  let drv := scripted (upServer (idRows 3)) in
  let m1 := snd (GetConnection drv exampleConfig "primary" (NewManager 0%nat)) in
  ExecuteAlter drv exampleConfig "primary" "ALTER TABLE t; DROP DATABASE prod"
    (NewManager 0%nat) = (Err (ErrBlockedPattern "DROP DATABASE"), m1) /\
  trace (snd (ExecuteAlter drv exampleConfig "primary"
                "ALTER TABLE t ADD COLUMN y INT" (NewManager 0%nat))) =
    (trace m1 ++ [CallExec 0%nat "ALTER TABLE t ADD COLUMN y INT"])%list /\
  isOk (fst (ExecuteAlter drv exampleConfig "primary"
               "ALTER TABLE t ADD COLUMN y INT" (NewManager 0%nat))) = true.
Proof.
  intros drv m1.
  assert (Hg : GetConnection drv exampleConfig "primary" (NewManager 0%nat) =
               (Ok (0%nat, exampleConnection false 2), m1))
    by (vm_compute; reflexivity).
  split.
  - destruct (ExecuteAlter_gates drv exampleConfig "primary"
                "ALTER TABLE t; DROP DATABASE prod" _ _ _ _ Hg eq_refl)
      as [_ H].
    destruct (H eq_refl) as [_ [Hblocked _]].
    destruct (Hblocked "DROP DATABASE" "ALTER TABLE T; " " PROD")
      as [blocked [Hin [Hc ->]]]; [simpl; tauto|reflexivity|].
    simpl in Hin.
    destruct Hin as [<-|[<-|[<-|[<-|[<-|[<-|[]]]]]]];
      first [reflexivity | vm_compute in Hc; discriminate Hc].
  - destruct (ExecuteAlter_gates drv exampleConfig "primary"
                "ALTER TABLE t ADD COLUMN y INT" _ _ _ _ Hg eq_refl)
      as [_ H].
    destruct (H eq_refl) as [_ [_ Hpass]].
    apply Hpass; [|reflexivity].
    intros pattern Hin. simpl in Hin.
    destruct Hin as [<-|[<-|[<-|[<-|[<-|[<-|[]]]]]]]; reflexivity.
Defined.

(** ** The write mode *)

(** The dangerous gate of [ExecuteWrite] is the type predicate: on a
    writable connection a statement that passes the type validation is
    refused as dangerous exactly when its detected type is DROP, TRUNCATE,
    CREATE, GRANT or REVOKE.  ALTER is not refused by this gate. *)
Lemma ExecuteWrite_dangerous_gate {W : Type} (drv : Driver W) (cfg : Config)
    (name sql : string) (allowedTypes : list QueryType) (m : Manager W)
    (db : DB) (c : ConnectionConfig) (m1 : Manager W) :
  GetConnection drv cfg name m = (Ok (db, c), m1) ->
  ReadOnly c = false ->
  allowedTypes = [] \/ In (DetectQueryType sql) allowedTypes ->
  fst (ExecuteWrite drv cfg name sql allowedTypes m) = Err ErrDangerousWrite <->
  IsDangerousQueryType (DetectQueryType sql) = true.
Proof.
  intros Hget Hrw Hallowed. unfold ExecuteWrite. rewrite bind_run, Hget.
  unfold writeWith.
  assert ((if (0 <? length allowedTypes)%nat
           then ValidateQueryType sql allowedTypes else None) = None) as ->.
  { destruct Hallowed as [->|Hin]; [reflexivity|].
    destruct (0 <? length allowedTypes)%nat; [|reflexivity].
    now apply ValidateQueryType_ok. }
  rewrite Hrw.
  destruct (IsDangerousQueryType (DetectQueryType sql)); [split; reflexivity|].
  destruct (isSensitiveQuery sql); [split; discriminate|].
  rewrite bind_run. unfold Exec. rewrite perform_run.
  destruct (fst (sqlExec drv db sql (world m1))); split; discriminate.
Qed.

(** * Further properties of the code *)

(** ** The classifier as a whole *)

Lemma firstPrefix_spec (q : string) (pm : list (string * QueryType)) :
  (exists prefix, In (prefix, firstPrefix q pm) pm /\
                  HasPrefix q prefix = true) \/
  (firstPrefix q pm = QueryTypeUnknown /\
   forall prefix qt, In (prefix, qt) pm -> HasPrefix q prefix = false).
Proof.
  induction pm as [|[p t] pm IH]; cbn [firstPrefix].
  - right. split; [reflexivity|]. intros ? ? [].
  - destruct (HasPrefix q p) eqn:Hp.
    + left. exists p. split; [now left|exact Hp].
    + destruct IH as [[p' [Hin Hp']]|[Hu Hnone]].
      * left. exists p'. split; [now right|exact Hp'].
      * right. split; [exact Hu|]. intros p' t' [[= <- <-]|Hin];
          [exact Hp|eauto].
Qed.

(** No statement begins with two prefixes of the table. *)
Lemma prefixMap_exclusive (p p' rest : string) (t t' : QueryType) :
  In (p, t) prefixMap -> In (p', t') prefixMap ->
  HasPrefix (cat p rest) p' = true -> t' = t.
Proof.
  intros Hin Hin' H. simpl in Hin.
  repeat (destruct Hin as [Hin|Hin];
          [ injection Hin as <- <-; simpl in Hin';
            repeat (destruct Hin' as [Hin'|Hin'];
                    [ injection Hin' as <- <-;
                      first [ reflexivity | simpl in H; discriminate H ] | ]);
            contradiction | ]).
  contradiction.
Qed.

Lemma firstPrefix_prefixMap (q p rest : string) (t : QueryType) :
  In (p, t) prefixMap -> q = cat p rest -> firstPrefix q prefixMap = t.
Proof.
  intros Hin ->.
  destruct (firstPrefix_spec (cat p rest) prefixMap)
    as [[p' [Hin' Hp']]|[_ Hnone]].
  - exact (prefixMap_exclusive p p' rest t _ Hin Hin' Hp').
  - specialize (Hnone p t Hin). rewrite HasPrefix_cat in Hnone.
    discriminate Hnone.
Qed.

(** A trimmed statement begins with one prefix of the table or with
    none. *)
Lemma prefix_cases (q : string) :
  (exists p t rest, In (p, t) prefixMap /\ q = cat p rest) \/
  (firstPrefix q prefixMap = QueryTypeUnknown /\
   forall p t, In (p, t) prefixMap -> HasPrefix q p = false).
Proof.
  destruct (firstPrefix_spec q prefixMap) as [[p [Hin Hp]]|H]; [|now right].
  left. apply HasPrefix_split in Hp as [rest ->]. eauto.
Qed.

(** X1: [DetectQueryType] returns the tag of the one prefix of its table
    that the upper-cased, trimmed statement begins with, and UNKNOWN when it
    begins with none (the empty statement for one); as no statement begins
    with two prefixes, the order of the table has no part in the result. *)
Theorem DetectQueryType_spec (query : string) (qt : QueryType) :
  let q := TrimSpace (ToUpper query) in
  (DetectQueryType query = qt <->
   (exists prefix rest, In (prefix, qt) prefixMap /\ q = cat prefix rest) \/
   (qt = QueryTypeUnknown /\
    forall prefix t rest, In (prefix, t) prefixMap -> q <> cat prefix rest)) /\
  (forall table,
     Permutation prefixMap table -> firstPrefix q table = DetectQueryType query).
Proof.
  intros q. unfold DetectQueryType. fold q. split.
  - split.
    + intros <-. destruct (prefix_cases q) as [[p [t [rest [Hin Hq]]]]|[Hu Hn]].
      * left. exists p, rest. split; [|exact Hq].
        now rewrite (firstPrefix_prefixMap q p rest t Hin Hq).
      * right. split; [exact Hu|]. intros p t rest Hin Hq.
        specialize (Hn p t Hin). rewrite Hq, HasPrefix_cat in Hn.
        discriminate Hn.
    + intros [[p [rest [Hin Hq]]]|[-> Hn]].
      * exact (firstPrefix_prefixMap q p rest qt Hin Hq).
      * destruct (prefix_cases q) as [[p [t [rest [Hin Hq]]]]|[Hu _]];
          [|exact Hu].
        now elim (Hn p t rest Hin).
  - intros table Hperm.
    destruct (firstPrefix_spec q table) as [[p [Hin Hp]]|[Hu Hn]].
    + apply (Permutation_in _ (Permutation_sym Hperm)) in Hin.
      apply HasPrefix_split in Hp as [rest Hq]. symmetry.
      exact (firstPrefix_prefixMap q p rest _ Hin Hq).
    + rewrite Hu. symmetry.
      destruct (firstPrefix_spec q prefixMap) as [[p [Hin Hp]]|[Hu' _]];
        [|exact Hu'].
      apply (Permutation_in _ Hperm) in Hin.
      rewrite (Hn p _ Hin) in Hp. discriminate Hp.
Qed.

Lemma DetectQueryType_spec_witness :
  DetectQueryType "   " = QueryTypeUnknown /\
  firstPrefix (TrimSpace (ToUpper "use shop")) (rev prefixMap) =
    DetectQueryType "use shop".
Proof.
  split.
  - apply (proj1 (DetectQueryType_spec "   " QueryTypeUnknown)). right.
    split; [reflexivity|]. intros prefix t rest Hin Hq. simpl in Hin.
    repeat (destruct Hin as [Hin|Hin];
            [injection Hin as <- <-; discriminate Hq|]).
    contradiction.
  - apply (proj2 (DetectQueryType_spec "use shop" QueryTypeUse)).
    apply Permutation_rev.
Defined.

(** X2: every type has a label of its own, and a statement that consists
    of the label of a type is detected as that type. *)
Theorem GetQueryTypeLabel_round_trip :
  (forall qt, DetectQueryType (GetQueryTypeLabel qt) = qt) /\
  (forall a b, GetQueryTypeLabel a = GetQueryTypeLabel b -> a = b).
Proof.
  assert (forall qt, DetectQueryType (GetQueryTypeLabel qt) = qt) as H
    by (intros []; reflexivity).
  split; [exact H|].
  intros a b Hab. rewrite <- (H a), <- (H b). now rewrite Hab.
Qed.

(** A statement that the read-only text predicate accepts is not
    dangerous. *)
Lemma text_and_type_facts (sql : string) :
  (isReadOnlyQuery sql = true -> isDangerousQuery sql = false) /\
  (isDangerousQuery sql = true ->
   IsReadOnlyQueryType (DetectQueryType sql) = false).
Proof.
  unfold isDangerousQuery, isReadOnlyQuery, DetectQueryType, anyPrefix.
  cbv zeta. generalize (TrimSpace (ToUpper sql)). intros q.
  cbn [existsb].
  destruct (prefix_cases q) as [[p [t [rest [Hin ->]]]]|[Hu Hn]].
  - simpl in Hin.
    repeat (destruct Hin as [Hin|Hin];
            [injection Hin as <- <-; split; first [discriminate|reflexivity]|]).
    contradiction.
  - rewrite Hu.
    rewrite (Hn "DROP" _ ltac:(simpl; tauto)),
      (Hn "ALTER" _ ltac:(simpl; tauto)),
      (Hn "TRUNCATE" _ ltac:(simpl; tauto)),
      (Hn "CREATE" _ ltac:(simpl; tauto)),
      (Hn "GRANT" _ ltac:(simpl; tauto)),
      (Hn "REVOKE" _ ltac:(simpl; tauto)).
    split; reflexivity.
Qed.

(** X3: the text predicates of [ExecuteQuery] against the type predicates:
    [isDangerousQuery] holds exactly for a detected type that is dangerous
    or ALTER; [isReadOnlyQuery] holds exactly for a read-only detected type
    or a text that begins with DESC; and no statement is both read-only
    and dangerous, by the text or by the type. *)
Theorem text_and_type_predicates (sql : string) :
  let q := TrimSpace (ToUpper sql) in
  let qt := DetectQueryType sql in
  isDangerousQuery sql =
    IsDangerousQueryType qt || QueryType_eqb qt QueryTypeAlter /\
  isReadOnlyQuery sql = IsReadOnlyQueryType qt || HasPrefix q "DESC" /\
  (isReadOnlyQuery sql = true -> isDangerousQuery sql = false) /\
  (IsReadOnlyQueryType qt = true -> IsDangerousQueryType qt = false).
Proof.
  unfold isDangerousQuery, isReadOnlyQuery, DetectQueryType, anyPrefix.
  cbv zeta. generalize (TrimSpace (ToUpper sql)). intros q.
  cbn [existsb].
  destruct (prefix_cases q) as [[p [t [rest [Hin ->]]]]|[Hu Hn]].
  - simpl in Hin.
    repeat (destruct Hin as [Hin|Hin];
            [injection Hin as <- <-; repeat split; discriminate|]).
    contradiction.
  - rewrite Hu.
    rewrite (Hn "DROP" _ ltac:(simpl; tauto)),
      (Hn "ALTER" _ ltac:(simpl; tauto)),
      (Hn "TRUNCATE" _ ltac:(simpl; tauto)),
      (Hn "CREATE" _ ltac:(simpl; tauto)),
      (Hn "GRANT" _ ltac:(simpl; tauto)),
      (Hn "REVOKE" _ ltac:(simpl; tauto)),
      (Hn "SELECT" _ ltac:(simpl; tauto)),
      (Hn "SHOW" _ ltac:(simpl; tauto)),
      (Hn "DESCRIBE" _ ltac:(simpl; tauto)),
      (Hn "EXPLAIN" _ ltac:(simpl; tauto)).
    cbn [IsDangerousQueryType IsReadOnlyQueryType QueryType_eqb orb].
    rewrite orb_false_r. repeat split.
Qed.

Lemma text_and_type_predicates_witness :
  isDangerousQuery "select * from t" = false.
Proof.
  apply (proj1 (proj2 (proj2 (text_and_type_predicates "select * from t")))).
  reflexivity.
Defined.

(** X4: [isSensitiveQuery] holds exactly when the upper-cased statement
    contains SHOW GRANTS, MYSQL.USER, USER_PRIVILEGES, SHOW PROCESSLIST or
    SHOW FULL PROCESSLIST; so it finds a pattern in any case and at any
    place of the statement. *)
Theorem isSensitiveQuery_iff (sql : string) :
  (isSensitiveQuery sql = true <->
   exists pattern a b,
     In pattern ["SHOW GRANTS"; "MYSQL.USER"; "USER_PRIVILEGES";
                 "SHOW PROCESSLIST"; "SHOW FULL PROCESSLIST"] /\
     ToUpper sql = cat a (cat pattern b)) /\
  (forall pattern a p b,
     In pattern ["SHOW GRANTS"; "MYSQL.USER"; "USER_PRIVILEGES";
                 "SHOW PROCESSLIST"; "SHOW FULL PROCESSLIST"] ->
     ToUpper p = pattern ->
     isSensitiveQuery (cat a (cat p b)) = true).
Proof.
  assert (Hiff : forall s,
    isSensitiveQuery s = true <->
    exists pattern a b,
      In pattern ["SHOW GRANTS"; "MYSQL.USER"; "USER_PRIVILEGES";
                  "SHOW PROCESSLIST"; "SHOW FULL PROCESSLIST"] /\
      ToUpper s = cat a (cat pattern b)).
  { intros s. unfold isSensitiveQuery. cbv zeta.
    generalize (ToUpper s). intros q. split.
    - intros H.
      destruct (Contains q "SHOW GRANTS") eqn:H1.
      { apply Contains_iff in H1 as [a [b ->]].
        exists "SHOW GRANTS", a, b. simpl. tauto. }
      destruct (Contains q "MYSQL.USER") eqn:H2.
      { apply Contains_iff in H2 as [a [b ->]].
        exists "MYSQL.USER", a, b. simpl. tauto. }
      destruct (Contains q "USER_PRIVILEGES") eqn:H3.
      { apply Contains_iff in H3 as [a [b ->]].
        exists "USER_PRIVILEGES", a, b. simpl. tauto. }
      destruct (Contains q "SHOW PROCESSLIST") eqn:H4.
      { apply Contains_iff in H4 as [a [b ->]].
        exists "SHOW PROCESSLIST", a, b. simpl. tauto. }
      destruct (Contains q "SHOW FULL PROCESSLIST") eqn:H5;
        [|discriminate H].
      apply Contains_iff in H5 as [a [b ->]].
      exists "SHOW FULL PROCESSLIST", a, b. simpl. tauto.
    - intros [pattern [a [b [Hin Hq]]]].
      assert (Contains q pattern = true) as Hc
        by (apply Contains_iff; eauto).
      simpl in Hin.
      destruct (Contains q "SHOW GRANTS") eqn:H1; [reflexivity|].
      destruct (Contains q "MYSQL.USER") eqn:H2; [reflexivity|].
      destruct (Contains q "USER_PRIVILEGES") eqn:H3; [reflexivity|].
      destruct (Contains q "SHOW PROCESSLIST") eqn:H4; [reflexivity|].
      destruct (Contains q "SHOW FULL PROCESSLIST") eqn:H5; [reflexivity|].
      destruct Hin as [<-|[<-|[<-|[<-|[<-|[]]]]]]; congruence. }
  split; [apply Hiff|].
  intros pattern a p b Hin Hp. apply Hiff.
  exists pattern, (ToUpper a), (ToUpper b).
  split; [exact Hin|]. now rewrite !ToUpper_cat, Hp.
Qed.

Lemma isSensitiveQuery_iff_witness :
  isSensitiveQuery "select * from (select host from mysql.User) u" = true.
Proof.
  apply (proj2 (isSensitiveQuery_iff "")
           "MYSQL.USER" "select * from (select host from " "mysql.User"
           ") u");
    [simpl; tauto|reflexivity].
Defined.

(** ** The pool *)

Section Pool.

Context {W : Type}.
Variable drv : Driver W.
Variable cfg : Config.
Variable name : string.

Lemma openConnection_opened (c : ConnectionConfig) (m : Manager W)
    (db : DB) (w1 w2 : W) :
  sqlOpen drv (DSN c) (world m) = (Ok db, w1) ->
  sqlPing drv db w1 = (None, w2) ->
  openConnection drv name c m =
  (Ok (db, c),
   {| world := w2; connections := <[name := db]> (connections m);
      trace := (trace m ++ goodOpen c db)%list |}).
Proof.
  intros Hopen Hping. unfold openConnection.
  rewrite bind_run. unfold Open. rewrite perform_run, Hopen.
  cbn [fst snd]. rewrite !bind_run.
  unfold SetMaxOpenConns, SetMaxIdleConns, Ping.
  rewrite !perform_run. cbn [fst snd world connections trace].
  rewrite bind_run, perform_run. cbn [fst snd world connections trace].
  rewrite bind_run, perform_run. cbn [fst snd world connections trace].
  rewrite Hping. cbn [fst snd]. rewrite bind_run.
  unfold storeConnection, ret. cbn [fst snd world connections trace].
  unfold goodOpen. now rewrite <- !app_assoc.
Qed.

Lemma openConnection_open_failed (c : ConnectionConfig) (m : Manager W)
    (cause : string) (w1 : W) :
  sqlOpen drv (DSN c) (world m) = (Err cause, w1) ->
  openConnection drv name c m =
  (Err (ErrOpenFailed name cause),
   {| world := w1; connections := connections m;
      trace := (trace m ++ [CallOpen (DSN c)])%list |}).
Proof.
  intros Hopen. unfold openConnection.
  rewrite bind_run. unfold Open. now rewrite perform_run, Hopen.
Qed.

(** The three ways in which [openConnection] ends. *)
Lemma openConnection_cases (c : ConnectionConfig) (m : Manager W) :
  (exists cause w1,
     openConnection drv name c m =
     (Err (ErrOpenFailed name cause),
      {| world := w1; connections := connections m;
         trace := (trace m ++ [CallOpen (DSN c)])%list |})) \/
  (exists db cause w,
     openConnection drv name c m =
     (Err (ErrConnectFailed name cause),
      {| world := w; connections := connections m;
         trace := (trace m ++ failedOpen c db)%list |})) \/
  (exists db w,
     openConnection drv name c m =
     (Ok (db, c),
      {| world := w; connections := <[name := db]> (connections m);
         trace := (trace m ++ goodOpen c db)%list |})).
Proof.
  destruct (sqlOpen drv (DSN c) (world m)) as [[db|cause] w1] eqn:Hopen.
  - destruct (sqlPing drv db w1) as [[cause|] w2] eqn:Hping.
    + right. left. exists db, cause, (sqlClose drv db w2).
      exact (openConnection_failed drv name c m db w1 w2 cause Hopen Hping).
    + right. right. exists db, w2.
      exact (openConnection_opened c m db w1 w2 Hopen Hping).
  - left. exists cause, w1. exact (openConnection_open_failed c m cause w1 Hopen).
Qed.

Lemma openConnection_outcome (c : ConnectionConfig) (m : Manager W) :
  successStores name c m (openConnection drv name c m) /\
  (forall e, fst (openConnection drv name c m) = Err e ->
             resolutionError name e).
Proof.
  destruct (openConnection_cases c m)
    as [[cause [w ->]]|[[db [cause [w ->]]]|[db [w ->]]]];
    (split; [intros db' c' H|intros e H]); cbn [fst snd connections] in *;
    try discriminate H.
  - injection H as <-. right. eauto.
  - injection H as <-. right. eauto.
  - injection H as <- <-. auto.
Qed.

Lemma outcome_after (c : ConnectionConfig) (m m' : Manager W)
    (r : res error (DB * ConnectionConfig) * Manager W) :
  connections m' = connections m ->
  successStores name c m' r -> successStores name c m r.
Proof. intros Hm H db c' Hr. rewrite <- Hm. now apply H. Qed.

(** A pooled handle that answers the probe is returned, and a pool that
    already maps [name] to it stays as it is. *)
Lemma alive_outcome (c : ConnectionConfig) (m m' : Manager W) (db : DB) :
  connections m !! name = Some db ->
  connections m' = connections m ->
  successStores name c m (Ok (db, c), m') /\
  (forall e, fst (Ok (db, c), m') = Err e -> resolutionError name e).
Proof.
  intros Hl Hm. split; [|discriminate].
  intros db' c' [= <- <-]. split; [reflexivity|].
  cbn [snd]. rewrite Hm. symmetry. now apply insert_id.
Qed.

Lemma reconnect_outcome (c : ConnectionConfig) (m : Manager W) :
  successStores name c m (reconnect drv name c m) /\
  (forall e, fst (reconnect drv name c m) = Err e -> resolutionError name e).
Proof.
  unfold reconnect, lookupConnection. rewrite bind_run.
  destruct (connections m !! name) as [db|] eqn:Hl;
    [|apply openConnection_outcome].
  rewrite bind_run. unfold Ping. rewrite perform_run.
  destruct (fst (sqlPing drv db (world m))) as [cause|].
  - rewrite bind_run. unfold Close. rewrite perform_run. cbn [fst snd].
    match goal with
    | |- context [openConnection drv name c ?m'] =>
        destruct (openConnection_outcome c m') as [H1 H2]
    end.
    split; [|exact H2]. eapply outcome_after; [|exact H1]. reflexivity.
  - now apply alive_outcome.
Qed.

Lemma GetConnection_outcome (m : Manager W) :
  (forall e, fst (GetConnection drv cfg name m) = Err e ->
             resolutionError name e) /\
  (forall c, Connections cfg !! name = Some c ->
             successStores name c m (GetConnection drv cfg name m)) /\
  (Connections cfg !! name = None ->
   isOk (fst (GetConnection drv cfg name m)) = false).
Proof.
  unfold GetConnection.
  destruct (Connections cfg !! name) as [c|] eqn:Hc.
  2:{ split; [intros e [= <-]; now left|].
      split; [discriminate|reflexivity]. }
  assert (successStores name c m
            ((found ← lookupConnection name;
              match found with
              | Some db =>
                  err ← Ping drv db;
                  match err with
                  | Some _ => Close drv db;; reconnect drv name c
                  | None => ret (Ok (db, c))
                  end
              | None => reconnect drv name c
              end) m) /\
          (forall e,
             fst ((found ← lookupConnection name;
                   match found with
                   | Some db =>
                       err ← Ping drv db;
                       match err with
                       | Some _ => Close drv db;; reconnect drv name c
                       | None => ret (Ok (db, c))
                       end
                   | None => reconnect drv name c
                   end) m) = Err e -> resolutionError name e)) as [H1 H2].
  { unfold lookupConnection. rewrite bind_run.
    destruct (connections m !! name) as [db|] eqn:Hl;
      [|apply reconnect_outcome].
    rewrite bind_run. unfold Ping. rewrite perform_run.
    destruct (fst (sqlPing drv db (world m))) as [cause|].
    - rewrite bind_run. unfold Close. rewrite perform_run. cbn [fst snd].
      match goal with
      | |- context [reconnect drv name c ?m'] =>
          destruct (reconnect_outcome c m') as [H1 H2]
      end.
      split; [|exact H2]. eapply outcome_after; [|exact H1]. reflexivity.
    - now apply alive_outcome. }
  split; [exact H2|]. split; [|discriminate].
  intros c' [= <-]. exact H1.
Qed.

End Pool.

(** X5: a successful [GetConnection] returns the policy that the registry
    has for the name, and leaves a pool that maps the name to the handle
    returned and every other name to what it was mapped to; a failed one
    is an unknown-connection, an open or a connect error and leaves the
    pool as it was. *)
Theorem GetConnection_result {W : Type} (drv : Driver W) (cfg : Config)
    (name : string) (m : Manager W) :
  let r := GetConnection drv cfg name m in
  (forall db c,
     fst r = Ok (db, c) ->
     Connections cfg !! name = Some c /\
     connections (snd r) !! name = Some db /\
     forall other, other <> name ->
                   connections (snd r) !! other = connections m !! other) /\
  (forall e,
     fst r = Err e ->
     (e = ErrUnknownConnection name \/
      exists cause,
        e = ErrOpenFailed name cause \/ e = ErrConnectFailed name cause) /\
     connections (snd r) = connections m).
Proof.
  intros r. subst r.
  destruct (GetConnection_outcome drv cfg name m) as [Herr [Hok Hun]].
  split.
  - intros db c Hr.
    destruct (Connections cfg !! name) as [c0|] eqn:Hc.
    + destruct (Hok c0 eq_refl db c Hr) as [-> Hpool].
      split; [reflexivity|]. rewrite Hpool.
      split; [apply lookup_insert_eq|].
      intros other Hne. now apply lookup_insert_ne.
    + specialize (Hun eq_refl). rewrite Hr in Hun. discriminate Hun.
  - intros e Hr. split; [exact (Herr e Hr)|].
    destruct (Connections cfg !! name) as [c0|] eqn:Hc.
    + destruct (GetConnection_error drv cfg name c0 m Hc) as [H _]. eauto.
    + unfold GetConnection. now rewrite Hc.
Qed.

Lemma GetConnection_result_witness :
  let r := GetConnection (scripted (upServer (idRows 3))) exampleConfig
             "primary" (NewManager 0%nat) in
  Connections exampleConfig !! "primary" = Some (exampleConnection false 2) /\
  connections (snd r) !! "primary" = Some 0%nat /\
  connections (snd r) !! "replica" = None.
Proof.
  intros r.
  destruct (GetConnection_result (scripted (upServer (idRows 3)))
              exampleConfig "primary" (NewManager 0%nat)) as [H _].
  destruct (H 0%nat (exampleConnection false 2) eq_refl) as [H1 [H2 H3]].
  split; [exact H1|]. split; [exact H2|].
  fold r in H3. rewrite (H3 "replica"); [reflexivity|discriminate].
Defined.

(** X6: a pooled handle that answers the probe is returned as it is, at the
    price of one probe: no handle is opened and the pool is not written.
    So the handle that one call returns is the handle that the next call
    for the name returns, as long as it answers. *)
Theorem GetConnection_reuses_handle {W : Type} (drv : Driver W) (cfg : Config)
    (name : string) (m : Manager W) (db : DB) (c : ConnectionConfig) (w : W) :
  (Connections cfg !! name = Some c ->
   connections m !! name = Some db ->
   sqlPing drv db (world m) = (None, w) ->
   GetConnection drv cfg name m =
   (Ok (db, c),
    {| world := w; connections := connections m;
       trace := (trace m ++ [CallPing db])%list |})) /\
  (forall m0,
     GetConnection drv cfg name m0 = (Ok (db, c), m) ->
     sqlPing drv db (world m) = (None, w) ->
     GetConnection drv cfg name m =
     (Ok (db, c),
      {| world := w; connections := connections m;
         trace := (trace m ++ [CallPing db])%list |})).
Proof.
  assert (Hreuse : Connections cfg !! name = Some c ->
                   connections m !! name = Some db ->
                   sqlPing drv db (world m) = (None, w) ->
                   GetConnection drv cfg name m =
                   (Ok (db, c),
                    {| world := w; connections := connections m;
                       trace := (trace m ++ [CallPing db])%list |})).
  { intros Hc Hl Hping. unfold GetConnection, lookupConnection.
    rewrite Hc, bind_run. cbv beta. rewrite Hl, bind_run.
    unfold Ping. now rewrite perform_run, Hping. }
  split; [exact Hreuse|].
  intros m0 Hfirst Hping.
  destruct (GetConnection_outcome drv cfg name m0) as [_ [Hok Hun]].
  destruct (Connections cfg !! name) as [c0|] eqn:Hc.
  - destruct (Hok c0 eq_refl db c) as [-> Hpool]; [now rewrite Hfirst|].
    rewrite Hfirst in Hpool. cbn [snd] in Hpool.
    apply Hreuse; [reflexivity| |exact Hping].
    rewrite Hpool. apply lookup_insert_eq.
  - specialize (Hun eq_refl). rewrite Hfirst in Hun. discriminate Hun.
Qed.

Lemma GetConnection_reuses_handle_witness :
  let drv := scripted (upServer (idRows 3)) in
  let first := GetConnection drv exampleConfig "primary" (NewManager 0%nat) in
  let second := GetConnection drv exampleConfig "primary" (snd first) in
  fst second = fst first /\
  trace (snd second) = (trace (snd first) ++ [CallPing 0%nat])%list.
Proof.
  intros drv first second.
  destruct (GetConnection_reuses_handle drv exampleConfig "primary"
              (snd first) 0%nat (exampleConnection false 2) 3%nat)
    as [_ H].
  unfold second. rewrite (H (NewManager 0%nat)); [|reflexivity|reflexivity].
  split; reflexivity.
Defined.

(** X7: a pooled handle that fails the probe is closed, probed once more
    under the lock and closed again; when the new handle then opens and
    answers, it takes the place of the dead one in the pool and is
    returned. *)
Theorem GetConnection_replaces_dead_handle {W : Type} (drv : Driver W)
    (cfg : Config) (name : string) (m : Manager W) (c : ConnectionConfig)
    (old new : DB) (e1 e2 : string) (w1 w2 w3 w4 : W) :
  Connections cfg !! name = Some c ->
  connections m !! name = Some old ->
  sqlPing drv old (world m) = (Some e1, w1) ->
  sqlPing drv old (sqlClose drv old w1) = (Some e2, w2) ->
  sqlOpen drv (DSN c) (sqlClose drv old w2) = (Ok new, w3) ->
  sqlPing drv new w3 = (None, w4) ->
  GetConnection drv cfg name m =
  (Ok (new, c),
   {| world := w4; connections := <[name := new]> (connections m);
      trace := (trace m ++
                [CallPing old; CallClose old; CallPing old; CallClose old] ++
                goodOpen c new)%list |}).
Proof.
  intros Hc Hl Hp1 Hp2 Hopen Hp3. unfold GetConnection, lookupConnection.
  rewrite Hc, bind_run. cbv beta. rewrite Hl, bind_run.
  unfold Ping at 1. rewrite perform_run, Hp1. cbn [fst snd].
  rewrite bind_run. unfold Close at 1. rewrite perform_run. cbn [fst snd].
  unfold reconnect, lookupConnection. rewrite bind_run. cbv beta.
  cbn [connections world]. rewrite Hl, bind_run.
  unfold Ping at 1. rewrite perform_run. cbn [world]. rewrite Hp2.
  cbn [fst snd]. rewrite bind_run. unfold Close at 1. rewrite perform_run.
  cbn [fst snd world connections trace].
  erewrite openConnection_opened; [|exact Hopen|exact Hp3].
  cbn [connections trace]. now rewrite <- !app_assoc.
Qed.

Lemma GetConnection_replaces_dead_handle_witness :
  let m := {| world := 10%nat; connections := <["primary" := 0%nat]> ∅;
              trace := [] |} in
  let r := GetConnection (scripted restartedServer) exampleConfig "primary" m in
  fst r = Ok (15%nat, exampleConnection false 2) /\
  connections (snd r) !! "primary" = Some 15%nat /\
  length (trace (snd r)) = 8%nat.
Proof.
  intros m r. unfold r.
  rewrite (GetConnection_replaces_dead_handle (scripted restartedServer)
             exampleConfig "primary" m (exampleConnection false 2)
             0%nat 15%nat "driver: bad connection" "driver: bad connection"
             11%nat 13%nat 15%nat 16%nat);
    try reflexivity.
  cbn [fst snd connections trace]. split; [reflexivity|].
  split; [apply lookup_insert_eq|reflexivity].
Defined.

(** ** Closing the manager and listing the registry *)

Lemma enumerates_length {A} (order : list string) (m : gmap string A) :
  enumerates order m -> length order = size m.
Proof.
  intros [Hnd Hin]. rewrite <- length_map_to_list.
  rewrite <- (length_fmap fst (map_to_list m)).
  apply Permutation_length, NoDup_Permutation;
    [exact Hnd|apply NoDup_fst_map_to_list|].
  intros k. rewrite list_elem_of_In, Hin, list_elem_of_fmap. split.
  - intros [x Hx]. exists (k, x). split; [reflexivity|].
    now apply elem_of_map_to_list.
  - intros [[k' x] [-> Hx]]. apply elem_of_map_to_list in Hx. eauto.
Qed.

(** The values of the keys of [order], in that order. *)
Lemma omap_lookup_enumerates {A} (order : list string) (m : gmap string A) :
  (forall k, In k order -> is_Some (m !! k)) ->
  length (omap (fun k => m !! k) order) = length order /\
  forall x, In x (omap (fun k => m !! k) order) <->
            exists k, In k order /\ m !! k = Some x.
Proof.
  intros Hall. split.
  - induction order as [|k order IH]; [reflexivity|].
    cbn [omap list_omap]. destruct (Hall k (or_introl eq_refl)) as [x ->].
    cbn [length]. f_equal. apply IH. intros k' Hk'. apply Hall. now right.
  - intros x. rewrite <- list_elem_of_In, list_elem_of_omap.
    split; intros [k [Hk Hx]]; exists k; split; auto;
      now apply list_elem_of_In.
Qed.

Section Closing.

Context {W : Type}.
Variable drv : Driver W.

Lemma closeEach_run (order : list string) (m : Manager W) :
  connections (snd (closeEach drv order m)) = connections m /\
  trace (snd (closeEach drv order m)) =
    (trace m ++ map CallClose (omap (fun k => connections m !! k) order))%list.
Proof.
  revert m. induction order as [|k order IH]; intros m.
  - cbn. now rewrite app_nil_r.
  - cbn [closeEach omap list_omap]. unfold lookupConnection.
    rewrite bind_run. cbv beta.
    destruct (connections m !! k) as [db|]; [|apply IH].
    rewrite bind_run. unfold Close. rewrite perform_run. cbn [fst snd].
    match goal with
    | |- context [closeEach drv order ?m'] =>
        destruct (IH m') as [H1 H2]
    end.
    cbn [connections trace] in H1, H2. split; [exact H1|].
    rewrite H2. cbn [map]. now rewrite <- app_assoc.
Qed.

End Closing.

(** X8: [Close] closes every pooled handle once and nothing else, and
    leaves an empty pool; a call of [GetConnection] after it probes no old
    handle and goes straight to a new one. *)
Theorem Manager_Close_spec {W : Type} (drv : Driver W) (cfg : Config)
    (order : list string) (m : Manager W) :
  enumerates order (connections m) ->
  let m' := snd (Manager_Close drv order m) in
  connections m' = ∅ /\
  (exists closed,
     trace m' = (trace m ++ map CallClose closed)%list /\
     length closed = size (connections m) /\
     forall db, In db closed <-> exists name, connections m !! name = Some db) /\
  (forall name c,
     Connections cfg !! name = Some c ->
     GetConnection drv cfg name m' = openConnection drv name c m').
Proof.
  intros Henum m'.
  assert (Hm' : m' = {| world := world (snd (closeEach drv order m));
                        connections := ∅;
                        trace := trace (snd (closeEach drv order m)) |}).
  { unfold m', Manager_Close. rewrite bind_run.
    destruct (closeEach drv order m) as [[] m1]. reflexivity. }
  destruct (closeEach_run drv order m) as [_ Htrace].
  split; [now rewrite Hm'|]. split.
  - exists (omap (fun k => connections m !! k) order).
    destruct (omap_lookup_enumerates order (connections m)) as [Hlen Hin];
      [intros k Hk; now apply Henum|].
    split; [now rewrite Hm'|].
    split; [rewrite Hlen; now apply enumerates_length|].
    intros db. rewrite Hin. split.
    + intros [k [_ Hk]]. eauto.
    + intros [k Hk]. exists k. split; [|exact Hk]. apply Henum. eauto.
  - intros name c Hc. apply GetConnection_fresh; [exact Hc|].
    now rewrite Hm'.
Qed.

Lemma Manager_Close_spec_witness :
  let m := snd (GetConnection (scripted (upServer (idRows 3))) exampleConfig
                  "primary" (NewManager 0%nat)) in
  let m' := snd (Manager_Close (scripted (upServer (idRows 3))) ["primary"] m) in
  connections m' = ∅ /\
  GetConnection (scripted (upServer (idRows 3))) exampleConfig "primary" m' =
  openConnection (scripted (upServer (idRows 3))) "primary"
    (exampleConnection false 2) m'.
Proof.
  intros m m'.
  destruct (Manager_Close_spec (scripted (upServer (idRows 3))) exampleConfig
              ["primary"] m) as [H1 [_ H3]].
  - assert (connections m = <["primary" := 0%nat]> ∅) as ->
      by (vm_compute; reflexivity).
    split; [repeat constructor; intros H; inversion H|].
    intros k. split.
    + intros [<-|[]]. exists 0%nat. reflexivity.
    + intros [db Hdb]. left.
      destruct (decide (k = "primary")) as [->|Hne]; [reflexivity|].
      rewrite lookup_insert_ne in Hdb by congruence.
      rewrite lookup_empty in Hdb. discriminate Hdb.
  - split; [exact H1|]. apply H3. reflexivity.
Defined.

(** X9: [ListConnections] has one element for each connection of the
    registry: the name and the read-only flag of the connection and no
    other key, so that no host, user, password or database leaves the
    manager by this way. *)
Theorem ListConnections_spec (cfg : Config) (order : list string) :
  enumerates order (Connections cfg) ->
  length (ListConnections cfg order) = size (Connections cfg) /\
  (forall entry,
     In entry (ListConnections cfg order) <->
     exists name conn,
       Connections cfg !! name = Some conn /\
       entry = connectionEntry name conn) /\
  (forall name conn key v,
     connectionEntry name conn !! key = Some v <->
     (key = "name" /\ v = VString name) \/
     (key = "read_only" /\ v = VBool (ReadOnly conn))).
Proof.
  intros Henum.
  assert (Hlist : ListConnections cfg order =
                  omap (fun name => connectionEntry name <$>
                                      Connections cfg !! name) order).
  { clear Henum. induction order as [|k order IH]; [reflexivity|].
    cbn [ListConnections omap list_omap].
    destruct (Connections cfg !! k); cbn; now rewrite IH. }
  split; [|split].
  - rewrite <- (enumerates_length order _ Henum).
    destruct Henum as [_ Hin]. clear Hlist.
    assert (forall k, In k order -> is_Some (Connections cfg !! k)) as Hall
      by (intros k Hk; now apply Hin).
    clear Hin. induction order as [|k order IH]; [reflexivity|].
    cbn [ListConnections]. destruct (Hall k (or_introl eq_refl)) as [x ->].
    cbn [length]. f_equal. apply IH. intros k' Hk'. apply Hall. now right.
  - intros entry. rewrite Hlist, <- list_elem_of_In, list_elem_of_omap. split.
    + intros [k [_ Hk]].
      destruct (Connections cfg !! k) as [conn|] eqn:Hc; [|discriminate Hk].
      injection Hk as <-. eauto.
    + intros [k [conn [Hc ->]]]. exists k. rewrite Hc.
      split; [|reflexivity]. apply list_elem_of_In, Henum. eauto.
  - intros name conn key v. unfold connectionEntry.
    destruct (decide (key = "read_only")) as [->|Hro].
    { rewrite lookup_insert_eq. split.
      - intros [= <-]. right. auto.
      - intros [[H _]|[_ ->]]; [discriminate H|reflexivity]. }
    rewrite lookup_insert_ne by congruence.
    destruct (decide (key = "name")) as [->|Hn].
    { rewrite lookup_insert_eq. split.
      - intros [= <-]. left. auto.
      - intros [[_ ->]|[H _]]; [reflexivity|discriminate H]. }
    rewrite lookup_insert_ne by congruence. rewrite lookup_empty.
    split; [discriminate|]. intros [[H _]|[H _]]; contradiction.
Qed.

Lemma ListConnections_spec_witness :
  length (ListConnections exampleConfig ["primary"; "replica"]) = 2%nat.
Proof.
  destruct (ListConnections_spec exampleConfig ["primary"; "replica"])
    as [H _]; [|exact H].
  split.
  - repeat constructor; [|intros H; inversion H].
    intros H. apply list_elem_of_In in H. destruct H as [H|[]].
    discriminate H.
  - intros k. split.
    + intros [<-|[<-|[]]]; eexists; reflexivity.
    + intros [conn Hc]. unfold exampleConfig in Hc. cbn in Hc.
      destruct (decide (k = "replica")) as [->|Hr]; [right; now left|].
      rewrite lookup_insert_ne in Hc by congruence.
      destruct (decide (k = "primary")) as [->|Hp]; [now left|].
      rewrite lookup_insert_ne in Hc by congruence.
      rewrite lookup_empty in Hc. discriminate Hc.
Defined.

(** ** The four modes *)

Section Modes.

Context {W : Type}.
Variable drv : Driver W.
Variable cfg : Config.

Lemma ExecuteWrite_resolved name sql allowedTypes m db c m1 :
  GetConnection drv cfg name m = (Ok (db, c), m1) ->
  ExecuteWrite drv cfg name sql allowedTypes m =
  writeWith drv name sql allowedTypes db c m1.
Proof. intros H. unfold ExecuteWrite. now rewrite bind_run, H. Qed.

Lemma Exec_run db sql (m1 : Manager W) {A} (k : res string sqlResult -> M W A) :
  (Exec drv db sql ≫= k) m1 =
  k (fst (sqlExec drv db sql (world m1)))
    {| world := snd (sqlExec drv db sql (world m1));
       connections := connections m1;
       trace := (trace m1 ++ [CallExec db sql])%list |}.
Proof. rewrite bind_run. unfold Exec. now rewrite perform_run. Qed.

Lemma Query_run db sql (m1 : Manager W) {A} (k : res string sqlRows -> M W A) :
  (Query drv db sql ≫= k) m1 =
  k (fst (sqlQuery drv db sql (world m1)))
    {| world := snd (sqlQuery drv db sql (world m1));
       connections := connections m1;
       trace := (trace m1 ++ [CallQuery db sql])%list |}.
Proof. rewrite bind_run. unfold Query. now rewrite perform_run. Qed.

Lemma ExecuteQuery_unresolved name sql m e m1 :
  GetConnection drv cfg name m = (Err e, m1) ->
  ExecuteQuery drv cfg name sql m = (Err e, m1).
Proof. intros H. unfold ExecuteQuery. now rewrite bind_run, H. Qed.

(** A successful [ExecuteQuery] is a successful [collectRows] on the cursor
    that the driver returned after the resolution. *)
Lemma queryWith_ok name sql db c (m1 : Manager W) q :
  fst (queryWith drv name sql db c m1) = Ok q ->
  exists rows,
    fst (sqlQuery drv db sql (world m1)) = Ok rows /\
    collectRows (MaxRows c) rows = Ok q /\
    ReadOnly c && negb (isReadOnlyQuery sql) = false /\
    negb (ReadOnly c) && isDangerousQuery sql = false /\
    isSensitiveQuery sql = false /\
    snd (queryWith drv name sql db c m1) =
    {| world := snd (sqlQuery drv db sql (world m1));
       connections := connections m1;
       trace := (trace m1 ++ [CallQuery db sql])%list |}.
Proof.
  unfold queryWith.
  destruct (ReadOnly c && negb (isReadOnlyQuery sql)); [discriminate|].
  destruct (negb (ReadOnly c) && isDangerousQuery sql); [discriminate|].
  destruct (isSensitiveQuery sql); [discriminate|].
  rewrite Query_run.
  destruct (fst (sqlQuery drv db sql (world m1))) as [rows|cause];
    [|discriminate].
  intros H. exists rows. repeat split. exact H.
Qed.

End Modes.

(** X10: an error of [GetConnection] is the error of the call, in each of
    the four modes, and the manager is left as [GetConnection] left it; for
    a name that the registry does not have, this is the unknown-connection
    error with no call to the driver. *)
Theorem resolution_error_all_modes {W : Type} (drv : Driver W) (cfg : Config)
    (name sql : string) (allowedTypes : list QueryType) (m : Manager W) :
  (forall e m1,
     GetConnection drv cfg name m = (Err e, m1) ->
     ExecuteQuery drv cfg name sql m = (Err e, m1) /\
     ExecuteWrite drv cfg name sql allowedTypes m = (Err e, m1) /\
     ExecuteAlter drv cfg name sql m = (Err e, m1) /\
     ExecuteUnsafe drv cfg name sql m = (Err e, m1)) /\
  (Connections cfg !! name = None ->
   ExecuteQuery drv cfg name sql m = (Err (ErrUnknownConnection name), m) /\
   ExecuteWrite drv cfg name sql allowedTypes m =
     (Err (ErrUnknownConnection name), m) /\
   ExecuteAlter drv cfg name sql m = (Err (ErrUnknownConnection name), m) /\
   ExecuteUnsafe drv cfg name sql m = (Err (ErrUnknownConnection name), m)).
Proof.
  assert (Hall : forall e m1,
    GetConnection drv cfg name m = (Err e, m1) ->
    ExecuteQuery drv cfg name sql m = (Err e, m1) /\
    ExecuteWrite drv cfg name sql allowedTypes m = (Err e, m1) /\
    ExecuteAlter drv cfg name sql m = (Err e, m1) /\
    ExecuteUnsafe drv cfg name sql m = (Err e, m1)).
  { intros e m1 H.
    unfold ExecuteQuery, ExecuteWrite, ExecuteAlter, ExecuteUnsafe.
    rewrite !bind_run, H. auto. }
  split; [exact Hall|].
  intros Hc. apply Hall. unfold GetConnection. now rewrite Hc.
Qed.

Lemma resolution_error_all_modes_witness :
  ExecuteUnsafe (scripted (upServer (idRows 3))) exampleConfig "backup"
    "DROP TABLE t" (NewManager 0%nat) =
  (Err (ErrUnknownConnection "backup"), NewManager 0%nat).
Proof.
  apply (proj2 (resolution_error_all_modes (scripted (upServer (idRows 3)))
                  exampleConfig "backup" "DROP TABLE t" [] (NewManager 0%nat))).
  reflexivity.
Defined.

(** Closes the cases of a gate theorem once the gates are decided. *)
Ltac gates_done :=
  repeat split; intros; repeat split;
  try tauto; try discriminate; try congruence; auto.

(** X11: the gates of [ExecuteWrite], in their order, after a successful
    [GetConnection]: the type validation when types are given, then the
    read-only flag, then the dangerous types, then the sensitive text.  A
    gate that fires leaves the manager as it was; a statement that passes
    them all is sent as an exec, and the result carries the two numbers of
    the driver.  When the types given are not dangerous, as the types of all
    the write tools are (INSERT, UPDATE, DELETE), the dangerous gate never
    fires. *)
Theorem ExecuteWrite_gates {W : Type} (drv : Driver W) (cfg : Config)
    (name sql : string) (allowedTypes : list QueryType) (m : Manager W)
    (db : DB) (c : ConnectionConfig) (m1 : Manager W) :
  GetConnection drv cfg name m = (Ok (db, c), m1) ->
  let r := ExecuteWrite drv cfg name sql allowedTypes m in
  let qt := DetectQueryType sql in
  let typeOk := allowedTypes = [] \/ In qt allowedTypes in
  (~ typeOk ->
   r = (Err (ErrTypeMismatch (Join (map GetQueryTypeLabel allowedTypes) "/")
                             (GetQueryTypeLabel qt)), m1)) /\
  (typeOk -> ReadOnly c = true -> r = (Err (ErrReadOnly name), m1)) /\
  (typeOk -> ReadOnly c = false -> IsDangerousQueryType qt = true ->
   r = (Err ErrDangerousWrite, m1)) /\
  (typeOk -> ReadOnly c = false -> IsDangerousQueryType qt = false ->
   isSensitiveQuery sql = true -> r = (Err ErrSensitive, m1)) /\
  (typeOk -> ReadOnly c = false -> IsDangerousQueryType qt = false ->
   isSensitiveQuery sql = false ->
   trace (snd r) = (trace m1 ++ [CallExec db sql])%list /\
   fst r =
     match fst (sqlExec drv db sql (world m1)) with
     | Ok result => Ok {| RowsAffected := resRowsAffected result;
                          LastInsertID := resLastInsertId result |}
     | Err cause => Err (ErrExecution cause)
     end) /\
  (allowedTypes <> [] ->
   (forall t, In t allowedTypes -> IsDangerousQueryType t = false) ->
   fst r <> Err ErrDangerousWrite).
Proof.
  intros Hget r qt typeOk.
  assert (Hr : r = writeWith drv name sql allowedTypes db c m1)
    by (apply ExecuteWrite_resolved; exact Hget).
  clearbody r. subst r. unfold writeWith. fold qt.
  assert (Hval : (if (0 <? length allowedTypes)%nat
                  then ValidateQueryType sql allowedTypes else None) =
                 if existsb (fun t => QueryType_eqb qt t) allowedTypes
                 then None
                 else match allowedTypes with
                      | [] => None
                      | _ => Some (ErrTypeMismatch
                                     (Join (map GetQueryTypeLabel allowedTypes)
                                           "/")
                                     (GetQueryTypeLabel qt))
                      end).
  { unfold ValidateQueryType. fold qt. destruct allowedTypes as [|t ts].
    - reflexivity.
    - cbn [length Nat.ltb Nat.leb].
      now destruct (existsb _ (t :: ts)). }
  rewrite Hval. clear Hval.
  assert (Hex : existsb (fun t => QueryType_eqb qt t) allowedTypes = true <->
                In qt allowedTypes).
  { rewrite existsb_exists. split.
    - intros [t [Hin Heq]]. apply QueryType_eqb_eq in Heq. now subst t.
    - intros Hin. exists qt. split; [exact Hin|]. now apply QueryType_eqb_eq. }
  destruct (existsb (fun t => QueryType_eqb qt t) allowedTypes) eqn:He.
  - assert (In qt allowedTypes) as Hin by now apply Hex.
    assert (typeOk) as Hok by now right.
    split; [intros Hn; now elim Hn|].
    destruct (ReadOnly c); [gates_done|].
    destruct (IsDangerousQueryType qt) eqn:Hd.
    { split; [discriminate|]. split; [reflexivity|].
      split; [discriminate|]. split; [discriminate|].
      intros _ Hsafe. rewrite (Hsafe qt Hin) in Hd. discriminate Hd. }
    destruct (isSensitiveQuery sql); [gates_done|].
    rewrite Exec_run.
    destruct (fst (sqlExec drv db sql (world m1))); cbn [fst snd trace];
      gates_done.
  - destruct allowedTypes as [|t ts].
    + assert (typeOk) as Hok by now left.
      split; [intros Hn; now elim Hn|].
      destruct (ReadOnly c); [gates_done|].
      destruct (IsDangerousQueryType qt) eqn:Hd; [gates_done|].
      destruct (isSensitiveQuery sql); [gates_done|].
      rewrite Exec_run.
      destruct (fst (sqlExec drv db sql (world m1))); cbn [fst snd trace];
        gates_done.
    + assert (~ typeOk) as Hno.
      { intros [H|H]; [discriminate H|]. apply Hex in H. discriminate H. }
      split; [reflexivity|]. gates_done.
Qed.

Lemma ExecuteWrite_gates_witness :
  let drv := scripted (upServer (idRows 3)) in
  ExecuteWrite drv exampleConfig "replica" "INSERT INTO t VALUES (1)"
    [QueryTypeInsert] (NewManager 0%nat) =
  (Err (ErrReadOnly "replica"),
   snd (GetConnection drv exampleConfig "replica" (NewManager 0%nat))) /\
  fst (ExecuteWrite drv exampleConfig "primary" "INSERT INTO t VALUES (1)"
         [QueryTypeInsert] (NewManager 0%nat)) =
  Ok {| RowsAffected := 1; LastInsertID := 0 |}.
Proof.
  intros drv.
  assert (Hro : GetConnection drv exampleConfig "replica" (NewManager 0%nat) =
                (Ok (0%nat, exampleConnection true 1000),
                 snd (GetConnection drv exampleConfig "replica"
                        (NewManager 0%nat))))
    by (vm_compute; reflexivity).
  assert (Hrw : GetConnection drv exampleConfig "primary" (NewManager 0%nat) =
                (Ok (0%nat, exampleConnection false 2),
                 snd (GetConnection drv exampleConfig "primary"
                        (NewManager 0%nat))))
    by (vm_compute; reflexivity).
  split.
  - apply (ExecuteWrite_gates drv exampleConfig "replica"
             "INSERT INTO t VALUES (1)" [QueryTypeInsert] _ _ _ _ Hro);
      [right; simpl; tauto|reflexivity].
  - destruct (ExecuteWrite_gates drv exampleConfig "primary"
                "INSERT INTO t VALUES (1)" [QueryTypeInsert] _ _ _ _ Hrw)
      as [_ [_ [_ [_ [H _]]]]].
    destruct H as [_ H];
      [right; simpl; tauto|reflexivity|reflexivity|reflexivity|exact H].
Defined.

(** X12: [ExecuteAlter] beyond the writable case: on a read-only
    connection it sends nothing, and answers an ALTER statement with its own
    read-only error and any other statement with the type mismatch; on a
    writable connection a sensitive ALTER statement is refused without a
    call to the driver.  Whenever it succeeds, the statement was of type
    ALTER on a writable connection, held no pattern of the list, was not
    sensitive and was sent once, and the result has no last-insert id. *)
Theorem ExecuteAlter_refusals {W : Type} (drv : Driver W) (cfg : Config)
    (name sql : string) (m : Manager W) (db : DB) (c : ConnectionConfig)
    (m1 : Manager W) :
  GetConnection drv cfg name m = (Ok (db, c), m1) ->
  let r := ExecuteAlter drv cfg name sql m in
  let q := ToUpper (TrimSpace sql) in
  (ReadOnly c = true ->
   snd r = m1 /\
   (DetectQueryType sql = QueryTypeAlter ->
    fst r = Err (ErrReadOnlyAlter name)) /\
   (DetectQueryType sql <> QueryTypeAlter ->
    fst r = Err (ErrTypeMismatch "ALTER"
                   (GetQueryTypeLabel (DetectQueryType sql))))) /\
  (ReadOnly c = false -> DetectQueryType sql = QueryTypeAlter ->
   firstBlocked q = None -> isSensitiveQuery sql = true ->
   r = (Err ErrSensitive, m1)) /\
  (forall w,
     fst r = Ok w ->
     LastInsertID w = 0%Z /\
     DetectQueryType sql = QueryTypeAlter /\
     ReadOnly c = false /\
     (forall pattern a b,
        In pattern blockedPatterns -> q <> cat a (cat pattern b)) /\
     isSensitiveQuery sql = false /\
     trace (snd r) = (trace m1 ++ [CallExec db sql])%list).
Proof.
  intros Hget r q.
  assert (Hr : r = alterWith drv name sql db c m1)
    by (apply ExecuteAlter_resolved; exact Hget).
  clearbody r. subst r. unfold alterWith, ValidateQueryType.
  cbn [existsb map Join]. rewrite orb_false_r. fold q.
  destruct (QueryType_eqb (DetectQueryType sql) QueryTypeAlter) eqn:Heq.
  - apply QueryType_eqb_eq in Heq.
    destruct (ReadOnly c); [gates_done|].
    destruct (firstBlocked q) as [blocked|] eqn:Hb; [gates_done|].
    destruct (isSensitiveQuery sql); [gates_done|].
    rewrite Exec_run.
    split; [discriminate|]. split; [discriminate|].
    intros w Hw.
    destruct (fst (sqlExec drv db sql (world m1))) as [x|cause];
      [|discriminate Hw].
    injection Hw as <-. cbn [LastInsertID snd trace].
    repeat split; try assumption.
    intros pattern a b Hin Hq.
    assert (Contains q pattern = true) as Hc by (apply Contains_iff; eauto).
    rewrite (firstBlocked_None q pattern Hb Hin) in Hc. discriminate Hc.
  - assert (DetectQueryType sql <> QueryTypeAlter) as Hne.
    { intros H. rewrite H in Heq. discriminate Heq. }
    gates_done.
Qed.

Lemma ExecuteAlter_refusals_witness :
  let drv := scripted (upServer (idRows 3)) in
  ExecuteAlter drv exampleConfig "replica" "ALTER TABLE t ADD COLUMN y INT"
    (NewManager 0%nat) =
  (Err (ErrReadOnlyAlter "replica"),
   snd (GetConnection drv exampleConfig "replica" (NewManager 0%nat))).
Proof.
  intros drv.
  assert (Hro : GetConnection drv exampleConfig "replica" (NewManager 0%nat) =
                (Ok (0%nat, exampleConnection true 1000),
                 snd (GetConnection drv exampleConfig "replica"
                        (NewManager 0%nat))))
    by (vm_compute; reflexivity).
  destruct (ExecuteAlter_refusals drv exampleConfig "replica"
              "ALTER TABLE t ADD COLUMN y INT" _ _ _ _ Hro) as [H _].
  destruct (H eq_refl) as [H1 [H2 _]].
  apply injective_projections; cbn [fst snd];
    [apply H2; reflexivity|exact H1].
Defined.

(** X13: on a statement whose detected type is read-only, [ExecuteUnsafe]
    does what [ExecuteQuery] does whenever [ExecuteQuery] succeeds: the same
    calls to the driver, the same manager afterwards, and the same rows,
    columns and count in its query result. *)
Theorem ExecuteUnsafe_agrees_with_ExecuteQuery {W : Type} (drv : Driver W)
    (cfg : Config) (name sql : string) (m : Manager W) (q : QueryResult) :
  IsReadOnlyQueryType (DetectQueryType sql) = true ->
  fst (ExecuteQuery drv cfg name sql m) = Ok q ->
  ExecuteUnsafe drv cfg name sql m =
  (Ok {| uQueryResult := Some q; uWriteResult := None;
         Warning := unsafeWarning; SkippedCheck := "none" |},
   snd (ExecuteQuery drv cfg name sql m)).
Proof.
  intros Hro Hq.
  destruct (GetConnection drv cfg name m) as [[[db c]|e] m1] eqn:Hg.
  2:{ rewrite (ExecuteQuery_unresolved drv cfg _ _ _ _ _ Hg) in Hq.
      discriminate Hq. }
  rewrite (ExecuteQuery_resolved drv cfg _ _ _ _ _ _ Hg) in *.
  rewrite (ExecuteUnsafe_resolved drv cfg _ _ _ _ _ _ Hg).
  destruct (queryWith_ok drv name sql db c m1 q Hq)
    as [rows [Hrows [Hc [_ [Hd [Hs ->]]]]]].
  unfold unsafeWith. rewrite Hro, andb_false_r, Query_run, Hrows, Hc.
  assert (skippedCheckMsg sql = "none") as ->; [|reflexivity].
  rewrite skippedCheckMsg_cases, Hs.
  destruct (isDangerousQuery sql) eqn:Hdq; [|reflexivity].
  exfalso.
  assert (isReadOnlyQuery sql = true) as Hrq
    by now apply IsReadOnlyQueryType_isReadOnlyQuery.
  destruct (text_and_type_facts sql) as [Hno _].
  rewrite (Hno Hrq) in Hdq. discriminate Hdq.
Qed.

Lemma ExecuteUnsafe_agrees_with_ExecuteQuery_witness :
  exists q,
    fst (ExecuteQuery (scripted (upServer (idRows 3))) exampleConfig "replica"
           "SELECT id FROM t" (NewManager 0%nat)) = Ok q /\
    fst (ExecuteUnsafe (scripted (upServer (idRows 3))) exampleConfig "replica"
           "SELECT id FROM t" (NewManager 0%nat)) =
    Ok {| uQueryResult := Some q; uWriteResult := None;
          Warning := unsafeWarning; SkippedCheck := "none" |}.
Proof.
  destruct (fst (ExecuteQuery (scripted (upServer (idRows 3))) exampleConfig
                   "replica" "SELECT id FROM t" (NewManager 0%nat)))
    as [q|e] eqn:Hq; [|vm_compute in Hq; discriminate Hq].
  exists q. split; [reflexivity|].
  rewrite (ExecuteUnsafe_agrees_with_ExecuteQuery
             (scripted (upServer (idRows 3))) exampleConfig "replica"
             "SELECT id FROM t" (NewManager 0%nat) q);
    [reflexivity|reflexivity|exact Hq].
Defined.

(** ** The rows of a result *)

Section Rows.

Lemma convertValue_not_bytes (v : value) (b : string) :
  convertValue v <> VBytes b.
Proof. destruct v; discriminate. Qed.

Lemma fold_put_other (columns : list string) (values : list value)
    (acc : gmap string value) (col : string) :
  ~ In col columns ->
  fold_left putColumn (zip columns values) acc !! col = acc !! col.
Proof.
  revert values acc. induction columns as [|c columns IH];
    intros values acc Hn; [reflexivity|].
  destruct values as [|v values]; [reflexivity|].
  cbn [zip zip_with fold_left]. rewrite IH by (intros H; apply Hn; now right).
  unfold putColumn. cbn [fst snd]. apply lookup_insert_ne.
  intros ->. apply Hn. now left.
Qed.

Lemma fold_put_lookup (columns : list string) (values : list value)
    (acc : gmap string value) (col : string) (v : value) :
  fold_left putColumn (zip columns values) acc !! col = Some v ->
  acc !! col = Some v \/
  (In col columns /\ exists raw, In raw values /\ v = convertValue raw).
Proof.
  revert values acc. induction columns as [|c columns IH];
    intros values acc H; [now left|].
  destruct values as [|raw values]; [now left|].
  cbn [zip zip_with fold_left] in H.
  destruct (IH _ _ H) as [Hacc|[Hin [raw' [Hraw ->]]]].
  - unfold putColumn in Hacc. cbn [fst snd] in Hacc.
    destruct (decide (c = col)) as [->|Hne].
    + rewrite lookup_insert_eq in Hacc. injection Hacc as <-.
      right. split; [now left|]. exists raw. split; [now left|reflexivity].
    + rewrite lookup_insert_ne in Hacc by exact Hne. now left.
  - right. split; [now right|]. exists raw'. split; [now right|reflexivity].
Qed.

Lemma fold_put_present (columns : list string) (values : list value)
    (acc : gmap string value) (col : string) :
  length values = length columns ->
  In col columns ->
  is_Some (fold_left putColumn (zip columns values) acc !! col).
Proof.
  revert values acc. induction columns as [|c columns IH];
    intros values acc Hlen Hin; [destruct Hin|].
  destruct values as [|raw values]; [discriminate Hlen|].
  cbn [zip zip_with fold_left]. injection Hlen as Hlen.
  destruct (in_dec string_dec col columns) as [Hc|Hc].
  - now apply IH.
  - rewrite fold_put_other by exact Hc.
    destruct Hin as [->|Hin]; [|contradiction].
    unfold putColumn. cbn [fst snd]. rewrite lookup_insert_eq. eauto.
Qed.

Lemma fold_put_index (columns : list string) (values : list value)
    (acc : gmap string value) (i : nat) (col : string) (raw : value) :
  NoDup columns ->
  columns !! i = Some col -> values !! i = Some raw ->
  fold_left putColumn (zip columns values) acc !! col = Some (convertValue raw).
Proof.
  revert values acc i. induction columns as [|c columns IH];
    intros values acc i Hnd Hc Hv; [discriminate Hc|].
  destruct values as [|v values]; [discriminate Hv|].
  apply NoDup_cons in Hnd as [Hnotin Hnd].
  cbn [zip zip_with fold_left]. destruct i as [|i].
  - injection Hc as <-. injection Hv as <-.
    rewrite fold_put_other by (now rewrite <- list_elem_of_In).
    unfold putColumn. cbn [fst snd]. apply lookup_insert_eq.
  - now apply (IH values _ i).
Qed.

(** The rows that [buildRow] makes: the keys are the column names, every
    column has a value, no value is a byte string, and with column names
    that differ the value of a column is the converted value of its
    place. *)
Lemma buildRow_spec (columns : list string) (values : list value) :
  length values = length columns ->
  (forall col v,
     buildRow columns values !! col = Some v ->
     In col columns /\ forall b, v <> VBytes b) /\
  (forall col, In col columns -> is_Some (buildRow columns values !! col)) /\
  (NoDup columns ->
   forall i col raw,
     columns !! i = Some col -> values !! i = Some raw ->
     buildRow columns values !! col = Some (convertValue raw)).
Proof.
  intros Hlen. unfold buildRow. fold putColumn. split; [|split].
  - intros col v H. apply fold_put_lookup in H as [H|[Hin [raw [_ ->]]]].
    + rewrite lookup_empty in H. discriminate H.
    + split; [exact Hin|]. intros b. apply convertValue_not_bytes.
  - intros col Hin. now apply fold_put_present.
  - intros Hnd i col raw Hc Hv. now apply (fold_put_index _ _ _ i).
Qed.

End Rows.

Lemma scanRow_Ok (columns : list string) (src : res string (list value))
    (values : list value) :
  scanRow columns src = Ok values ->
  src = Ok values /\ length values = length columns.
Proof.
  unfold scanRow. destruct src as [vs|e]; [|discriminate].
  destruct (Nat.eqb_spec (length vs) (length columns)) as [Hlen|_];
    [|discriminate].
  intros [= <-]. auto.
Qed.

(** X14: in every row that [ExecuteQuery] returns the keys are the column
    names of the result, every column has a value, and no value is a byte
    string: what the driver delivers as bytes has become a string. *)
Theorem ExecuteQuery_rows_are_text {W : Type} (drv : Driver W) (cfg : Config)
    (name sql : string) (m : Manager W) (q : QueryResult) :
  fst (ExecuteQuery drv cfg name sql m) = Ok q ->
  forall row,
    In row (Rows q) ->
    (forall col v,
       row !! col = Some v -> In col (Columns q) /\ forall b, v <> VBytes b) /\
    (forall col, In col (Columns q) -> is_Some (row !! col)).
Proof.
  intros Hq row Hrow.
  destruct (GetConnection drv cfg name m) as [[[db c]|e] m1] eqn:Hg.
  2:{ rewrite (ExecuteQuery_unresolved drv cfg _ _ _ _ _ Hg) in Hq.
      discriminate Hq. }
  rewrite (ExecuteQuery_resolved drv cfg _ _ _ _ _ _ Hg) in Hq.
  destruct (queryWith_ok drv name sql db c m1 q Hq) as [rows [_ [Hc _]]].
  destruct (collectRows_ok _ _ _ Hc) as [_ [_ [_ Hall]]].
  apply list_elem_of_In, list_elem_of_lookup in Hrow as [j Hj].
  destruct (Forall2_lookup_r _ _ _ _ _ Hall Hj) as [src [_ [values [Hs ->]]]].
  apply scanRow_Ok in Hs as [_ Hlen].
  destruct (buildRow_spec (Columns q) values Hlen) as [H1 [H2 _]].
  split; assumption.
Qed.

Lemma ExecuteQuery_rows_are_text_witness :
  exists q,
    fst (ExecuteQuery (scripted (upServer (idRows 3))) exampleConfig "primary"
           "SELECT id FROM t" (NewManager 0%nat)) = Ok q /\
    Rows q !! 1%nat = Some (<["id" := VString "2"]> ∅) /\
    In "id" (Columns q).
Proof.
  destruct (fst (ExecuteQuery (scripted (upServer (idRows 3))) exampleConfig
                   "primary" "SELECT id FROM t" (NewManager 0%nat)))
    as [q|e] eqn:Hq; [|vm_compute in Hq; discriminate Hq].
  exists q. split; [reflexivity|].
  assert (Hrow : Rows q !! 1%nat = Some (<["id" := VString "2"]> ∅))
    by (vm_compute in Hq; injection Hq as <-; reflexivity).
  split; [exact Hrow|].
  destruct (ExecuteQuery_rows_are_text _ _ _ _ _ q Hq
              (<["id" := VString "2"]> ∅)) as [H _].
  - apply list_elem_of_In. eapply list_elem_of_lookup_2. exact Hrow.
  - apply (H "id" (VString "2")). apply lookup_insert_eq.
Defined.

(** X15: with column names that differ, the row number [j] of a successful
    [ExecuteQuery] holds under the column number [i] the value number [i]
    of the row number [j] of the cursor, a byte string turned into a string
    and any other value as it came. *)
Theorem ExecuteQuery_row_values {W : Type} (drv : Driver W) (cfg : Config)
    (name sql : string) (m : Manager W) (db : DB) (c : ConnectionConfig)
    (m1 : Manager W) (rows : sqlRows) (q : QueryResult) :
  GetConnection drv cfg name m = (Ok (db, c), m1) ->
  fst (sqlQuery drv db sql (world m1)) = Ok rows ->
  fst (ExecuteQuery drv cfg name sql m) = Ok q ->
  NoDup (Columns q) ->
  forall j row i col,
    Rows q !! j = Some row ->
    Columns q !! i = Some col ->
    exists values raw,
      rowsNext rows !! j = Some (Ok values) /\
      values !! i = Some raw /\
      row !! col = Some (convertValue raw).
Proof.
  intros Hg Hrows Hq Hnd j row i col Hj Hi.
  rewrite (ExecuteQuery_resolved drv cfg _ _ _ _ _ _ Hg) in Hq.
  destruct (queryWith_ok drv name sql db c m1 q Hq) as [rows' [Hr' [Hc _]]].
  rewrite Hrows in Hr'. injection Hr' as <-.
  destruct (collectRows_ok _ _ _ Hc) as [_ [_ [_ Hall]]].
  destruct (Forall2_lookup_r _ _ _ _ _ Hall Hj) as [src [Hsrc [values [Hs ->]]]].
  apply scanRow_Ok in Hs as [-> Hlen].
  apply lookup_take_Some in Hsrc as [Hsrc _].
  destruct (lookup_lt_is_Some_2 values i) as [raw Hraw].
  { rewrite Hlen. eapply lookup_lt_Some. exact Hi. }
  exists values, raw. split; [exact Hsrc|]. split; [exact Hraw|].
  destruct (buildRow_spec (Columns q) values Hlen) as [_ [_ H3]].
  exact (H3 Hnd i col raw Hi Hraw).
Qed.

Lemma ExecuteQuery_row_values_witness :
  exists q row values raw,
    fst (ExecuteQuery (scripted (upServer (idRows 3))) exampleConfig "primary"
           "SELECT id FROM t" (NewManager 0%nat)) = Ok q /\
    Rows q !! 0%nat = Some row /\
    rowsNext (idRows 3) !! 0%nat = Some (Ok values) /\
    values !! 0%nat = Some raw /\
    row !! "id" = Some (convertValue raw).
Proof.
  destruct (fst (ExecuteQuery (scripted (upServer (idRows 3))) exampleConfig
                   "primary" "SELECT id FROM t" (NewManager 0%nat)))
    as [q|e] eqn:Hq; [|vm_compute in Hq; discriminate Hq].
  assert (Hrow : Rows q !! 0%nat = Some (<["id" := VString "1"]> ∅))
    by (vm_compute in Hq; injection Hq as <-; reflexivity).
  assert (Hcol : Columns q = ["id"])
    by (vm_compute in Hq; injection Hq as <-; reflexivity).
  destruct (ExecuteQuery_row_values (scripted (upServer (idRows 3)))
              exampleConfig "primary" "SELECT id FROM t" (NewManager 0%nat)
              0%nat (exampleConnection false 2)
              (snd (GetConnection (scripted (upServer (idRows 3)))
                      exampleConfig "primary" (NewManager 0%nat)))
              (idRows 3) q)
    with (j := 0%nat) (row := <["id" := VString "1"]> (∅ : gmap string value))
         (i := 0%nat) (col := "id")
    as [values [raw [Hv [Hr Hl]]]];
    [vm_compute; reflexivity|reflexivity|exact Hq
    |rewrite Hcol; repeat constructor; intros H; inversion H
    |exact Hrow|now rewrite Hcol|].
  exists q, (<["id" := VString "1"]> ∅), values, raw. auto.
Defined.

(** ** Loading the configuration *)

Section Loading.

Variable env : gmap string string.

(** A connection that passes [validateAndApplyDefaults] leaves it with the
    three required fields filled and with a port and a row bound that are
    not zero. *)
Lemma validateAndApplyDefaults_valid (name : string) (conn : ConnectionConfig) :
  snd (validateAndApplyDefaults env name conn) = None ->
  let conn' := fst (validateAndApplyDefaults env name conn) in
  Host conn' <> "" /\ User conn' <> "" /\ Database conn' <> "" /\
  Port conn' <> 0%Z /\ MaxRows conn' <> 0%Z.
Proof.
  unfold validateAndApplyDefaults. cbn [Host User Database Port MaxRows].
  destruct (expandEnvVar env (Host conn)) as [|h host]; [discriminate|].
  destruct (expandEnvVar env (User conn)) as [|u user]; [discriminate|].
  destruct (expandEnvVar env (Database conn)) as [|d database];
    [discriminate|].
  intros _. cbn.
  destruct (Z.eqb_spec (Port conn) 0), (Z.eqb_spec (MaxRows conn) 0);
    repeat split; try discriminate; assumption.
Qed.

Lemma applyAll_empty (order : list string) : applyAll env order ∅ = Ok ∅.
Proof.
  induction order as [|n order IH]; [reflexivity|].
  cbn [applyAll]. now rewrite lookup_empty.
Qed.

Lemma applyAll_ok (order : list string)
    (conns conns' : gmap string ConnectionConfig) :
  NoDup order ->
  applyAll env order conns = Ok conns' ->
  (forall name conn,
     In name order -> conns !! name = Some conn ->
     snd (validateAndApplyDefaults env name conn) = None /\
     conns' !! name = Some (fst (validateAndApplyDefaults env name conn))) /\
  (forall name, ~ In name order -> conns' !! name = conns !! name) /\
  (forall name, conns' !! name = None <-> conns !! name = None).
Proof.
  revert conns. induction order as [|n order IH]; intros conns Hnd H.
  - injection H as <-. split; [intros ? ? []|]. split; [reflexivity|tauto].
  - apply NoDup_cons in Hnd as [Hn Hnd]. rewrite list_elem_of_In in Hn.
    cbn [applyAll] in H. destruct (conns !! n) as [c|] eqn:Hc.
    + destruct (validateAndApplyDefaults env n c) as [c' [e|]] eqn:Hv;
        [discriminate H|].
      destruct (IH _ Hnd H) as [H1 [H2 H3]]. split; [|split].
      * intros name conn [<-|Hin] Hl.
        -- rewrite Hc in Hl. injection Hl as <-. rewrite Hv.
           split; [reflexivity|]. rewrite (H2 n Hn). apply lookup_insert_eq.
        -- apply H1; [exact Hin|]. rewrite lookup_insert_ne; [exact Hl|].
           intros ->. contradiction.
      * intros name Hnot. rewrite H2 by (intros Hin; apply Hnot; now right).
        apply lookup_insert_ne. intros ->. apply Hnot. now left.
      * intros name. rewrite H3. destruct (decide (n = name)) as [<-|Hne].
        -- rewrite lookup_insert_eq, Hc. split; discriminate.
        -- now rewrite lookup_insert_ne.
    + destruct (IH _ Hnd H) as [H1 [H2 H3]]. split; [|split].
      * intros name conn [<-|Hin] Hl; [congruence|now apply H1].
      * intros name Hnot. apply H2. intros Hin. apply Hnot. now right.
      * exact H3.
Qed.

Lemma applyAll_total (order : list string)
    (conns : gmap string ConnectionConfig) :
  NoDup order ->
  (forall name conn,
     In name order -> conns !! name = Some conn ->
     snd (validateAndApplyDefaults env name conn) = None) ->
  exists conns', applyAll env order conns = Ok conns'.
Proof.
  revert conns. induction order as [|n order IH]; intros conns Hnd Hall.
  - eexists. reflexivity.
  - apply NoDup_cons in Hnd as [Hn Hnd]. rewrite list_elem_of_In in Hn.
    cbn [applyAll]. destruct (conns !! n) as [c|] eqn:Hc.
    + pose proof (Hall n c (or_introl eq_refl) Hc) as Hv.
      destruct (validateAndApplyDefaults env n c) as [c' [e|]];
        [discriminate Hv|].
      apply IH; [exact Hnd|]. intros name conn Hin Hl.
      apply Hall; [now right|]. rewrite lookup_insert_ne in Hl; [exact Hl|].
      intros ->. contradiction.
    + apply IH; [exact Hnd|]. intros name conn Hin Hl.
      apply Hall; [now right|exact Hl].
Qed.

End Loading.

(** X16: whatever the order in which [LoadConfig] visits the connections:
    it fails with the no-connections error on an empty registry; it succeeds
    on a registry that is not empty and whose connections all pass
    [validateAndApplyDefaults]; and when it succeeds the result has the same
    names, each with its connection as [validateAndApplyDefaults] returns
    it, so that every policy of a loaded configuration has a host, a user
    and a database, a port and a row bound other than zero. *)
Theorem LoadConfig_spec (env : gmap string string) (order : list string)
    (cfg : Config) :
  enumerates order (Connections cfg) ->
  (Connections cfg = ∅ -> LoadConfig env order cfg = Err ErrNoConnections) /\
  (Connections cfg <> ∅ ->
   (forall name conn,
      Connections cfg !! name = Some conn ->
      snd (validateAndApplyDefaults env name conn) = None) ->
   isOk (LoadConfig env order cfg) = true) /\
  (forall cfg',
     LoadConfig env order cfg = Ok cfg' ->
     (forall name,
        Connections cfg' !! name =
        (fun conn => fst (validateAndApplyDefaults env name conn)) <$>
        Connections cfg !! name) /\
     (forall name conn,
        Connections cfg !! name = Some conn ->
        snd (validateAndApplyDefaults env name conn) = None) /\
     (forall name conn',
        Connections cfg' !! name = Some conn' ->
        Host conn' <> "" /\ User conn' <> "" /\ Database conn' <> "" /\
        Port conn' <> 0%Z /\ MaxRows conn' <> 0%Z)).
Proof.
  intros [Hnd Hkeys]. unfold LoadConfig. split; [|split].
  - intros ->. rewrite applyAll_empty.
    destruct (decide (size (∅ : gmap string ConnectionConfig) = 0%nat))
      as [_|Hne]; [reflexivity|].
    now elim Hne.
  - intros Hne Hall.
    destruct (applyAll_total env order (Connections cfg) Hnd) as [conns' H];
      [intros name conn _; apply Hall|].
    rewrite H. destruct (applyAll_ok env _ _ _ Hnd H) as [_ [_ H3]].
    destruct (decide (size conns' = 0%nat)) as [Hz|_]; [|reflexivity].
    exfalso. apply Hne. apply map_size_empty_iff in Hz.
    apply map_empty. intros name. apply H3. rewrite Hz. apply lookup_empty.
  - intros cfg' H.
    destruct (applyAll env order (Connections cfg)) as [conns'|e] eqn:Ha;
      [|discriminate H].
    destruct (decide (size conns' = 0%nat)) as [_|_]; [discriminate H|].
    injection H as <-. cbn [Connections].
    destruct (applyAll_ok env _ _ _ Hnd Ha) as [H1 [_ H3]].
    assert (Hlook : forall name,
      conns' !! name =
      (fun conn => fst (validateAndApplyDefaults env name conn)) <$>
      Connections cfg !! name).
    { intros name. destruct (Connections cfg !! name) as [conn|] eqn:Hc.
      - apply H1; [apply Hkeys; eauto|exact Hc].
      - now apply H3. }
    split; [exact Hlook|]. split.
    + intros name conn Hc. apply H1; [apply Hkeys; eauto|exact Hc].
    + intros name conn' Hc'. rewrite Hlook in Hc'.
      destruct (Connections cfg !! name) as [conn|] eqn:Hc;
        [|discriminate Hc'].
      injection Hc' as <-. apply validateAndApplyDefaults_valid.
      apply H1; [apply Hkeys; eauto|exact Hc].
Qed.

Lemma exampleConfig_order :
  enumerates ["primary"; "replica"] (Connections exampleConfig).
Proof.
  split.
  - repeat constructor; [|intros H; inversion H].
    intros H. apply list_elem_of_In in H. destruct H as [H|[]].
    discriminate H.
  - intros k. split.
    + intros [<-|[<-|[]]]; eexists; reflexivity.
    + intros [conn Hc]. unfold exampleConfig in Hc. cbn in Hc.
      destruct (decide (k = "replica")) as [->|Hr]; [right; now left|].
      rewrite lookup_insert_ne in Hc by congruence.
      destruct (decide (k = "primary")) as [->|Hp]; [now left|].
      rewrite lookup_insert_ne in Hc by congruence.
      rewrite lookup_empty in Hc. discriminate Hc.
Qed.

Lemma LoadConfig_spec_witness :
  isOk (LoadConfig ∅ ["primary"; "replica"] exampleConfig) = true.
Proof.
  apply (proj1 (proj2 (LoadConfig_spec ∅ ["primary"; "replica"] exampleConfig
                         exampleConfig_order))).
  - intros H. apply (f_equal (fun m => m !! "primary")) in H.
    vm_compute in H. discriminate H.
  - intros name conn Hc.
    destruct (decide (name = "replica")) as [->|Hr].
    { vm_compute in Hc. injection Hc as <-. reflexivity. }
    destruct (decide (name = "primary")) as [->|Hp].
    { vm_compute in Hc. injection Hc as <-. reflexivity. }
    unfold exampleConfig in Hc. cbn in Hc.
    rewrite !lookup_insert_ne in Hc by congruence.
    rewrite lookup_empty in Hc. discriminate Hc.
Defined.

(** X17: [GetConfigPath] never returns the empty string: it is the flag
    when the flag is given, else the variable [MYSQL_MCP_CONFIG] when it is
    set and not empty, else [./config.json]. *)
Theorem GetConfigPath_spec (env : gmap string string) (flagValue : string) :
  GetConfigPath env flagValue <> "" /\
  (flagValue <> "" -> GetConfigPath env flagValue = flagValue) /\
  (flagValue = "" ->
   forall envPath,
     env !! "MYSQL_MCP_CONFIG" = Some envPath -> envPath <> "" ->
     GetConfigPath env flagValue = envPath) /\
  (flagValue = "" ->
   env !! "MYSQL_MCP_CONFIG" = None \/ env !! "MYSQL_MCP_CONFIG" = Some "" ->
   GetConfigPath env flagValue = "./config.json").
Proof.
  unfold GetConfigPath, Getenv.
  destruct flagValue as [|f flag]; cbn [isEmpty negb].
  - destruct (env !! "MYSQL_MCP_CONFIG") as [[|p path]|]; cbn;
      repeat split; try discriminate; try congruence;
      try (intros _ ? [= <-] ?; congruence);
      try (intros _ [H|H]; discriminate H).
  - repeat split; discriminate.
Qed.

Lemma GetConfigPath_spec_witness :
  GetConfigPath (<["MYSQL_MCP_CONFIG" := "/etc/mcp.json"]> ∅) "" =
  "/etc/mcp.json".
Proof.
  apply (proj1 (proj2 (proj2 (GetConfigPath_spec
           (<["MYSQL_MCP_CONFIG" := "/etc/mcp.json"]> ∅) ""))) eq_refl);
    [reflexivity|discriminate].
Defined.

(** ** What reaches the server *)

Section Sent.

Context {W : Type}.
Variable drv : Driver W.
Variable cfg : Config.

Lemma quietly_refl (m : Manager W) : quietly m m.
Proof. exists []. split; [now rewrite app_nil_r|reflexivity]. Qed.

Lemma quietly_trans (m1 m2 m3 : Manager W) :
  quietly m1 m2 -> quietly m2 m3 -> quietly m1 m3.
Proof.
  intros [c1 [H1 S1]] [c2 [H2 S2]]. exists (c1 ++ c2)%list.
  split; [now rewrite H2, H1, app_assoc|].
  unfold statements in *. now rewrite filter_app, S1, S2.
Qed.

Lemma quietly_step (m : Manager W) (w : W) (c : call) :
  isStatement c = false ->
  quietly m {| world := w; connections := connections m;
               trace := (trace m ++ [c])%list |}.
Proof.
  intros Hc. exists [c]. split; [reflexivity|].
  unfold statements. cbn. now rewrite Hc.
Qed.

Lemma quietly_statements (m m' : Manager W) :
  quietly m m' -> statements (trace m') = statements (trace m).
Proof.
  intros [calls [-> Hs]]. unfold statements in *.
  now rewrite filter_app, Hs, app_nil_r.
Qed.

Lemma openConnection_quiet name c (m : Manager W) :
  quietly m (snd (openConnection drv name c m)).
Proof.
  destruct (openConnection_cases drv name c m)
    as [[cause [w ->]]|[[db [cause [w ->]]]|[db [w ->]]]]; cbn [snd];
    eexists; (split; [reflexivity|reflexivity]).
Qed.

Lemma reconnect_quiet name c (m : Manager W) :
  quietly m (snd (reconnect drv name c m)).
Proof.
  unfold reconnect, lookupConnection. rewrite bind_run.
  destruct (connections m !! name) as [db|]; [|apply openConnection_quiet].
  rewrite bind_run. unfold Ping. rewrite perform_run.
  destruct (fst (sqlPing drv db (world m))) as [cause|].
  - rewrite bind_run. unfold Close. rewrite perform_run. cbn [fst snd].
    eapply quietly_trans; [|apply openConnection_quiet].
    eapply quietly_trans.
    { apply (quietly_step m (snd (sqlPing drv db (world m))) (CallPing db)).
      reflexivity. }
    apply (quietly_step
             {| world := snd (sqlPing drv db (world m));
                connections := connections m;
                trace := (trace m ++ [CallPing db])%list |}
             _ (CallClose db)).
    reflexivity.
  - apply quietly_step. reflexivity.
Qed.

Lemma GetConnection_quiet name (m : Manager W) :
  quietly m (snd (GetConnection drv cfg name m)).
Proof.
  unfold GetConnection.
  destruct (Connections cfg !! name) as [c|]; [|apply quietly_refl].
  unfold lookupConnection. rewrite bind_run.
  destruct (connections m !! name) as [db|]; [|apply reconnect_quiet].
  rewrite bind_run. unfold Ping. rewrite perform_run.
  destruct (fst (sqlPing drv db (world m))) as [cause|].
  - rewrite bind_run. unfold Close. rewrite perform_run. cbn [fst snd].
    eapply quietly_trans; [|apply reconnect_quiet].
    eapply quietly_trans.
    { apply (quietly_step m (snd (sqlPing drv db (world m))) (CallPing db)).
      reflexivity. }
    apply (quietly_step
             {| world := snd (sqlPing drv db (world m));
                connections := connections m;
                trace := (trace m ++ [CallPing db])%list |}
             _ (CallClose db)).
    reflexivity.
  - apply quietly_step. reflexivity.
Qed.

Lemma sends_nothing (m m1 : Manager W) : quietly m m1 -> sends m m1 [].
Proof.
  intros H. unfold sends. now rewrite (quietly_statements _ _ H), app_nil_r.
Qed.

Lemma sends_one (m m1 : Manager W) (w : W) (c : call) :
  quietly m m1 -> isStatement c = true ->
  sends m {| world := w; connections := connections m1;
             trace := (trace m1 ++ [c])%list |} [c].
Proof.
  intros H Hc. unfold sends. cbn [trace]. unfold statements in *.
  rewrite filter_app. fold (statements (trace m1)).
  rewrite (quietly_statements _ _ H). cbn. now rewrite Hc.
Qed.

(** What each mode sends after the resolution, with the conditions under
    which it sends it. *)
Lemma queryWith_sends name sql db c (m m1 : Manager W) :
  quietly m m1 ->
  sends m (snd (queryWith drv name sql db c m1)) [] \/
  (sends m (snd (queryWith drv name sql db c m1)) [CallQuery db sql] /\
   (ReadOnly c = true -> isReadOnlyQuery sql = true) /\
   (ReadOnly c = false -> isDangerousQuery sql = false) /\
   isSensitiveQuery sql = false).
Proof.
  intros Hq. unfold queryWith.
  destruct (ReadOnly c) eqn:Hro, (isReadOnlyQuery sql) eqn:Hr,
           (isDangerousQuery sql) eqn:Hd, (isSensitiveQuery sql) eqn:Hs;
    cbn [andb negb];
    try (left; now apply sends_nothing);
    right; rewrite Query_run;
    (split; [|repeat split; congruence]);
    destruct (fst (sqlQuery drv db sql (world m1)));
    now apply sends_one.
Qed.

Lemma writeWith_sends name sql allowedTypes db c (m m1 : Manager W) :
  quietly m m1 ->
  sends m (snd (writeWith drv name sql allowedTypes db c m1)) [] \/
  (sends m (snd (writeWith drv name sql allowedTypes db c m1))
         [CallExec db sql] /\
   ReadOnly c = false /\
   IsDangerousQueryType (DetectQueryType sql) = false /\
   isSensitiveQuery sql = false /\
   (allowedTypes = [] \/ In (DetectQueryType sql) allowedTypes)).
Proof.
  intros Hq. unfold writeWith.
  destruct (if (0 <? length allowedTypes)%nat
            then ValidateQueryType sql allowedTypes else None) as [e|] eqn:Hv;
    [left; now apply sends_nothing|].
  assert (allowedTypes = [] \/ In (DetectQueryType sql) allowedTypes) as Hok.
  { destruct allowedTypes as [|t ts]; [now left|right].
    cbn [length Nat.ltb Nat.leb] in Hv. unfold ValidateQueryType in Hv.
    destruct (existsb _ (t :: ts)) eqn:He; [|discriminate Hv].
    apply existsb_exists in He as [t' [Hin Heq]].
    apply QueryType_eqb_eq in Heq. now subst t'. }
  destruct (ReadOnly c); [left; now apply sends_nothing|].
  destruct (IsDangerousQueryType (DetectQueryType sql));
    [left; now apply sends_nothing|].
  destruct (isSensitiveQuery sql); [left; now apply sends_nothing|].
  right. rewrite Exec_run. split; [|auto].
  destruct (fst (sqlExec drv db sql (world m1))); now apply sends_one.
Qed.

Lemma alterWith_sends name sql db c (m m1 : Manager W) :
  quietly m m1 ->
  sends m (snd (alterWith drv name sql db c m1)) [] \/
  (sends m (snd (alterWith drv name sql db c m1)) [CallExec db sql] /\
   ReadOnly c = false /\
   DetectQueryType sql = QueryTypeAlter /\
   firstBlocked (ToUpper (TrimSpace sql)) = None /\
   isSensitiveQuery sql = false).
Proof.
  intros Hq. unfold alterWith, ValidateQueryType.
  cbn [existsb map Join]. rewrite orb_false_r.
  destruct (QueryType_eqb (DetectQueryType sql) QueryTypeAlter) eqn:Heq;
    [|left; now apply sends_nothing].
  apply QueryType_eqb_eq in Heq.
  destruct (ReadOnly c); [left; now apply sends_nothing|].
  destruct (firstBlocked (ToUpper (TrimSpace sql)));
    [left; now apply sends_nothing|].
  destruct (isSensitiveQuery sql); [left; now apply sends_nothing|].
  right. rewrite Exec_run. split; [|auto].
  destruct (fst (sqlExec drv db sql (world m1))); now apply sends_one.
Qed.

Lemma unsafeWith_sends name sql db c (m m1 : Manager W) :
  quietly m m1 ->
  sends m (snd (unsafeWith drv name sql db c m1)) [] \/
  (sends m (snd (unsafeWith drv name sql db c m1)) [CallQuery db sql] /\
   IsReadOnlyQueryType (DetectQueryType sql) = true) \/
  (sends m (snd (unsafeWith drv name sql db c m1)) [CallExec db sql] /\
   IsReadOnlyQueryType (DetectQueryType sql) = false /\
   ReadOnly c = false).
Proof.
  intros Hq. unfold unsafeWith.
  destruct (ReadOnly c) eqn:Hro,
           (IsReadOnlyQueryType (DetectQueryType sql)) eqn:Ht;
    cbn [andb negb].
  - right. left. split; [|reflexivity]. rewrite Query_run.
    destruct (fst (sqlQuery drv db sql (world m1))) as [rows|];
      [destruct (collectRows (MaxRows c) rows)|]; now apply sends_one.
  - left. now apply sends_nothing.
  - right. left. split; [|reflexivity]. rewrite Query_run.
    destruct (fst (sqlQuery drv db sql (world m1))) as [rows|];
      [destruct (collectRows (MaxRows c) rows)|]; now apply sends_one.
  - right. right. split; [|auto]. rewrite Exec_run.
    destruct (fst (sqlExec drv db sql (world m1))); now apply sends_one.
Qed.

(** The resolution at the head of a mode, with what it tells of the
    result. *)
Lemma resolved_or_not name (m : Manager W) :
  (exists e m1, GetConnection drv cfg name m = (Err e, m1) /\ quietly m m1) \/
  (exists db c m1,
     GetConnection drv cfg name m = (Ok (db, c), m1) /\ quietly m m1 /\
     Connections cfg !! name = Some c).
Proof.
  pose proof (GetConnection_quiet name m) as Hq.
  destruct (GetConnection_outcome drv cfg name m) as [_ [Hok Hun]].
  destruct (GetConnection drv cfg name m) as [[[db c]|e] m1] eqn:Hg.
  - right. exists db, c, m1. split; [reflexivity|]. split; [exact Hq|].
    destruct (Connections cfg !! name) as [c0|] eqn:Hc.
    + destruct (Hok c0 eq_refl db c eq_refl) as [-> _]. reflexivity.
    + specialize (Hun eq_refl). discriminate Hun.
  - left. exists e, m1. auto.
Qed.

End Sent.

(** A statement of dangerous type is dangerous by its text and is not
    read-only by its text. *)
Lemma dangerous_type_facts (sql : string) :
  IsDangerousQueryType (DetectQueryType sql) = true ->
  isDangerousQuery sql = true /\ isReadOnlyQuery sql = false.
Proof.
  unfold isDangerousQuery, isReadOnlyQuery, DetectQueryType, anyPrefix.
  cbv zeta. generalize (TrimSpace (ToUpper sql)). intros q.
  cbn [existsb].
  destruct (prefix_cases q) as [[p [t [rest [Hin ->]]]]|[Hu Hn]].
  - simpl in Hin.
    repeat (destruct Hin as [Hin|Hin];
            [injection Hin as <- <-; intros H;
             first [discriminate H|split; reflexivity]|]).
    contradiction.
  - rewrite Hu. discriminate.
Qed.

(** X18: [GetConnection] talks to the driver only to open, configure, probe
    and close handles: the trace grows by such calls and by no statement,
    whether the resolution succeeds or not. *)
Theorem GetConnection_sends_no_statement {W : Type} (drv : Driver W)
    (cfg : Config) (name : string) (m : Manager W) :
  exists calls,
    trace (snd (GetConnection drv cfg name m)) = (trace m ++ calls)%list /\
    (forall c, In c calls ->
       match c with
       | CallQuery _ _ | CallExec _ _ => False
       | _ => True
       end) /\
    statements (trace (snd (GetConnection drv cfg name m))) =
    statements (trace m).
Proof.
  pose proof (GetConnection_quiet drv cfg name m) as Hq.
  pose proof (quietly_statements _ _ Hq) as Hs.
  destruct Hq as [calls [Ht Hc]]. exists calls.
  split; [exact Ht|]. split; [|exact Hs].
  intros c Hin. destruct c; try exact I.
  - assert (CallQuery db query ∈ statements calls) as H
      by (apply list_elem_of_filter; split;
          [exact I|now apply list_elem_of_In]).
    rewrite Hc in H. inversion H.
  - assert (CallExec db query ∈ statements calls) as H
      by (apply list_elem_of_filter; split;
          [exact I|now apply list_elem_of_In]).
    rewrite Hc in H. inversion H.
Qed.

(** X19: a read-only connection receives read-only statements only,
    whatever mode is called with whatever statement: [ExecuteWrite] and
    [ExecuteAlter] send nothing, and what [ExecuteQuery] or [ExecuteUnsafe]
    sends is one query, of a text that [isReadOnlyQuery] accepts. *)
Theorem read_only_connection_safety {W : Type} (drv : Driver W) (cfg : Config)
    (name sql : string) (allowedTypes : list QueryType)
    (c : ConnectionConfig) (m : Manager W) :
  Connections cfg !! name = Some c ->
  ReadOnly c = true ->
  (sends m (snd (ExecuteQuery drv cfg name sql m)) [] \/
   exists db,
     sends m (snd (ExecuteQuery drv cfg name sql m)) [CallQuery db sql] /\
     isReadOnlyQuery sql = true /\ isSensitiveQuery sql = false) /\
  sends m (snd (ExecuteWrite drv cfg name sql allowedTypes m)) [] /\
  sends m (snd (ExecuteAlter drv cfg name sql m)) [] /\
  (sends m (snd (ExecuteUnsafe drv cfg name sql m)) [] \/
   exists db,
     sends m (snd (ExecuteUnsafe drv cfg name sql m)) [CallQuery db sql] /\
     IsReadOnlyQueryType (DetectQueryType sql) = true /\
     isReadOnlyQuery sql = true).
Proof.
  intros Hc Hro.
  unfold ExecuteQuery, ExecuteWrite, ExecuteAlter, ExecuteUnsafe.
  rewrite !bind_run.
  destruct (resolved_or_not drv cfg name m)
    as [[e [m1 [-> Hq]]]|[db [c' [m1 [-> [Hq Hc']]]]]].
  - cbn [snd]. repeat split; try left; now apply sends_nothing.
  - rewrite Hc in Hc'. injection Hc' as <-. split; [|split; [|split]].
    + destruct (queryWith_sends drv name sql db c m m1 Hq)
        as [H|[H [H1 [_ H3]]]]; [now left|right].
      exists db. auto.
    + destruct (writeWith_sends drv name sql allowedTypes db c m m1 Hq)
        as [H|[_ [H _]]]; [exact H|congruence].
    + destruct (alterWith_sends drv name sql db c m m1 Hq)
        as [H|[_ [H _]]]; [exact H|congruence].
    + destruct (unsafeWith_sends drv name sql db c m m1 Hq)
        as [H|[[H Ht]|[_ [_ H]]]]; [now left| |congruence].
      right. exists db. split; [exact H|]. split; [exact Ht|].
      now apply IsReadOnlyQueryType_isReadOnlyQuery.
Qed.

Lemma read_only_connection_safety_witness :
  sends (NewManager 0%nat)
    (snd (ExecuteAlter (scripted (upServer (idRows 3))) exampleConfig "replica"
            "ALTER TABLE t ADD COLUMN y INT" (NewManager 0%nat))) [].
Proof.
  apply (read_only_connection_safety (scripted (upServer (idRows 3)))
           exampleConfig "replica" "ALTER TABLE t ADD COLUMN y INT" []
           (exampleConnection true 1000) (NewManager 0%nat));
    reflexivity.
Defined.

(** X20: a sensitive statement, and a statement whose detected type is
    DROP, TRUNCATE, CREATE, GRANT or REVOKE, is sent by none of
    [ExecuteQuery], [ExecuteWrite] and [ExecuteAlter], on any connection and
    with any list of allowed types. *)
Theorem blocked_statements_never_sent {W : Type} (drv : Driver W)
    (cfg : Config) (name sql : string) (allowedTypes : list QueryType)
    (m : Manager W) :
  isSensitiveQuery sql = true \/
  IsDangerousQueryType (DetectQueryType sql) = true ->
  sends m (snd (ExecuteQuery drv cfg name sql m)) [] /\
  sends m (snd (ExecuteWrite drv cfg name sql allowedTypes m)) [] /\
  sends m (snd (ExecuteAlter drv cfg name sql m)) [].
Proof.
  intros Hbad.
  unfold ExecuteQuery, ExecuteWrite, ExecuteAlter. rewrite !bind_run.
  destruct (resolved_or_not drv cfg name m)
    as [[e [m1 [-> Hq]]]|[db [c [m1 [-> [Hq Hc]]]]]].
  - cbn [snd]. repeat split; now apply sends_nothing.
  - split; [|split].
    + destruct (queryWith_sends drv name sql db c m m1 Hq)
        as [H|[_ [H1 [H2 H3]]]]; [exact H|exfalso].
      destruct Hbad as [Hs|Hd]; [congruence|].
      destruct (dangerous_type_facts sql Hd) as [Hdt Hrt].
      destruct (ReadOnly c); [rewrite H1 in Hrt|rewrite H2 in Hdt];
        (reflexivity || discriminate).
    + destruct (writeWith_sends drv name sql allowedTypes db c m m1 Hq)
        as [H|[_ [_ [H2 [H3 _]]]]]; [exact H|exfalso].
      destruct Hbad; congruence.
    + destruct (alterWith_sends drv name sql db c m m1 Hq)
        as [H|[_ [_ [H2 [_ H4]]]]]; [exact H|exfalso].
      destruct Hbad as [Hs|Hd]; [congruence|].
      rewrite H2 in Hd. discriminate Hd.
Qed.

Lemma blocked_statements_never_sent_witness :
  sends (NewManager 0%nat)
    (snd (ExecuteWrite (scripted (upServer (idRows 3))) exampleConfig "primary"
            "DROP TABLE t" [] (NewManager 0%nat))) [].
Proof.
  apply (blocked_statements_never_sent (scripted (upServer (idRows 3)))
           exampleConfig "primary" "DROP TABLE t" [] (NewManager 0%nat)).
  right. reflexivity.
Defined.

(** X21: a call of a mode sends at most one statement and never tries
    again: [ExecuteQuery] the given text as a query, [ExecuteWrite] and
    [ExecuteAlter] the given text as an exec, [ExecuteUnsafe] the given text
    as a query when its detected type is read-only and as an exec when it
    is not. *)
Theorem modes_send_at_most_once {W : Type} (drv : Driver W) (cfg : Config)
    (name sql : string) (allowedTypes : list QueryType) (m : Manager W) :
  (sends m (snd (ExecuteQuery drv cfg name sql m)) [] \/
   exists db,
     sends m (snd (ExecuteQuery drv cfg name sql m)) [CallQuery db sql]) /\
  (sends m (snd (ExecuteWrite drv cfg name sql allowedTypes m)) [] \/
   exists db,
     sends m (snd (ExecuteWrite drv cfg name sql allowedTypes m))
           [CallExec db sql]) /\
  (sends m (snd (ExecuteAlter drv cfg name sql m)) [] \/
   exists db,
     sends m (snd (ExecuteAlter drv cfg name sql m)) [CallExec db sql]) /\
  (sends m (snd (ExecuteUnsafe drv cfg name sql m)) [] \/
   exists db,
     sends m (snd (ExecuteUnsafe drv cfg name sql m))
           [if IsReadOnlyQueryType (DetectQueryType sql)
            then CallQuery db sql else CallExec db sql]).
Proof.
  unfold ExecuteQuery, ExecuteWrite, ExecuteAlter, ExecuteUnsafe.
  rewrite !bind_run.
  destruct (resolved_or_not drv cfg name m)
    as [[e [m1 [-> Hq]]]|[db [c [m1 [-> [Hq Hc]]]]]].
  - cbn [snd]. repeat split; left; now apply sends_nothing.
  - split; [|split; [|split]].
    + destruct (queryWith_sends drv name sql db c m m1 Hq) as [H|[H _]];
        [now left|right; eauto].
    + destruct (writeWith_sends drv name sql allowedTypes db c m m1 Hq)
        as [H|[H _]]; [now left|right; eauto].
    + destruct (alterWith_sends drv name sql db c m m1 Hq) as [H|[H _]];
        [now left|right; eauto].
    + destruct (unsafeWith_sends drv name sql db c m m1 Hq)
        as [H|[[H Ht]|[H [Ht _]]]]; [now left| |];
        right; exists db; now rewrite Ht.
Qed.

(** ** The handlers *)

Lemma missing_false (args : gmap string argument) (key : string) :
  missing (stringArgument args key) = false <->
  exists s, args !! key = Some (ArgString s) /\ s <> "".
Proof.
  unfold missing, stringArgument.
  destruct (args !! key) as [[s|]|]; cbn.
  - destruct s; cbn; split.
    + discriminate.
    + intros [s [[= <-] H]]. now elim H.
    + intros _. eexists. split; [reflexivity|discriminate].
    + reflexivity.
  - split; [discriminate|]. intros [s [H _]]. discriminate H.
  - split; [discriminate|]. intros [s [H _]]. discriminate H.
Qed.

(** X22: every handler asks for its required parameters before anything
    else: when [connection] is absent, is no string or is empty the answer is
    the error [connection parameter is required], and likewise for [sql]
    and [table] after it; in these cases the manager is not touched.  A
    parameter is there when it is a string that is not empty. *)
Theorem required_parameters {W : Type} (drv : Driver W) (cfg : Config)
    (json : Json) (visit : gmap string value -> list (string * value))
    (allowedTypes : list QueryType) (order : list string)
    (args : gmap string argument) (m : Manager W) :
  let noConnection := (ToolResultError "connection parameter is required", m) in
  let noSql := (ToolResultError "sql parameter is required", m) in
  let noTable := (ToolResultError "table parameter is required", m) in
  (missing (stringArgument args "connection") = true ->
   mysql_select drv cfg json args m = noConnection /\
   mysql_query drv cfg json args m = noConnection /\
   writeTool drv cfg json allowedTypes args m = noConnection /\
   mysql_alter drv cfg json args m = noConnection /\
   mysql_execute_unsafe drv cfg json args m = noConnection /\
   list_databases drv cfg json visit args m = noConnection /\
   list_tables drv cfg json visit args m = noConnection /\
   describe_table drv cfg json args m = noConnection /\
   get_indexes drv cfg json order args m = noConnection) /\
  (missing (stringArgument args "connection") = false ->
   missing (stringArgument args "sql") = true ->
   mysql_select drv cfg json args m = noSql /\
   mysql_query drv cfg json args m = noSql /\
   writeTool drv cfg json allowedTypes args m = noSql /\
   mysql_alter drv cfg json args m = noSql /\
   mysql_execute_unsafe drv cfg json args m = noSql) /\
  (missing (stringArgument args "connection") = false ->
   missing (stringArgument args "table") = true ->
   describe_table drv cfg json args m = noTable /\
   get_indexes drv cfg json order args m = noTable) /\
  (forall key,
     missing (stringArgument args key) = false <->
     exists s, args !! key = Some (ArgString s) /\ s <> "").
Proof.
  cbv zeta. split; [|split; [|split]].
  - intros Hc.
    unfold mysql_select, mysql_query, writeTool, mysql_alter,
      mysql_execute_unsafe, list_databases, list_tables, describe_table,
      get_indexes.
    rewrite Hc. repeat split.
  - intros Hc Hs.
    unfold mysql_select, mysql_query, writeTool, mysql_alter,
      mysql_execute_unsafe.
    rewrite Hc, Hs. repeat split.
  - intros Hc Ht. unfold describe_table, get_indexes.
    rewrite Hc, Ht. repeat split.
  - intros key. apply missing_false.
Qed.

Lemma required_parameters_witness :
  mysql_insert (scripted (upServer (idRows 3))) exampleConfig (constJson "{}")
    (<["connection" := ArgString "primary"]> (<["sql" := ArgOther]> ∅))
    (NewManager 0%nat) =
  (ToolResultError "sql parameter is required", NewManager 0%nat).
Proof.
  destruct (required_parameters
              (scripted (upServer (idRows 3))) exampleConfig (constJson "{}")
              (fun row => map_to_list row) [QueryTypeInsert] []
              (<["connection" := ArgString "primary"]>
                 (<["sql" := ArgOther]> ∅))
              (NewManager 0%nat)) as [_ [H _]].
  destruct H as [_ [_ [H _]]]; [reflexivity|reflexivity|exact H].
Defined.

(** X23: [mysql_select] refuses a statement whose detected type is not
    SELECT with the type mismatch, before the connection is resolved: the
    manager is not touched.  On a statement of type SELECT it is the
    deprecated [mysql_query]; and such a statement is refused by neither the
    read-only nor the dangerous gate of [ExecuteQuery], on any
    connection. *)
Theorem mysql_select_spec {W : Type} (drv : Driver W) (cfg : Config)
    (json : Json) (args : gmap string argument) (m : Manager W)
    (connection sql : string) :
  args !! "connection" = Some (ArgString connection) -> connection <> "" ->
  args !! "sql" = Some (ArgString sql) -> sql <> "" ->
  (DetectQueryType sql <> QueryTypeSelect ->
   mysql_select drv cfg json args m =
   (ToolResultError
      (Error (ErrTypeMismatch "SELECT"
                (GetQueryTypeLabel (DetectQueryType sql)))), m)) /\
  (DetectQueryType sql = QueryTypeSelect ->
   mysql_select drv cfg json args m = mysql_query drv cfg json args m /\
   fst (ExecuteQuery drv cfg connection sql m) <> Err (ErrReadOnly connection) /\
   fst (ExecuteQuery drv cfg connection sql m) <> Err ErrDangerousQuery).
Proof.
  intros Hc Hcne Hs Hsne.
  assert (missing (stringArgument args "connection") = false) as Hmc
    by (apply missing_false; eauto).
  assert (missing (stringArgument args "sql") = false) as Hms
    by (apply missing_false; eauto).
  unfold mysql_select, mysql_query. rewrite Hmc, Hms.
  unfold stringArgument. rewrite Hc, Hs. cbn [fst].
  unfold ValidateQueryType. cbn [existsb map Join]. rewrite orb_false_r.
  destruct (QueryType_eqb (DetectQueryType sql) QueryTypeSelect) eqn:Heq.
  - apply QueryType_eqb_eq in Heq. split; [intros H; now elim H|].
    intros _. split; [reflexivity|].
    assert (isReadOnlyQuery sql = true) as Hro
      by (apply IsReadOnlyQueryType_isReadOnlyQuery; now rewrite Heq).
    destruct (text_and_type_facts sql) as [Hsafe _].
    specialize (Hsafe Hro).
    destruct (GetConnection drv cfg connection m) as [[[db c]|e] m1] eqn:Hg.
    + rewrite (ExecuteQuery_resolved drv cfg _ _ _ _ _ _ Hg).
      unfold queryWith. rewrite Hro, Hsafe, !andb_false_r.
      destruct (isSensitiveQuery sql); [split; discriminate|].
      rewrite Query_run.
      destruct (fst (sqlQuery drv db sql (world m1))) as [rows|cause];
        [|split; discriminate].
      cbn [fst]. unfold ret. cbn [fst].
      destruct (collectRows (MaxRows c) rows) as [q|e] eqn:Hcr;
        [split; discriminate|].
      apply collectRows_error in Hcr as [cause [->| ->]]; split; discriminate.
    + rewrite (ExecuteQuery_unresolved drv cfg _ _ _ _ _ Hg). cbn [fst].
      destruct (GetConnection_outcome drv cfg connection m) as [Herr _].
      rewrite Hg in Herr.
      destruct (Herr e eq_refl) as [->|[cause [->| ->]]]; split; discriminate.
  - split; [reflexivity|]. intros H. rewrite H in Heq. discriminate Heq.
Qed.

Lemma mysql_select_spec_witness :
  mysql_select (scripted (upServer (idRows 3))) exampleConfig (constJson "{}")
    (<["connection" := ArgString "primary"]>
       (<["sql" := ArgString "SHOW TABLES"]> ∅)) (NewManager 0%nat) =
  (ToolResultError
     "query type mismatch: expected SELECT, got SHOW. Use the appropriate tool for this query type",
   NewManager 0%nat).
Proof.
  destruct (mysql_select_spec (scripted (upServer (idRows 3)))
              exampleConfig (constJson "{}")
              (<["connection" := ArgString "primary"]>
                 (<["sql" := ArgString "SHOW TABLES"]> ∅))
              (NewManager 0%nat) "primary" "SHOW TABLES") as [H _];
    [reflexivity|discriminate|reflexivity|discriminate|].
  apply H. discriminate.
Defined.

(** X24: the statements that the schema handlers build pass the read-only
    and the dangerous gate of [ExecuteQuery] on every connection, whatever
    the database and table names are: their detected types are SHOW and
    DESCRIBE. *)
Theorem schema_queries_pass_gates (database table : string) :
  let queries := ["SHOW DATABASES"; listTablesQuery database;
                  describeTableQuery database table;
                  showIndexQuery database table] in
  DetectQueryType "SHOW DATABASES" = QueryTypeShow /\
  DetectQueryType (listTablesQuery database) = QueryTypeShow /\
  DetectQueryType (describeTableQuery database table) = QueryTypeDescribe /\
  DetectQueryType (showIndexQuery database table) = QueryTypeShow /\
  forall query,
    In query queries ->
    isReadOnlyQuery query = true /\ isDangerousQuery query = false.
Proof.
  cbv zeta.
  assert (Hshow : forall rest, DetectQueryType (cat "SHOW" rest) = QueryTypeShow).
  { intros rest.
    apply (DetectQueryType_keyword "SHOW" QueryTypeShow "" "SHOW" rest);
      [simpl; tauto|reflexivity|reflexivity]. }
  assert (Hdesc : forall rest,
            DetectQueryType (cat "DESCRIBE" rest) = QueryTypeDescribe).
  { intros rest.
    apply (DetectQueryType_keyword "DESCRIBE" QueryTypeDescribe "" "DESCRIBE"
             rest); [simpl; tauto|reflexivity|reflexivity]. }
  assert (H1 : DetectQueryType "SHOW DATABASES" = QueryTypeShow)
    by reflexivity.
  assert (H2 : DetectQueryType (listTablesQuery database) = QueryTypeShow).
  { unfold listTablesQuery. destruct (negb (isEmpty database));
      [|reflexivity].
    apply (Hshow (cats [" TABLES FROM `"; database; "`"])). }
  assert (H3 : DetectQueryType (describeTableQuery database table) =
               QueryTypeDescribe).
  { unfold describeTableQuery. destruct (negb (isEmpty database)).
    - apply (Hdesc (cats [" `"; database; "`.`"; table; "`"])).
    - apply (Hdesc (cats [" `"; table; "`"])). }
  assert (H4 : DetectQueryType (showIndexQuery database table) =
               QueryTypeShow).
  { unfold showIndexQuery. destruct (negb (isEmpty database)).
    - apply (Hshow (cats [" INDEX FROM `"; database; "`.`"; table; "`"])).
    - apply (Hshow (cats [" INDEX FROM `"; table; "`"])). }
  repeat (split; [assumption|]).
  assert (Hgate : forall query,
            IsReadOnlyQueryType (DetectQueryType query) = true ->
            isReadOnlyQuery query = true /\ isDangerousQuery query = false).
  { intros query Ht.
    assert (isReadOnlyQuery query = true) as Hro
      by now apply IsReadOnlyQueryType_isReadOnlyQuery.
    split; [exact Hro|]. now apply text_and_type_facts. }
  intros query [<-|[<-|[<-|[<-|[]]]]]; apply Hgate.
  - now rewrite H1.
  - now rewrite H2.
  - now rewrite H3.
  - now rewrite H4.
Qed.

Lemma schema_queries_pass_gates_witness :
  isReadOnlyQuery (describeTableQuery "shop" "orders`; DROP TABLE x; --") = true.
Proof.
  apply (proj2 (proj2 (proj2 (proj2 (schema_queries_pass_gates "shop"
           "orders`; DROP TABLE x; --"))))).
  simpl. tauto.
Defined.

Section WriteTools.

Context {W : Type}.
Variable drv : Driver W.
Variable cfg : Config.

Lemma ExecuteWrite_sends name sql allowedTypes (m : Manager W) :
  sends m (snd (ExecuteWrite drv cfg name sql allowedTypes m)) [] \/
  exists db c,
    Connections cfg !! name = Some c /\
    sends m (snd (ExecuteWrite drv cfg name sql allowedTypes m))
          [CallExec db sql] /\
    ReadOnly c = false /\
    IsDangerousQueryType (DetectQueryType sql) = false /\
    isSensitiveQuery sql = false /\
    (allowedTypes = [] \/ In (DetectQueryType sql) allowedTypes).
Proof.
  unfold ExecuteWrite. rewrite bind_run.
  destruct (resolved_or_not drv cfg name m)
    as [[e [m1 [-> Hq]]]|[db [c [m1 [-> [Hq Hc]]]]]].
  - left. now apply sends_nothing.
  - destruct (writeWith_sends drv name sql allowedTypes db c m m1 Hq)
      as [H|H]; [now left|right]. exists db, c. tauto.
Qed.

End WriteTools.

(** X25: a write tool runs a statement of its own types only: whatever the
    arguments and the state of the manager, [mysql_insert], [mysql_update],
    [mysql_delete] and [mysql_execute] send nothing, or send the [sql]
    argument once, as an exec, on a writable connection, and then its
    detected type is INSERT for the first, UPDATE for the second, DELETE for
    the third and one of the three for the last. *)
Theorem write_tools_send_their_types {W : Type} (drv : Driver W)
    (cfg : Config) (json : Json) (allowedTypes : list QueryType)
    (args : gmap string argument) (m : Manager W) :
  In allowedTypes
     [[QueryTypeInsert]; [QueryTypeUpdate]; [QueryTypeDelete];
      [QueryTypeInsert; QueryTypeUpdate; QueryTypeDelete]] ->
  sends m (snd (writeTool drv cfg json allowedTypes args m)) [] \/
  exists db connection sql c,
    args !! "connection" = Some (ArgString connection) /\
    args !! "sql" = Some (ArgString sql) /\
    Connections cfg !! connection = Some c /\ ReadOnly c = false /\
    sends m (snd (writeTool drv cfg json allowedTypes args m))
          [CallExec db sql] /\
    In (DetectQueryType sql) allowedTypes /\
    isSensitiveQuery sql = false.
Proof.
  intros Htypes. unfold writeTool.
  destruct (missing (stringArgument args "connection")) eqn:Hmc.
  { left. apply sends_nothing, quietly_refl. }
  destruct (missing (stringArgument args "sql")) eqn:Hms.
  { left. apply sends_nothing, quietly_refl. }
  apply missing_false in Hmc as [connection [Hc _]].
  apply missing_false in Hms as [sql [Hs _]].
  unfold stringArgument. rewrite Hc, Hs. cbn [fst]. rewrite bind_run.
  assert (Hsnd : forall r : res error WriteResult * Manager W,
    snd (let (a, m') := r in
         match a with
         | Ok writeResult =>
             ret (formatResult (jsonWriteResult json writeResult))
         | Err err => ret (ToolResultError (Error err))
         end m') = snd r)
    by (intros [[w|e] m']; reflexivity).
  rewrite Hsnd.
  destruct (ExecuteWrite_sends drv cfg connection sql allowedTypes m)
    as [H|[db [c [Hcfg [H [Hrw [_ [Hsens Hok]]]]]]]]; [now left|right].
  exists db, connection, sql, c. repeat split; try assumption.
  destruct Hok as [->|Hin]; [|exact Hin].
  simpl in Htypes. destruct Htypes as [H0|[H0|[H0|[H0|[]]]]]; discriminate H0.
Qed.

Lemma write_tools_send_their_types_witness :
  sends (NewManager 0%nat)
    (snd (mysql_insert (scripted (upServer (idRows 3))) exampleConfig
            (constJson "{}")
            (<["connection" := ArgString "primary"]>
               (<["sql" := ArgString "DELETE FROM t"]> ∅))
            (NewManager 0%nat))) [].
Proof.
  destruct (write_tools_send_their_types (scripted (upServer (idRows 3)))
              exampleConfig (constJson "{}") [QueryTypeInsert]
              (<["connection" := ArgString "primary"]>
                 (<["sql" := ArgString "DELETE FROM t"]> ∅))
              (NewManager 0%nat))
    as [H|[db [connection [sql [c [_ [Hs [_ [_ [_ [Hin _]]]]]]]]]]];
    [simpl; tauto|exact H|exfalso].
  vm_compute in Hs. injection Hs as <-.
  simpl in Hin. destruct Hin as [H|[]]. discriminate H.
Defined.

(** ** The lists that the schema handlers return *)

Lemma buildRow_single (col : string) (raw : value) :
  buildRow [col] [raw] = {[col := convertValue raw]}.
Proof. unfold buildRow. cbn. apply insert_empty. Qed.

Lemma take_min_length {A} (l : list A) (n : nat) :
  firstn (Nat.min (length l) n) l = firstn n l.
Proof.
  destruct (Nat.min_spec (length l) n) as [[Hlt ->]|[Hle ->]];
    [|reflexivity].
  rewrite !firstn_all2; [reflexivity|lia|lia].
Qed.

Section Names.

Variable visit : gmap string value -> list (string * value).
Hypothesis visit_enumerates : forall row, visit row ≡ₚ map_to_list row.

Lemma stringsOfRow_single (col : string) (src : res string (list value))
    (row : gmap string value) :
  scanned [col] src row ->
  stringsOfRow visit row = match textOfRow src with
                           | Some s => [s]
                           | None => []
                           end.
Proof.
  intros [values [Hs ->]]. apply scanRow_Ok in Hs as [-> Hlen].
  destruct values as [|raw [|? ?]]; try discriminate Hlen.
  rewrite buildRow_single. unfold stringsOfRow.
  pose proof (visit_enumerates {[col := convertValue raw]}) as Hv.
  rewrite map_to_list_singleton in Hv.
  apply Permutation_singleton_r in Hv. rewrite Hv.
  destruct raw; reflexivity.
Qed.

Lemma stringsOfRows_single (col : string)
    (srcs : list (res string (list value))) (rows : list (gmap string value)) :
  Forall2 (scanned [col]) srcs rows ->
  stringsOfRows visit rows = omap textOfRow srcs.
Proof.
  induction 1 as [|src row srcs rows Hs _ IH]; [reflexivity|].
  unfold stringsOfRows in *. cbn [map concat omap list_omap].
  rewrite IH, (stringsOfRow_single col src row Hs).
  now destruct (textOfRow src).
Qed.

End Names.

(** X26: [list_databases] and [list_tables] on a result of one column
    return the texts of its rows in their order, up to the row bound of the
    connection: the driver's byte strings and strings, no other value.  In
    which order a [range] visits the entries of a row has no part in this. *)
Theorem list_handlers_return_names {W : Type} (drv : Driver W) (cfg : Config)
    (json : Json) (visit : gmap string value -> list (string * value))
    (args : gmap string argument) (m : Manager W) (connection col : string)
    (db : DB) (c : ConnectionConfig) (m1 : Manager W) (query : string)
    (rows : sqlRows) (q : QueryResult) :
  (forall row, visit row ≡ₚ map_to_list row) ->
  args !! "connection" = Some (ArgString connection) -> connection <> "" ->
  GetConnection drv cfg connection m = (Ok (db, c), m1) ->
  fst (sqlQuery drv db query (world m1)) = Ok rows ->
  rowsColumns rows = Ok [col] ->
  fst (ExecuteQuery drv cfg connection query m) = Ok q ->
  let names :=
    omap textOfRow (firstn (Z.to_nat (MaxRows c)) (rowsNext rows)) in
  stringsOfRows visit (Rows q) = names /\
  (query = "SHOW DATABASES" ->
   fst (list_databases drv cfg json visit args m) =
   formatResult (jsonStrings json names)) /\
  (query = listTablesQuery (fst (stringArgument args "database")) ->
   fst (list_tables drv cfg json visit args m) =
   formatResult (jsonStrings json names)).
Proof.
  intros Hvisit Hc Hcne Hg Hrows Hcols Hq names.
  assert (Hnames : stringsOfRows visit (Rows q) = names).
  { rewrite (ExecuteQuery_resolved drv cfg _ _ _ _ _ _ Hg) in Hq.
    destruct (queryWith_ok drv connection query db c m1 q Hq)
      as [rows' [Hr' [Hcr _]]].
    rewrite Hrows in Hr'. injection Hr' as <-.
    destruct (collectRows_ok _ _ _ Hcr) as [Hcq [_ [_ Hall]]].
    rewrite Hcols in Hcq. injection Hcq as Hcq. rewrite <- Hcq in Hall.
    rewrite (stringsOfRows_single visit Hvisit col _ _ Hall).
    unfold names. now rewrite take_min_length. }
  assert (Hmc : missing (stringArgument args "connection") = false)
    by (apply missing_false; eauto).
  split; [exact Hnames|]. split.
  - intros ->. unfold list_databases. rewrite Hmc.
    unfold stringArgument at 1. rewrite Hc. cbn [fst]. rewrite bind_run.
    destruct (ExecuteQuery drv cfg connection "SHOW DATABASES" m)
      as [r m'].
    cbn [fst] in Hq. subst r. cbn [fst]. now rewrite Hnames.
  - intros ->. unfold list_tables. rewrite Hmc.
    unfold stringArgument at 1. rewrite Hc. cbn [fst]. rewrite bind_run.
    destruct (ExecuteQuery drv cfg connection
                (listTablesQuery (fst (stringArgument args "database"))) m)
      as [r m'].
    cbn [fst] in Hq. subst r. cbn [fst]. now rewrite Hnames.
Qed.

Lemma list_handlers_return_names_witness :
  exists q,
    fst (ExecuteQuery (scripted (upServer (idRows 3))) exampleConfig "primary"
           "SHOW DATABASES" (NewManager 0%nat)) = Ok q /\
    stringsOfRows (fun row => map_to_list row) (Rows q) = ["1"; "2"].
Proof.
  destruct (fst (ExecuteQuery (scripted (upServer (idRows 3))) exampleConfig
                   "primary" "SHOW DATABASES" (NewManager 0%nat)))
    as [q|e] eqn:Hq; [|vm_compute in Hq; discriminate Hq].
  exists q. split; [reflexivity|].
  destruct (list_handlers_return_names (scripted (upServer (idRows 3)))
              exampleConfig (constJson "[]") (fun row => map_to_list row)
              (<["connection" := ArgString "primary"]> ∅) (NewManager 0%nat)
              "primary" "id" 0%nat (exampleConnection false 2)
              (snd (GetConnection (scripted (upServer (idRows 3)))
                      exampleConfig "primary" (NewManager 0%nat)))
              "SHOW DATABASES" (idRows 3) q) as [H _];
    [reflexivity|reflexivity|discriminate|vm_compute; reflexivity
    |reflexivity|reflexivity|exact Hq|].
  exact H.
Defined.

(** ** The indexes of a table *)

Lemma groupIndexes_snoc (rows : list (gmap string value))
    (row : gmap string value) :
  groupIndexes (rows ++ [row]) = indexStep (groupIndexes rows) row.
Proof. unfold groupIndexes. now rewrite fold_left_app. Qed.

Lemma rowsOfIndex_snoc (keyName : string) (rows : list (gmap string value))
    (row : gmap string value) :
  rowsOfIndex keyName (rows ++ [row]) =
  (rowsOfIndex keyName rows ++
   if String.eqb (stringField row "Key_name") keyName then [row] else [])%list.
Proof. unfold rowsOfIndex. now rewrite List.filter_app. Qed.

Lemma columnsOfIndex_snoc (group : list (gmap string value))
    (row : gmap string value) :
  columnsOfIndex (group ++ [row]) =
  (columnsOfIndex group ++
   if isEmpty (stringField row "Column_name") then []
   else [stringField row "Column_name"])%list.
Proof.
  unfold columnsOfIndex. rewrite map_app, List.filter_app. cbn.
  now destruct (isEmpty (stringField row "Column_name")).
Qed.

(** X27: the grouping of [get_indexes]: an index name that is not empty
    has an entry exactly when a row carries it as its [Key_name]; the entry
    has that name, the uniqueness that the first such row tells ([Non_unique]
    is the integer 0 or the string "0") and the [Column_name]s of these rows
    that are not empty, in the order of the rows.  Rows without a
    [Key_name] are passed over, and the handler lists every entry of the
    grouping once. *)
Theorem groupIndexes_spec (rows : list (gmap string value))
    (keyName : string) :
  keyName <> "" ->
  groupIndexes rows !! keyName =
    match rowsOfIndex keyName rows with
    | [] => None
    | first :: _ =>
        Some {| idxName := keyName;
                idxUnique := isUniqueIndex first;
                idxColumns := columnsOfIndex (rowsOfIndex keyName rows) |}
    end /\
  groupIndexes rows !! "" = None /\
  (forall order entry,
     enumerates order (groupIndexes rows) ->
     (In entry (indexList order (groupIndexes rows)) <->
      exists name, groupIndexes rows !! name = Some entry) /\
     length (indexList order (groupIndexes rows)) =
     size (groupIndexes rows)).
Proof.
  intros Hne.
  assert (Hstep : forall (g : gmap string indexEntry) row k,
    stringField row "Key_name" <> k ->
    indexStep g row !! k = g !! k).
  { intros g row k Hk. unfold indexStep.
    destruct (isEmpty (stringField row "Key_name")); [reflexivity|].
    destruct (isEmpty (stringField row "Column_name")).
    - destruct (g !! stringField row "Key_name"); [reflexivity|].
      now apply lookup_insert_ne.
    - rewrite lookup_alter_ne by exact Hk.
      destruct (g !! stringField row "Key_name"); [reflexivity|].
      now apply lookup_insert_ne. }
  assert (Hempty : groupIndexes rows !! "" = None).
  { induction rows as [|row rows IH] using rev_ind; [apply lookup_empty|].
    rewrite groupIndexes_snoc.
    destruct (string_dec (stringField row "Key_name") "") as [He|Hn].
    - unfold indexStep. rewrite He. exact IH.
    - rewrite Hstep by exact Hn. exact IH. }
  split; [|split; [exact Hempty|]].
  - clear Hempty.
    induction rows as [|row rows IH] using rev_ind; [apply lookup_empty|].
    rewrite groupIndexes_snoc, rowsOfIndex_snoc.
    destruct (String.eqb_spec (stringField row "Key_name") keyName)
      as [Hk|Hk].
    + unfold indexStep. rewrite Hk.
      destruct keyName as [|k0 key]; [now elim Hne|]. cbn [isEmpty].
      rewrite IH. rewrite columnsOfIndex_snoc.
      destruct (rowsOfIndex (String k0 key) rows) as [|first group].
      * cbn [app columnsOfIndex map List.filter].
        destruct (isEmpty (stringField row "Column_name")).
        -- apply lookup_insert_eq.
        -- rewrite lookup_alter_eq, lookup_insert_eq. reflexivity.
      * cbn [app].
        destruct (isEmpty (stringField row "Column_name")).
        -- rewrite IH. now rewrite app_nil_r.
        -- rewrite lookup_alter_eq, IH. reflexivity.
    + rewrite Hstep by exact Hk. rewrite IH. now rewrite app_nil_r.
  - intros order entry Henum. unfold indexList.
    destruct (omap_lookup_enumerates order (groupIndexes rows))
      as [Hlen Hin]; [intros k Hk; now apply Henum|].
    split.
    + rewrite Hin. split.
      * intros [k [_ Hk]]. eauto.
      * intros [k Hk]. exists k. split; [|exact Hk]. apply Henum. eauto.
    + rewrite Hlen. now apply enumerates_length.
Qed.

Lemma groupIndexes_spec_witness :
  groupIndexes
    [<["Key_name" := VString "PRIMARY"]>
       (<["Non_unique" := VInt 0]> (<["Column_name" := VString "id"]> ∅));
     <["Key_name" := VString "by_day"]>
       (<["Non_unique" := VString "1"]> (<["Column_name" := VString "day"]> ∅));
     <["Key_name" := VString "by_day"]>
       (<["Non_unique" := VString "1"]> (<["Column_name" := VString "shop"]> ∅))]
    !! "by_day" =
  Some {| idxName := "by_day"; idxUnique := false;
          idxColumns := ["day"; "shop"] |}.
Proof.
  rewrite (proj1 (groupIndexes_spec _ "by_day" ltac:(discriminate))).
  reflexivity.
Defined.

(** ** The row bound *)

(** X28: a successful [ExecuteQuery] on a connection with
    [max_rows = m > 0], on a cursor that delivers [n] rows before [Next] is
    false, returns exactly [min n m] rows: the first rows delivered, in
    order; [Count] is the number of rows returned and is at most [m]; what
    the cursor holds behind the first [m] rows is never read (the call
    returns the same whatever follows them), and neither is [rowsErr].  On a
    cursor that reaches the end of its result set [n] is the number of rows
    of the result set.  The call does succeed when the gates pass, the
    columns are known and the first [m] rows can be scanned. *)
Theorem ExecuteQuery_row_cap {W : Type} (drv : Driver W) (cfg : Config)
    (name sql : string) (m : Manager W) (db : DB) (c : ConnectionConfig)
    (m1 : Manager W) (rows : sqlRows) :
  GetConnection drv cfg name m = (Ok (db, c), m1) ->
  (0 < MaxRows c)%Z ->
  fst (sqlQuery drv db sql (world m1)) = Ok rows ->
  let r := fst (ExecuteQuery drv cfg name sql m) in
  let n := length (rowsNext rows) in
  let cap := Z.to_nat (MaxRows c) in
  (forall q, r = Ok q ->
     length (Rows q) = Nat.min n cap /\
     Count q = Z.of_nat (length (Rows q)) /\
     (Count q <= MaxRows c)%Z /\
     rowsColumns rows = Ok (Columns q) /\
     Forall2 (scanned (Columns q))
             (firstn (Nat.min n cap) (rowsNext rows)) (Rows q) /\
     r = collectRows (MaxRows c)
           {| rowsColumns := rowsColumns rows;
              rowsNext := firstn cap (rowsNext rows);
              rowsErr := rowsErr rows |}) /\
  (forall columns,
     ReadOnly c && negb (isReadOnlyQuery sql) = false ->
     negb (ReadOnly c) && isDangerousQuery sql = false ->
     isSensitiveQuery sql = false ->
     rowsColumns rows = Ok columns ->
     Forall (fun src => isOk (scanRow columns src) = true)
            (firstn cap (rowsNext rows)) ->
     isOk r = true).
Proof.
  intros Hget Hpos Hrows r n cap.
  assert (Hr : r = fst (queryWith drv name sql db c m1))
    by (unfold r; now rewrite (ExecuteQuery_resolved drv cfg _ _ _ _ _ _ Hget)).
  assert (Hgo : ReadOnly c && negb (isReadOnlyQuery sql) = false ->
                negb (ReadOnly c) && isDangerousQuery sql = false ->
                isSensitiveQuery sql = false ->
                r = collectRows (MaxRows c) rows).
  { intros H1 H2 H3. rewrite Hr. unfold queryWith. rewrite H1, H2, H3.
    rewrite bind_run. unfold Query. rewrite perform_run, Hrows.
    reflexivity. }
  split.
  - intros q Hq.
    assert (Hc : r = collectRows (MaxRows c) rows).
    { apply Hgo.
      - rewrite Hr in Hq. unfold queryWith in Hq.
        destruct (ReadOnly c && negb (isReadOnlyQuery sql));
          [discriminate Hq|reflexivity].
      - rewrite Hr in Hq. unfold queryWith in Hq.
        destruct (ReadOnly c && negb (isReadOnlyQuery sql));
          [discriminate Hq|].
        destruct (negb (ReadOnly c) && isDangerousQuery sql);
          [discriminate Hq|reflexivity].
      - rewrite Hr in Hq. unfold queryWith in Hq.
        destruct (ReadOnly c && negb (isReadOnlyQuery sql));
          [discriminate Hq|].
        destruct (negb (ReadOnly c) && isDangerousQuery sql);
          [discriminate Hq|].
        destruct (isSensitiveQuery sql); [discriminate Hq|reflexivity]. }
    rewrite Hc in Hq.
    destruct (collectRows_ok _ _ _ Hq) as [Hcols [Hlen [Hcount Hall]]].
    fold n cap in Hlen, Hall.
    split; [exact Hlen|]. split; [exact Hcount|]. split; [lia|].
    split; [exact Hcols|]. split; [exact Hall|].
    rewrite Hc. apply collectRows_firstn.
  - intros columns H1 H2 H3 Hcols Hall.
    rewrite (Hgo H1 H2 H3). unfold collectRows. rewrite Hcols.
    pose proof (scanLoop_total (MaxRows c) columns (rowsNext rows) [] 0) as H.
    replace (MaxRows c - 0)%Z with (MaxRows c) in H by lia.
    specialize (H Hall).
    destruct (scanLoop _ _ _ _ _) as [[collected count]|e];
      [reflexivity|discriminate H].
Qed.

Lemma ExecuteQuery_row_cap_witness :
  exists q,
    fst (ExecuteQuery (scripted (upServer (idRows 10))) exampleConfig "primary"
           "SELECT id FROM t" (NewManager 0%nat)) = Ok q /\
    length (rowsNext (idRows 10)) = 10%nat /\
    MaxRows (exampleConnection false 2) = 2%Z /\
    length (Rows q) = 2%nat /\ Count q = 2%Z.
Proof.
  assert (Hg : GetConnection (scripted (upServer (idRows 10))) exampleConfig
                 "primary" (NewManager 0%nat) =
               (Ok (0%nat, exampleConnection false 2),
                snd (GetConnection (scripted (upServer (idRows 10)))
                       exampleConfig "primary" (NewManager 0%nat))))
    by (vm_compute; reflexivity).
  destruct (ExecuteQuery_row_cap (scripted (upServer (idRows 10)))
              exampleConfig "primary" "SELECT id FROM t" _ _ _ _
              (idRows 10) Hg) as [H Hok]; [reflexivity|reflexivity|].
  specialize (Hok ["id"] eq_refl eq_refl eq_refl eq_refl).
  destruct (fst (ExecuteQuery _ _ _ _ _)) as [q|e].
  - exists q. destruct (H q eq_refl) as [Hlen [Hcount _]].
    split; [reflexivity|]. split; [reflexivity|]. split; [reflexivity|].
    split; [exact Hlen|]. rewrite Hcount, Hlen. reflexivity.
  - exfalso. assert (false = true) as Hf; [|discriminate Hf].
    apply Hok. repeat constructor.
Defined.
